(** * Aunis: the Nanonis scripting engine (Scripting.py, Aunis.py)

    A shallow embedding of the script validator, the loop expander, the
    execution engines and the reply decoder of the remote command client,
    followed by the properties established for them.

    Text is modelled as [string], read as the bytes of ASCII text: a code
    point above 127 is carried as its UTF-8 bytes and is treated neither as
    white space nor as a line boundary. [str.isdigit] knows, beyond the ASCII
    digits, the superscript digits of Latin-1, which [int] refuses; the
    digits of other scripts are left out.

    Memory and stack: the interpreter can fail to allocate at any point;
    the model has [MemoryError] where a size is a number written in the
    script and not the length of its text, at [block * count], and
    [RecursionError] where the function of the repository that calls itself
    does, in [_parse_block]. *)

From Stdlib Require Import ZArith Ascii String DecimalString Lia.
From stdpp Require Import base option list strings gmap.

Set Warnings "-register-all".
Local Open Scope Z_scope.
Local Open Scope nat_scope.

(** ** Python exceptions and fallible results *)

Inductive exn : Type :=
  | TypeError
  | ValueError
  | KeyError
  | IndexError
  | AttributeError
  | UnboundLocalError
  | OverflowError
  | MemoryError
  | RecursionError.

(** [UnboundLocalError] is a subclass of [NameError]. *)
Definition is_NameError (e : exn) : bool :=
  match e with UnboundLocalError => true | _ => false end.

(** What a call produces: a value, a raised exception, or [OutOfFuel] when a
    fuel-bounded model ran out of steps (never the case for the fuel the
    callers pass, see [_parse_block_fuel]). *)
Inductive outcome (A : Type) : Type :=
  | Ok (a : A)
  | Raise (e : exn)
  | OutOfFuel.
Arguments Ok {A} a.
Arguments Raise {A} e.
Arguments OutOfFuel {A}.

Global Instance outcome_ret : MRet outcome := fun A a => Ok a.
Global Instance outcome_bind : MBind outcome := fun A B k m =>
  match m with
  | Ok a => k a
  | Raise e => Raise e
  | OutOfFuel => OutOfFuel
  end.

(** ** Python string primitives *)

Module PyStr.

Definition nl : string := String "010" "".

(** [str.isspace] on ASCII. *)
Definition isspace (c : ascii) : bool :=
  match c with
  | "009" | "010" | "011" | "012" | "013"
  | "028" | "029" | "030" | "031" | " " => true
  | _ => false
  end%char.

(** The ASCII line boundaries of [str.splitlines]. *)
Definition is_linebreak (c : ascii) : bool :=
  match c with
  | "010" | "011" | "012" | "013" | "028" | "029" | "030" => true
  | _ => false
  end%char.

(** The value of a decimal digit, by stdpp's [Ascii.is_nat]. *)
Definition digit_val (c : ascii) : option Z := Z.of_nat <$> Ascii.is_nat c.

Definition is_digit (c : ascii) : bool :=
  match Ascii.is_nat c with Some _ => true | None => false end.

Definition is_empty (s : string) : bool :=
  match s with "" => true | _ => false end.

Definition snoc (s : string) (c : ascii) : string := s +:+ String c "".

(** [s.lstrip()], [s.rstrip()], [s.strip()]. *)
Fixpoint lstrip (s : string) : string :=
  match s with
  | "" => ""
  | String c s' => if isspace c then lstrip s' else s
  end.

Fixpoint rstrip (s : string) : string :=
  match s with
  | "" => ""
  | String c s' =>
      let r := rstrip s' in
      if is_empty r && isspace c then "" else String c r
  end.

Definition strip (s : string) : string := rstrip (lstrip s).

(** [s.split()]: split on runs of white space, no empty token. *)
Fixpoint split_go (cur : string) (s : string) : list string :=
  match s with
  | "" => if is_empty cur then [] else [cur]
  | String c s' =>
      if isspace c
      then (if is_empty cur then [] else [cur]) ++ split_go "" s'
      else split_go (snoc cur c) s'
  end.
Definition split (s : string) : list string := split_go "" s.

(** [s.split(sep)] for a one-character separator: empty fields are kept. *)
Fixpoint split_on_go (sep : ascii) (cur : string) (s : string) : list string :=
  match s with
  | "" => [cur]
  | String c s' =>
      if Ascii.eqb c sep
      then cur :: split_on_go sep "" s'
      else split_on_go sep (snoc cur c) s'
  end.
Definition split_on (sep : ascii) (s : string) : list string :=
  split_on_go sep "" s.

(** [s.splitlines()]: a carriage return followed by a line feed is one
    boundary, and a final boundary opens no empty last line. *)
Fixpoint splitlines_go (cur : string) (s : string) : list string :=
  match s with
  | "" => if is_empty cur then [] else [cur]
  | String c s' =>
      if is_linebreak c then
        cur :: match c, s' with
               | "013"%char, String "010"%char s'' => splitlines_go "" s''
               | _, _ => splitlines_go "" s'
               end
      else splitlines_go (snoc cur c) s'
  end.
Definition splitlines (s : string) : list string := splitlines_go "" s.

(** The second byte of the superscript digits U+00B2, U+00B3 and U+00B9,
    whose first byte is 194. *)
Definition is_superscript (c : ascii) : bool :=
  match c with
  | "178" | "179" | "185" => true
  | _ => false
  end%char.

(** [s.isdigit()]: every character is a digit, and there is one at least.
    The digits are the ASCII ones and the superscript digits; [lead] tells
    that the byte 194 has just been read. *)
Fixpoint all_digits_go (lead : bool) (s : string) : bool :=
  match s with
  | "" => negb lead
  | String c s' =>
      if lead then is_superscript c && all_digits_go false s'
      else if is_digit c then all_digits_go false s'
      else Ascii.eqb c "194" && all_digits_go true s'
  end.
Definition all_digits (s : string) : bool := all_digits_go false s.
Definition isdigit (s : string) : bool := negb (is_empty s) && all_digits s.

(** A string of ASCII digits. *)
Fixpoint all_decimal (s : string) : bool :=
  match s with
  | "" => true
  | String c s' => is_digit c && all_decimal s'
  end.

(** [sep.join(xs)]. *)
Fixpoint join (sep : string) (xs : list string) : string :=
  match xs with
  | [] => ""
  | [x] => x
  | x :: rest => x +:+ sep +:+ join sep rest
  end.

(** [c in s]. *)
Fixpoint contains (c : ascii) (s : string) : bool :=
  match s with
  | "" => false
  | String d s' => Ascii.eqb c d || contains c s'
  end.

(** [str(n)] for a natural number. *)
Definition str_nat (n : nat) : string := NilZero.string_of_uint (Nat.to_uint n).

(** [sys.int_max_str_digits] as CPython 3.11 sets it: [int] refuses a text
    with more digits. *)
Definition int_max_str_digits : nat := 4300.

Fixpoint digit_count (s : string) : nat :=
  match s with
  | "" => 0
  | String c s' => (if is_digit c then 1 else 0) + digit_count s'
  end.

(** [int(s)] in base ten: surrounding white space, an optional sign, then
    digits, with single underscores allowed between digits; [ValueError] for
    any other text and for more than [int_max_str_digits] digits. *)
Fixpoint int_body (acc : Z) (after_digit : bool) (s : string) : option Z :=
  match s with
  | "" => if after_digit then Some acc else None
  | String c s' =>
      match digit_val c with
      | Some d => int_body (10 * acc + d)%Z true s'
      | None =>
          if Ascii.eqb c "_" && after_digit then int_body acc false s' else None
      end
  end.

Definition int (s : string) : outcome Z :=
  let of_body (sign : Z) (b : string) : outcome Z :=
    match int_body 0%Z false b with
    | Some n =>
        if int_max_str_digits <? digit_count b then Raise ValueError
        else Ok (sign * n)%Z
    | None => Raise ValueError
    end in
  match strip s with
  | String "-" b => of_body (-1)%Z b
  | String "+" b => of_body 1%Z b
  | b => of_body 1%Z b
  end.

(** A token: what [split] returns, a non-empty string free of white space. *)
Fixpoint no_space (s : string) : bool :=
  match s with
  | "" => true
  | String c s' => negb (isspace c) && no_space s'
  end.
Definition is_token (s : string) : bool := negb (is_empty s) && no_space s.

(** A string [splitlines] keeps in one piece. *)
Fixpoint no_break (s : string) : bool :=
  match s with
  | "" => true
  | String c s' => negb (is_linebreak c) && no_break s'
  end.

(** [s.count(c)] for a character. *)
Fixpoint count (c : ascii) (s : string) : nat :=
  match s with
  | "" => 0
  | String d s' => (if Ascii.eqb d c then 1 else 0) + count c s'
  end.

(** [s[start:]]: a negative [start] counts from the end; out of range, it
    is brought back to the nearest end. *)
Fixpoint drop (n : nat) (s : string) : string :=
  match n, s with
  | O, _ => s
  | S _, "" => ""
  | S n', String _ s' => drop n' s'
  end.

Definition slice_from (s : string) (start : Z) : string :=
  let n := Z.of_nat (String.length s) in
  let first := if (start <? 0)%Z then Z.max 0 (n + start) else Z.min start n in
  drop (Z.to_nat first) s.

End PyStr.

(** ** The remote command client (class TCPClient) *)

Module TCPClient.

(** The first component of the tuple [query] returns is a [str] on two of
    its paths and a [list] on the third. *)
Inductive pyval : Type :=
  | PStr (s : string)
  | PList (l : list string).

(** What the socket exchange of [query] leaves: an exception caught by the
    [except] clause (its text), or the decoded reply. *)
Inductive exchange : Type :=
  | Failed (text : string)
  | Received (decoded : string).

(** Lines 70-82 of Scripting.py: the reply, once decoded. *)
Definition query_reply (text : string) : pyval * string * list string :=
  let decoded := PyStr.strip text in
  let parts := PyStr.split_on "|" decoded in
  match parts with
  | [p0; p1; p2] =>
      let error := if String.eqb p0 "None" then "" else p0 in
      let response := if String.eqb p1 "None" then "" else p1 in
      let variable := if String.eqb p2 "None" then [] else PyStr.split_on "," p2 in
      (PList [error], response, variable)
  | _ => (PStr "Malformed response", decoded, [])
  end.

Definition query (x : exchange) : pyval * string * list string :=
  match x with
  | Received text => query_reply text
  | Failed text => (PStr text, "", [])
  end.

(** The request [send] and [query] write, line 55 and line 93: the command
    name, a space, the arguments printed by [str] and joined by spaces, a
    line feed. *)
Definition script_line {A : Type} (str : A -> string) (command_name : string)
    (args : list A) : string :=
  command_name +:+ " " +:+ PyStr.join " " (map str args) +:+ PyStr.nl.

(** [send]: [failure] is the text of the exception the socket raised, if
    any. No reply is read. *)
Definition send (failure : option string) : pyval * string * list string :=
  match failure with
  | None => (PStr "", "", [])
  | Some text => (PStr text, "", [])
  end.

End TCPClient.

(** ** The command registry (FUNCTION_REGISTRY) *)

(** The [type] of an argument slot: the constructor applied to the token. *)
Inductive sem_type : Type := float32 | float64 | uint16 | uint32 | int32 | str.

(** The [default] of an argument slot, a Python literal; a float literal is
    kept as its source text. *)
Inductive literal : Type :=
  | LInt (z : Z)
  | LFloat (src : string)
  | LStr (s : string).

Record ArgSpec : Type := mkArg {
  arg_label : string;
  arg_type : sem_type;
  arg_default : literal;
  arg_user : bool
}.

(** An entry: [func] is the referenced function, named by its
    [__qualname__]; [args] keeps the insertion order of the dict. *)
Record CommandSpec : Type := mkCmd {
  func : string;
  args : list ArgSpec
}.

Definition registry_entries : list (string * CommandSpec) :=
  [
    ("bias.Set", mkCmd "Nanonis.Bias_Set"
       [mkArg "Bias value (V)" float32 (LFloat "0.5") true]);
    ("bias.Get", mkCmd "Nanonis.Bias_Get" []);
    ("current.Set", mkCmd "Nanonis.ZCtrl_SetpntSet"
       [mkArg "Z-Controller setpoint" float32 (LFloat "100e-12") true]);
    ("current.Get", mkCmd "Nanonis.ZCtrl_SetpntGet" []);
    ("fb.Set", mkCmd "Nanonis.ZCtrl_OnOffSet"
       [mkArg "Z-Controller status" uint32 (LInt 1) true]);
    ("fb.Get", mkCmd "Nanonis.ZCtrl_OnOffGet" []);
    ("biasSpec.Start", mkCmd "Nanonis.BiasSpectr_Start"
       [mkArg "Get data" uint32 (LInt 0) false;
        mkArg "Save base name" str (LStr "") false]);
    ("biasSpec.LimitsGet", mkCmd "Nanonis.BiasSpectr_LimitsGet" []);
    ("biasSpec.LimitsSet", mkCmd "Nanonis.BiasSpectr_LimitsSet"
       [mkArg "Start value (V)" float32 (LFloat "0.1") true;
        mkArg "End value (V)" float32 (LFloat "1.0") true]);
    ("scan.Start", mkCmd "Nanonis.Scan_Action"
       [mkArg "Scan action" uint16 (LInt 0) false;
        mkArg "Scan direction" uint32 (LInt 0) false]);
    ("scan.Wait", mkCmd "Nanonis.Scan_WaitEndOfScan"
       [mkArg "Timeout (ms)" int32 (LInt (-1)) false]);
    ("lockin.PhaseSet", mkCmd "Nanonis.LockIn_DemodPhasSet"
       [mkArg "Demodulator number" int32 (LInt 1) false;
        mkArg "Phase (deg)" float32 (LFloat "0.0") true]);
    ("lockin.PhaseGet", mkCmd "Nanonis.LockIn_DemodPhasGet"
       [mkArg "Demodulator number" int32 (LInt 1) false]);
    ("lockin.AmplSet", mkCmd "Nanonis.LockIn_ModAmpSet"
       [mkArg "Modulator number" int32 (LInt 1) false;
        mkArg "Amplitude" float32 (LFloat "1e-3") true]);
    ("lockin.AmplGet", mkCmd "Nanonis.LockIn_ModAmpGet"
       [mkArg "Modulator number" int32 (LInt 1) false]);
    ("lockin.FreqSet", mkCmd "Nanonis.LockIn_ModPhasFreqSet"
       [mkArg "Modulator number" int32 (LInt 1) false;
        mkArg "Frequency (Hz)" float32 (LFloat "187.0") true]);
    ("lockin.FreqGet", mkCmd "Nanonis.LockIn_ModPhasFreqGet"
       [mkArg "Modulator number" int32 (LInt 1) false]);
    ("atomtrack.ModSet", mkCmd "Nanonis.AtomTrack_CtrlSet"
       [mkArg "AT control" uint16 (LInt 0) false;
        mkArg "Status" uint16 (LInt 0) true]);
    ("atomtrack.TrackSet", mkCmd "Nanonis.AtomTrack_CtrlSet"
       [mkArg "AT control" uint16 (LInt 1) false;
        mkArg "Status" uint16 (LInt 0) true]);
    ("withdraw", mkCmd "Nanonis.ZCtrl_Withdraw"
       [mkArg "Wait until finished" uint32 (LInt 1) false;
        mkArg "punTimeout (ms)ct" int32 (LInt (-1)) false]);
    ("drift.Get", mkCmd "Nanonis.Piezo_DriftCompGet" []);
    ("drift.Set", mkCmd "Nanonis.Piezo_DriftCompSet"
       [mkArg "Compensation status" uint32 (LInt 1) true;
        mkArg "Vx (m/s)" float32 (LFloat "0.0") true;
        mkArg "Vy (m/s)" float32 (LFloat "0.0") true;
        mkArg "Vz (m/s)" float32 (LFloat "0.0") true;
        mkArg "Saturation limit (%)" float32 (LFloat "10.0") false]);
    ("xy.Get", mkCmd "ScriptingInterface.getXY" []);
    ("xy.Set", mkCmd "ScriptingInterface.setZ"
       [mkArg "x (m)" float64 (LFloat "0.0") true;
        mkArg "y (m)" float64 (LFloat "0.0") true]);
    ("z.Get", mkCmd "ScriptingInterface.getZ" []);
    ("z.Set", mkCmd "ScriptingInterface.setZ"
       [mkArg "z (m)" float32 (LFloat "0.0") true]);
    ("x.Add", mkCmd "ScriptingInterface.addX"
       [mkArg "dx (m)" float64 (LFloat "0.0") true]);
    ("y.Add", mkCmd "ScriptingInterface.addY"
       [mkArg "dy (m)" float64 (LFloat "0.0") true]);
    ("z.Add", mkCmd "ScriptingInterface.addZ"
       [mkArg "dz (m)" float32 (LFloat "0.0") true]);
    ("wait", mkCmd "ScriptingInterface.wait"
       [mkArg "Time (s)" uint32 (LInt 5) true]);
    ("bias.Add", mkCmd "ScriptingInterface.addBias"
       [mkArg "Bias value (V)" float32 (LFloat "0.1") true]);
    ("current.Add", mkCmd "ScriptingInterface.addCurrent"
       [mkArg "Current value (A)" float32 (LFloat "50e-12") true]);
    ("drift.correctZ", mkCmd "ScriptingInterface.correctZDrift"
       [mkArg "Time (s)" uint32 (LInt 5) true]);
    ("QuPe.FreqSet", mkCmd "<lambda>"
       [mkArg "Frequency (Hz)" float32 (LFloat "1e9") true])
  ].

Definition FUNCTION_REGISTRY : gmap string CommandSpec :=
  list_to_map registry_entries.

(** The positional parameters, [self] apart, of the functions this
    repository defines: the methods of [ScriptingInterface] and the lambda of
    [QuPe.FreqSet]. The methods of [nanonis_spm.Nanonis] are not part of the
    repository. *)
Definition arity (qualname : string) : option nat :=
  if String.eqb qualname "ScriptingInterface.getXY" then Some 0
  else if String.eqb qualname "ScriptingInterface.getZ" then Some 0
  else if String.eqb qualname "ScriptingInterface.setXY" then Some 2
  else if String.eqb qualname "ScriptingInterface.setZ" then Some 1
  else if String.eqb qualname "ScriptingInterface.addX" then Some 1
  else if String.eqb qualname "ScriptingInterface.addY" then Some 1
  else if String.eqb qualname "ScriptingInterface.addZ" then Some 1
  else if String.eqb qualname "ScriptingInterface.addBias" then Some 1
  else if String.eqb qualname "ScriptingInterface.addCurrent" then Some 1
  else if String.eqb qualname "ScriptingInterface.wait" then Some 1
  else if String.eqb qualname "ScriptingInterface.correctZDrift" then Some 1
  else if String.eqb qualname "<lambda>" then Some 1
  else None.

(** ** Values, parsed commands and the instrument *)

(** An argument or a returned variable: a registry default, or the object
    [ty(tok)] a slot's constructor makes of a token. *)
Inductive value : Type :=
  | VLit (d : literal)
  | VNp (ty : sem_type) (tok : string).

(** The receivers of INSTANCE_MAP. *)
Inductive instance : Type := NanonisInst | SelfInst.

(** A function once bound: [func_ref.__get__(instance)], or the bare
    reference. *)
Record bound_func : Type := mkBound {
  qualname : string;
  receiver : option instance
}.

(** An entry of the flat command list. *)
Record ParsedCommand : Type := mkEntry {
  cmd : string;
  pc_func : bound_func;
  pc_args : list value
}.

(** The triple every command function returns. *)
Record ExecutionResult : Type := mkResult {
  errorString : string;
  response : string;
  variables : list value
}.

(** What lies outside the repository: the state of the instrument and of
    the network, which numpy constructor accepts which token and what it
    raises on a token it rejects, how a value prints, what the body of a
    bound function does, how many items the longest list has that the
    interpreter can allocate, and how many calls of [_parse_block] it lets
    nest inside the first one. *)
Class Driver : Type := {
  World : Type;
  np_accepts : sem_type -> string -> bool;
  np_error : sem_type -> string -> exn;
  str_value : value -> string;
  run_body : bound_func -> list value -> World -> outcome ExecutionResult * World;
  list_capacity : N;
  recursion_limit : nat
}.

(** ** The scripting interface (class ScriptingInterface) *)

(** The attributes of the object that parsing reads: [nanonis] exists only
    once [connect] has succeeded. *)
Record iface : Type := mkIface {
  connected : bool;
  has_nanonis : bool
}.

Module ScriptingInterface.

(** [__init__]. *)
Definition init : iface := mkIface false false.

(** [connect(ip, port)]: [reached] tells whether the socket connected; only
    then is [self.nanonis] set. *)
Definition connect (reached : bool) (self : iface) : iface :=
  if reached then mkIface true true else mkIface false (has_nanonis self).

(** [disconnect()]. *)
Definition disconnect (self : iface) : iface := mkIface false (has_nanonis self).

(** [[line.strip() for line in script.splitlines() if line.strip()]] *)
Definition script_lines (script : string) : list string :=
  map PyStr.strip
    (List.filter (fun line => negb (PyStr.is_empty (PyStr.strip line)))
       (PyStr.splitlines script)).

Definition expected_user_args (cmd_info : CommandSpec) : nat :=
  length (List.filter arg_user (args cmd_info)).

Definition msg_invalid_loop (line_num : nat) (line : string) : string :=
  "Line " +:+ PyStr.str_nat line_num +:+ ": invalid loop syntax → " +:+ line.

Definition msg_end_without_loop (line_num : nat) (line : string) : string :=
  "Line " +:+ PyStr.str_nat line_num
  +:+ ": 'end' without matching 'loop' → " +:+ line.

Definition msg_unknown (line_num : nat) (line : string) : string :=
  "Line " +:+ PyStr.str_nat line_num +:+ ": unknown command → " +:+ line.

Definition msg_wrong_args (line_num : nat) (cmd_name : string)
    (expected given : nat) (line : string) : string :=
  "Line " +:+ PyStr.str_nat line_num +:+ ": wrong number of arguments for '"
  +:+ cmd_name +:+ "'. " +:+ "Expected " +:+ PyStr.str_nat expected
  +:+ ", got " +:+ PyStr.str_nat given +:+ " → " +:+ line.

Definition msg_unclosed : string := "Unclosed 'loop' detected".

(** The [else] branch of the loop of [check_syntax], lines 173-188: the
    line as a command. [parts[0]] exists because the line is not blank. *)
Definition check_command (line_num : nat) (line : string)
    (st : list string * list string) : list string * list string :=
  let '(errors, stack) := st in
  match PyStr.split line with
  | [] => (errors, stack)
  | cmd_name :: user_values =>
      match FUNCTION_REGISTRY !! cmd_name with
      | None => (errors ++ [msg_unknown line_num line], stack)
      | Some cmd_info =>
          let expected := expected_user_args cmd_info in
          let given_args := length user_values in
          if negb (given_args =? expected)
          then (errors ++ [msg_wrong_args line_num cmd_name expected given_args line],
                stack)
          else (errors, stack)
      end
  end.

(** One turn of the [for] loop of [check_syntax] on the pair
    [(errors, stack)]. [parts[1]] is read only when [len(parts) == 2]. *)
Definition check_line (line_num : nat) (line : string)
    (st : list string * list string) : list string * list string :=
  let '(errors, stack) := st in
  if String.prefix "loop" line then
    match PyStr.split line with
    | [_; p1] =>
        if PyStr.isdigit p1
        then (errors, stack ++ ["loop"])
        else (errors ++ [msg_invalid_loop line_num line], stack)
    | _ => (errors ++ [msg_invalid_loop line_num line], stack)
    end
  else if String.eqb line "end" then
    match stack with
    | [] => (errors ++ [msg_end_without_loop line_num line], stack)
    | _ => (errors, removelast stack)
    end
  else check_command line_num line (errors, stack).

(** [for line_num, line in enumerate(lines, start=1)] *)
Fixpoint check_lines (line_num : nat) (lines : list string)
    (st : list string * list string) : list string * list string :=
  match lines with
  | [] => st
  | line :: rest => check_lines (S line_num) rest (check_line line_num line st)
  end.

Definition check_syntax_lines (lines : list string) : list string :=
  let '(errors, stack) := check_lines 1 lines ([], []) in
  match stack with
  | [] => errors
  | _ => errors ++ [msg_unclosed]
  end.

Definition check_syntax (script : string) : list string :=
  check_syntax_lines (script_lines script).

(** The stack of open-loop markers the validator holds after [lines]. *)
Definition open_loops (lines : list string) : list string :=
  (check_lines 1 lines ([], [])).2.

Section WithDriver.
Context `{Driver}.

(** [arg_info["type"](token)]: [str] returns the token; a numpy
    constructor returns its scalar or raises. *)
Definition convert (ty : sem_type) (tok : string) : outcome value :=
  match ty with
  | str => Ok (VLit (LStr tok))
  | _ => if np_accepts ty tok then Ok (VNp ty tok) else Raise (np_error ty tok)
  end.

(** The [for] loop over [cmd_info["args"].items()], lines 268-273. *)
Fixpoint resolve_args (specs : list ArgSpec) (user_values : list string)
    (user_index : nat) (args : list value) : outcome (list value) :=
  match specs with
  | [] => Ok args
  | arg_info :: rest =>
      if arg_user arg_info then
        match user_values !! user_index with
        | None => Raise IndexError
        | Some tok =>
            v ← convert (arg_type arg_info) tok;
            resolve_args rest user_values (S user_index) (args ++ [v])
        end
      else
        resolve_args rest user_values user_index
          (args ++ [VLit (arg_default arg_info)])
  end.

Definition INSTANCE_MAP : gmap string instance :=
  {[ "Nanonis" := NanonisInst; "ScriptingInterface" := SelfInst ]}.

(** Lines 275-281: bind the function to the instance its class names. *)
Definition bind_func (func_ref : string) : outcome bound_func :=
  if PyStr.contains "." func_ref then
    match PyStr.split_on "." func_ref with
    | cls_name :: _ =>
        match INSTANCE_MAP !! cls_name with
        | Some inst => Ok (mkBound func_ref (Some inst))
        | None => Raise KeyError
        end
    | [] => Raise IndexError
    end
  else Ok (mkBound func_ref None).

(** The [else] branch of the loop of [_parse_block], lines 261-287. *)
Definition command_entry (line : string) : outcome ParsedCommand :=
  match PyStr.split line with
  | [] => Raise IndexError
  | cmd_name :: user_values =>
      match FUNCTION_REGISTRY !! cmd_name with
      | None => Raise KeyError
      | Some cmd_info =>
          args ← resolve_args (args cmd_info) user_values 0 [];
          func ← bind_func (func cmd_info);
          Ok (mkEntry cmd_name func args)
      end
  end.

(** The longest list [block * count] can make: what the interpreter can
    allocate, and on a 64-bit build never more than an eighth of the largest
    machine word. *)
Definition max_list_len : Z :=
  Z.min (Z.of_N list_capacity) ((2 ^ 63 - 1) / 8).

(** [block * count]: a count that does not fit a machine word raises
    [OverflowError]; a list longer than [max_list_len] raises
    [MemoryError]; no copy for a count of zero or less. *)
Definition list_mul {A : Type} (block : list A) (count : Z) : outcome (list A) :=
  if (count <? - 2 ^ 63)%Z || (2 ^ 63 <=? count)%Z then Raise OverflowError
  else if (max_list_len <? Z.of_nat (length block) * count)%Z
  then Raise MemoryError
  else Ok (concat (replicate (Z.to_nat count) block)).

(** The [while] loop of [_parse_block] on [(index, result)], in a call
    nested [depth] calls deep. The call [self._parse_block(lines, index + 1)]
    is the loop started afresh with an empty result, one call deeper, and
    raises [RecursionError] when no more call can nest; each turn and each
    call takes one unit of fuel. *)
Fixpoint _parse_block_loop (fuel : nat) (lines : list string) (index : nat)
    (result : list ParsedCommand) (depth : nat)
    : outcome (list ParsedCommand * nat) :=
  match fuel with
  | O => OutOfFuel
  | S fuel' =>
      match lines !! index with
      | None => Ok (result, index)
      | Some line =>
          if String.prefix "loop" line then
            match PyStr.split line with
            | [_; count_str] =>
                count ← PyStr.int count_str;
                '(block, index') ←
                  (if recursion_limit <=? depth then Raise RecursionError
                   else _parse_block_loop fuel' lines (index + 1) [] (S depth));
                repeated ← list_mul block count;
                _parse_block_loop fuel' lines index' (result ++ repeated) depth
            | _ => Raise ValueError
            end
          else if String.eqb line "end" then Ok (result, index + 1)
          else
            entry ← command_entry line;
            _parse_block_loop fuel' lines (index + 1) (result ++ [entry]) depth
      end
  end.

(** [_parse_block(lines, index)]: building INSTANCE_MAP reads
    [self.nanonis]. *)
Definition _parse_block (self : iface) (fuel : nat) (lines : list string)
    (index : nat) : outcome (list ParsedCommand * nat) :=
  if has_nanonis self then _parse_block_loop fuel lines index [] 0
  else Raise AttributeError.

(** Enough fuel for any list of lines (lemma [_parse_block_loop_fuel]). *)
Definition _parse_block_fuel (lines : list string) : nat := S (length lines).

(** [parse_commands(script)]: the pair [(commands, errors)], with [None]
    for the commands of a script that has syntax errors. *)
Definition parse_commands (self : iface) (script : string)
    : outcome (option (list ParsedCommand) * list string) :=
  let errors := check_syntax script in
  match errors with
  | _ :: _ => Ok (None, errors)
  | [] =>
      let lines := script_lines script in
      '(commands, _) ← _parse_block self (_parse_block_fuel lines) lines 0;
      Ok (Some commands, [])
  end.

(** Calling the bound function on the arguments: a function of this repository called with the wrong
    number of arguments raises [TypeError]; [wait] sleeps and returns the
    empty triple; every other body belongs to the driver. *)
Definition call (entry : ParsedCommand) (w : World)
    : outcome ExecutionResult * World :=
  let f := pc_func entry in
  let body :=
    if String.eqb (qualname f) "ScriptingInterface.wait"
    then (Ok (mkResult "" "" []), w)
    else run_body f (pc_args entry) w in
  match arity (qualname f) with
  | Some n => if length (pc_args entry) =? n then body else (Raise TypeError, w)
  | None => body
  end.

(** [returns commands w results w']: called one after the other from the
    state [w], the commands all return, with these triples, and leave the
    state [w']. *)
Inductive returns : list ParsedCommand -> World -> list ExecutionResult -> World -> Prop :=
  | returns_nil (w : World) : returns [] w [] w
  | returns_cons (entry : ParsedCommand) (rest : list ParsedCommand)
      (w w1 w' : World) (r : ExecutionResult) (results : list ExecutionResult) :
      call entry w = (Ok r, w1) ->
      returns rest w1 results w' ->
      returns (entry :: rest) w (r :: results) w'.

(** The [for] loop of [execute], lines 307-311, on the last triple bound so
    far ([None] while the three names are unbound). *)
Fixpoint execute_loop (commands : list ParsedCommand)
    (last : option ExecutionResult) (w : World)
    : outcome (option ExecutionResult) * World :=
  match commands with
  | [] => (Ok last, w)
  | entry :: rest =>
      match call entry w with
      | (Ok r, w') => execute_loop rest (Some r) w'
      | (Raise e, w') => (Raise e, w')
      | (OutOfFuel, w') => (OutOfFuel, w')
      end
  end.

(** [execute(script)]: iterating [None] raises [TypeError]; returning the
    three names while they are unbound raises [UnboundLocalError]. *)
Definition execute (self : iface) (script : string) (w : World)
    : outcome ExecutionResult * World :=
  match parse_commands self script with
  | Ok (Some commands, _) =>
      match execute_loop commands None w with
      | (Ok (Some r), w') => (Ok r, w')
      | (Ok None, w') => (Raise UnboundLocalError, w')
      | (Raise e, w') => (Raise e, w')
      | (OutOfFuel, w') => (OutOfFuel, w')
      end
  | Ok (None, _) => (Raise TypeError, w)
  | Raise e => (Raise e, w)
  | OutOfFuel => (OutOfFuel, w)
  end.

End WithDriver.

End ScriptingInterface.

(** ** The main window (class AunisUI): the cancellation flag *)

Module AunisUI.

(** The two buttons that write [threadScript.cancelScript]. *)
Inductive ui_action : Type := StopScript | RunScript.

(** [stopScript] sets the flag when the thread is running. *)
Definition stopScript (isRunning : bool) (cancelScript : bool) : bool :=
  if isRunning then true else cancelScript.

(** [runScript] clears the flag ([start] does nothing on a running thread). *)
Definition runScript (cancelScript : bool) : bool := false.

Definition act (a : ui_action) (cancelScript : bool) : bool :=
  match a with
  | StopScript => stopScript true cancelScript
  | RunScript => runScript cancelScript
  end.

(** The values the worker reads from the flag, for a schedule [ui] giving
    the buttons pressed before each read of a run that [runScript] started:
    read [i] sees the presses up to [ui i]. *)
Fixpoint cancel_reads (ui : nat -> list ui_action) (i : nat) : bool :=
  match i with
  | O => foldl (fun flag a => act a flag) (runScript false) (ui 0)
  | S j => foldl (fun flag a => act a flag) (cancel_reads ui j) (ui (S j))
  end.

(** [logCommand(msgType, message, status)] at the time [timestamp], on the
    text of the log widget and the content of the log file of the session:
    the record is inserted at position 0 of the widget and appended to the
    file. *)
Definition log_record (timestamp msgType message status : string) : string :=
  timestamp +:+ String "009" "" +:+ msgType +:+ String "009" "" +:+ message
  +:+ String "009" "" +:+ status +:+ PyStr.nl.

Definition logCommand (timestamp msgType message status : string)
    (st : string * string) : string * string :=
  let data := log_record timestamp msgType message status in
  (data +:+ st.1, st.2 +:+ data).

(** The slot called once for each of [calls], in order. *)
Definition log_all (calls : list (string * string * string * string))
    (st : string * string) : string * string :=
  foldl (fun st c => logCommand c.1.1.1 c.1.1.2 c.1.2 c.2 st) st calls.

End AunisUI.

(** ** The worker thread (class runScriptThread) *)

Module runScriptThread.

Inductive signal : Type :=
  | errorMsg (msg : string)
  | scriptStatus (status : string)
  | logSignal (kind message status : string).

(** What a run does, in order: the signals it emits and the command
    functions it calls. *)
Inductive event : Type :=
  | Emit (s : signal)
  | Called (entry : ParsedCommand).

Section WithDriver.
Context `{Driver}.

Definition status_of (r : ExecutionResult) : string :=
  if negb (String.length (errorString r) =? 0) then errorString r else "OK".

Definition request_message (entry : ParsedCommand) : string :=
  cmd entry +:+ " " +:+ PyStr.join " " (map str_value (pc_args entry)).

Definition response_message (r : ExecutionResult) : string :=
  "[" +:+ PyStr.join ", " (map str_value (variables r)) +:+ "]".

(** The two [logSignal.emit] of lines 53-55. *)
Definition log_entries (entry : ParsedCommand) (r : ExecutionResult) : list event :=
  Emit (logSignal "Request" (request_message entry) (status_of r))
  :: (if 0 <? length (variables r)
      then [Emit (logSignal "Response" (response_message r) "")]
      else []).

(** The [for] loop of [execute], lines 43-55. [cancelScript i] is the value
    the read of [self.cancelScript] yields at turn [i]; the loop has no
    [break], a turn that finds the flag set does nothing. *)
Fixpoint execute_loop (cancelScript : nat -> bool) (i : nat)
    (commands : list ParsedCommand) (w : World)
    : list event * World * outcome unit :=
  match commands with
  | [] => ([], w, Ok tt)
  | entry :: rest =>
      if cancelScript i then execute_loop cancelScript (S i) rest w
      else
        match ScriptingInterface.call entry w with
        | (Ok r, w') =>
            let '(evs, w'', o) := execute_loop cancelScript (S i) rest w' in
            (Called entry :: log_entries entry r ++ evs, w'', o)
        | (Raise e, w') => ([Called entry], w', Raise e)
        | (OutOfFuel, w') => ([Called entry], w', OutOfFuel)
        end
  end.

(** [execute(commands)]: 'Finished' is emitted when the loop ends, not when
    a command function raises. *)
Definition execute (cancelScript : nat -> bool) (commands : list ParsedCommand)
    (w : World) : list event * World * outcome unit :=
  let '(evs, w', o) := execute_loop cancelScript 0 commands w in
  match o with
  | Ok _ =>
      (Emit (scriptStatus "Running") :: evs ++ [Emit (scriptStatus "Finished")],
       w', o)
  | _ => (Emit (scriptStatus "Running") :: evs, w', o)
  end.

Definition syntax_error_message (errors : list string) : string :=
  foldl (fun msg e => msg +:+ e +:+ PyStr.nl) ("SYNTAX ERRORS:" +:+ PyStr.nl) errors.

(** [run()] on the script and the interface the window handed over. *)
Definition run (nni : iface) (script : string) (cancelScript : nat -> bool)
    (w : World) : list event * World * outcome unit :=
  match ScriptingInterface.parse_commands nni script with
  | Ok (commands, errors) =>
      match errors with
      | _ :: _ =>
          ([Emit (errorMsg (syntax_error_message errors));
            Emit (scriptStatus "Syntax errors")], w, Ok tt)
      | [] =>
          match commands with
          | Some commands => execute cancelScript commands w
          | None => ([Emit (scriptStatus "Running")], w, Raise TypeError)
          end
      end
  | Raise e => ([], w, Raise e)
  | OutOfFuel => ([], w, OutOfFuel)
  end.

End WithDriver.

End runScriptThread.

(** ** The script as a tree (data model of the specification)

    [ScriptNode] and the length of an expansion follow the specification's
    data model: a command node counts for one, a loop node for its count
    times the expanded length of its body. [script_nodes] groups the lines
    of a script into nodes with a stack of open loops; which line opens a
    loop, and with which count, is read as the parser reads it. *)

Module Spec.

Inductive ScriptNode : Type :=
  | CommandNode (name : string) (tokens : list string)
  | LoopNode (count : Z) (body : list ScriptNode).

Fixpoint expanded_length (node : ScriptNode) : nat :=
  match node with
  | CommandNode _ _ => 1
  | LoopNode count body =>
      Z.to_nat count * sum_list (map expanded_length body)
  end.

Definition expanded_length_seq (nodes : list ScriptNode) : nat :=
  sum_list (map expanded_length nodes).

Definition loop_count (line : string) : Z :=
  match PyStr.split line with
  | [_; count_str] =>
      match PyStr.int count_str with Ok count => count | _ => 0%Z end
  | _ => 0%Z
  end.

Definition command_node (line : string) : ScriptNode :=
  match PyStr.split line with
  | name :: tokens => CommandNode name tokens
  | [] => CommandNode "" []
  end.

(** Loops left open when the script ends are closed there. *)
Fixpoint close_all (cur : list ScriptNode)
    (opened : list (Z * list ScriptNode)) : list ScriptNode :=
  match opened with
  | [] => cur
  | (count, outer) :: opened' => close_all (outer ++ [LoopNode count cur]) opened'
  end.

(** [cur] holds the nodes of the block being read, [opened] the count and
    the nodes read so far of every enclosing loop, innermost first. *)
Fixpoint build_nodes (lines : list string) (cur : list ScriptNode)
    (opened : list (Z * list ScriptNode)) : list ScriptNode :=
  match lines with
  | [] => close_all cur opened
  | line :: rest =>
      if String.prefix "loop" line then
        build_nodes rest [] ((loop_count line, cur) :: opened)
      else if String.eqb line "end" then
        match opened with
        | (count, outer) :: opened' =>
            build_nodes rest (outer ++ [LoopNode count cur]) opened'
        | [] => cur
        end
      else build_nodes rest (cur ++ [command_node line]) opened
  end.

Definition script_nodes (lines : list string) : list ScriptNode :=
  build_nodes lines [] [].

(** The number of userSupplied slots before slot [i]: the position, among
    the user tokens, of the token slot [i] consumes. *)
Definition user_rank (specs : list ArgSpec) (i : nat) : nat :=
  length (List.filter arg_user (take i specs)).

(** The command lines a node stands for, in order, as name and user
    tokens: a command line itself; the lines of the body of a loop, count
    times over. *)
Fixpoint flatten (node : ScriptNode) : list (string * list string) :=
  match node with
  | CommandNode name tokens => [(name, tokens)]
  | LoopNode count body =>
      concat (replicate (Z.to_nat count) (flat_map flatten body))
  end.

Definition flatten_seq (nodes : list ScriptNode) : list (string * list string) :=
  flat_map flatten nodes.

(** [node] is one of [nodes] or lies in the body of a loop of [nodes], at
    any depth. *)
Inductive inside (node : ScriptNode) : list ScriptNode -> Prop :=
  | inside_here (nodes : list ScriptNode) :
      node ∈ nodes -> inside node nodes
  | inside_body (count : Z) (body nodes : list ScriptNode) :
      LoopNode count body ∈ nodes -> inside node body -> inside node nodes.

(** Every loop of the node has a count that fits a machine word and an
    expansion of at most [capacity] commands. *)
Fixpoint fits (capacity : Z) (node : ScriptNode) : bool :=
  match node with
  | CommandNode _ _ => true
  | LoopNode count body =>
      (- 2 ^ 63 <=? count)%Z && (count <? 2 ^ 63)%Z
      && (Z.of_nat (sum_list (map expanded_length body)) * count <=? capacity)%Z
      && forallb (fits capacity) body
  end.

(** [entry] is what a line of [lines] with this name and these user tokens
    resolves to. *)
Definition resolves `{Driver} (lines : list string) (entry : ParsedCommand)
    (named : string * list string) : Prop :=
  exists line,
    line ∈ lines /\ PyStr.split line = named.1 :: named.2 /\
    ScriptingInterface.command_entry line = Ok entry.

End Spec.

(** ** What the validator accepts, by nesting depth

    The verdict of [check_line] on a line, with the stack of markers read
    as its length: the new depth, or [None] when the line adds an error. *)

Module Valid.

Definition loop_ok (line : string) : bool :=
  match PyStr.split line with
  | [_; p1] => PyStr.isdigit p1
  | _ => false
  end.

Definition command_ok (line : string) : bool :=
  match PyStr.split line with
  | [] => true
  | cmd_name :: user_values =>
      match FUNCTION_REGISTRY !! cmd_name with
      | None => false
      | Some cmd_info =>
          length user_values =? ScriptingInterface.expected_user_args cmd_info
      end
  end.

Definition line_depth (line : string) (depth : nat) : option nat :=
  if String.prefix "loop" line then
    if loop_ok line then Some (S depth) else None
  else if String.eqb line "end" then
    match depth with O => None | S d => Some d end
  else if command_ok line then Some depth else None.

Fixpoint scan (lines : list string) (depth : nat) : option nat :=
  match lines with
  | [] => Some depth
  | line :: rest =>
      match line_depth line depth with
      | Some d => scan rest d
      | None => None
      end
  end.

(** The largest number of loops open at once while [lines] are read from
    [depth] open loops. *)
Fixpoint nesting (lines : list string) (depth : nat) : nat :=
  match lines with
  | [] => depth
  | line :: rest =>
      Nat.max depth
        (nesting rest
           (if String.prefix "loop" line then S depth
            else if String.eqb line "end" then pred depth
            else depth))
  end.

(** A validated command line of [lines] whose entry raises [e]. *)
Definition failing_entry `{Driver} (lines : list string) (e : exn) : Prop :=
  exists line cmd_name user_values cmd_info,
    line ∈ lines /\ PyStr.split line = cmd_name :: user_values /\
    FUNCTION_REGISTRY !! cmd_name = Some cmd_info /\
    length user_values = ScriptingInterface.expected_user_args cmd_info /\
    ScriptingInterface.command_entry line = Raise e.

(** A validated loop line of [lines] on whose count [int] raises [e]. *)
Definition failing_count (lines : list string) (e : exn) : Prop :=
  exists line t0 t1,
    line ∈ lines /\ String.prefix "loop" line = true /\
    PyStr.split line = [t0; t1] /\ PyStr.isdigit t1 = true /\
    PyStr.int t1 = Raise e.

(** A loop of [nodes] whose expanded body, [block], is refused by
    [block * count] with [e]. *)
Definition failing_repeat `{Driver} (nodes : list Spec.ScriptNode) (e : exn) : Prop :=
  exists count body (block : list ParsedCommand),
    Spec.inside (Spec.LoopNode count body) nodes /\ (0 <= count)%Z /\
    length block = Spec.expanded_length_seq body /\
    ScriptingInterface.list_mul block count = Raise e.

(** Every userSupplied slot of the entry accepts the user token it
    consumes: [str] takes any, a numpy constructor those it accepts. *)
Definition slots_accept `{Driver} (cmd_info : CommandSpec)
    (user_values : list string) : Prop :=
  forall i spec tok,
    args cmd_info !! i = Some spec -> arg_user spec = true ->
    user_values !! Spec.user_rank (args cmd_info) i = Some tok ->
    arg_type spec = str \/ np_accepts (arg_type spec) tok = true.

End Valid.

(** ** The custom functions of the scripting interface (lines 318-375)

    The methods of [ScriptingInterface] that the registry binds, written in
    a state and exception monad over the state of the instrument. A call
    [self.nanonis.Method(args)] is the body the driver gives for the bound
    function [Nanonis.Method]; it raises [AttributeError] while the object
    has no attribute [nanonis]. The casts [np.float32(v)], [np.float64(v)]
    and the sum [v + d] of two numbers are operations of numpy, taken as
    parameters. *)

Module Custom.

Section WithDriver.
Context `{Driver}.
Variable np_cast : sem_type -> value -> value.
Variable py_add : value -> value -> value.

Definition M (A : Type) : Type := World -> outcome A * World.

Definition ret {A : Type} (a : A) : M A := fun w => (Ok a, w).

Definition raise {A : Type} (e : exn) : M A := fun w => (Raise e, w).

Definition bind {A B : Type} (m : M A) (k : A -> M B) : M B := fun w =>
  match m w with
  | (Ok a, w') => k a w'
  | (Raise e, w') => (Raise e, w')
  | (OutOfFuel, w') => (OutOfFuel, w')
  end.

(** [self.nanonis.method(args)] *)
Definition nanonis (self : iface) (method : string) (args : list value)
    : M ExecutionResult := fun w =>
  if has_nanonis self
  then run_body (mkBound ("Nanonis." +:+ method) (Some NanonisInst)) args w
  else (Raise AttributeError, w).

(** [variables[i]] *)
Definition item (variables : list value) (i : nat) : M value :=
  match variables !! i with
  | Some v => ret v
  | None => raise IndexError
  end.

(** [getXY]: the position is asked a second time for [print]. *)
Definition getXY (self : iface) : M ExecutionResult :=
  bind (nanonis self "FolMe_XYPosGet" [VLit (LInt 1)]) (fun r =>
  bind (nanonis self "FolMe_XYPosGet" [VLit (LInt 1)]) (fun _ =>
  bind (item (variables r) 0) (fun x =>
  bind (item (variables r) 1) (fun y =>
  ret (mkResult (errorString r) (response r) [x; y]))))).

Definition getZ (self : iface) : M ExecutionResult :=
  bind (nanonis self "ZCtrl_ZPosGet" []) (fun r =>
  bind (item (variables r) 0) (fun z =>
  ret (mkResult (errorString r) (response r) [z]))).

Definition setXY (self : iface) (x y : value) : M ExecutionResult :=
  nanonis self "FolMe_XYPosSet"
    [np_cast float64 x; np_cast float64 y; VLit (LInt 1)].

Definition setZ (self : iface) (z : value) : M ExecutionResult :=
  nanonis self "ZCtrl_ZPosSet" [np_cast float32 z].

(** [errorString, response, [x, y] = self.getXY()] *)
Definition unpack2 (variables : list value) : M (value * value) :=
  match variables with
  | [x; y] => ret (x, y)
  | _ => raise ValueError
  end.

Definition unpack1 (variables : list value) : M value :=
  match variables with
  | [z] => ret z
  | _ => raise ValueError
  end.

Definition addX (self : iface) (dx : value) : M ExecutionResult :=
  bind (getXY self) (fun r =>
  bind (unpack2 (variables r)) (fun xy =>
  let x := py_add xy.1 dx in
  bind (setXY self x xy.2) (fun _ =>
  ret (mkResult (errorString r) (response r) [x; xy.2])))).

Definition addY (self : iface) (dy : value) : M ExecutionResult :=
  bind (getXY self) (fun r =>
  bind (unpack2 (variables r)) (fun xy =>
  let y := py_add xy.2 dy in
  bind (setXY self xy.1 y) (fun _ =>
  ret (mkResult (errorString r) (response r) [xy.1; y])))).

Definition addZ (self : iface) (dz : value) : M ExecutionResult :=
  bind (getZ self) (fun r =>
  bind (unpack1 (variables r)) (fun z0 =>
  let z := py_add z0 dz in
  bind (setZ self z) (fun _ =>
  ret (mkResult (errorString r) (response r) [z])))).

Definition addBias (self : iface) (dV : value) : M ExecutionResult :=
  bind (nanonis self "Bias_Get" []) (fun r =>
  bind (item (variables r) 0) (fun bias =>
  nanonis self "Bias_Set" [np_cast float32 (py_add bias dV)])).

(** [addCurrent]: the triple of the write is unpacked into [error],
    [response], [variables], and [errorString] is returned. *)
Definition addCurrent (self : iface) (dI : value) : M ExecutionResult :=
  bind (nanonis self "ZCtrl_SetpntGet" []) (fun r =>
  bind (item (variables r) 0) (fun current =>
  bind (nanonis self "ZCtrl_SetpntSet" [np_cast float32 (py_add current dI)])
    (fun written =>
  ret (mkResult (errorString r) (response written) (variables written))))).

End WithDriver.

End Custom.

(** ** The commands a run reaches *)

Module Reached.

(** The commands of the sequence before which the worker reads the flag
    clear, [i] being the number of the first read. *)
Fixpoint not_cancelled (cancelScript : nat -> bool) (i : nat)
    (commands : list ParsedCommand) : list ParsedCommand :=
  match commands with
  | [] => []
  | entry :: rest =>
      if cancelScript i then not_cancelled cancelScript (S i) rest
      else entry :: not_cancelled cancelScript (S i) rest
  end.

(** The stop button before the second command, the run button before the
    third. *)
Definition stop_then_run (i : nat) : list AunisUI.ui_action :=
  if i =? 1 then [AunisUI.StopScript]
  else if i =? 2 then [AunisUI.RunScript] else [].

End Reached.

(** ** The completions of the script editor (AutoComplete.py) *)

Module TextEditAutoComplete.

(** [getCmdList()]: the two keywords, then the keys of the registry in
    the order of the dict literal (no key of which is written twice, lemma
    [registry_keys_distinct]). *)
Definition getCmdList : list string :=
  ["loop"; "end"] ++ map fst registry_entries.

(** [insert_completion(completion)]: the text inserted at the end of the
    word under the cursor, [completion[-extra:]], where [prefix] is the
    completion prefix of the completer. *)
Definition inserted_text (completion prefix : string) : string :=
  let extra :=
    (Z.of_nat (String.length completion) - Z.of_nat (String.length prefix))%Z in
  PyStr.slice_from completion (- extra).

End TextEditAutoComplete.

(** ** A driver to run the model on

    Every token made of digits, signs and dots is accepted by every numpy
    constructor, any other is rejected with [ValueError]; a value prints as
    its token or its literal; every body outside the repository returns the
    empty triple and counts the call; a list holds a million items at
    most and nine hundred calls can nest. *)

Definition demo_accepts (ty : sem_type) (tok : string) : bool :=
  negb (PyStr.is_empty tok)
  && forallb (fun c => PyStr.is_digit c || Ascii.eqb c "." || Ascii.eqb c "-")
       (list_ascii_of_string tok).

Definition demo_str (v : value) : string :=
  match v with
  | VNp _ tok => tok
  | VLit (LInt z) => NilZero.string_of_int (Z.to_int z)
  | VLit (LFloat src) => src
  | VLit (LStr s) => s
  end.

Definition demo_body (f : bound_func) (args : list value) (w : nat)
    : outcome ExecutionResult * nat :=
  if String.eqb (qualname f) "Nanonis.Bias_Get"
  then (Ok (mkResult "" "" [VNp float32 "0.5"]), S w)
  else if String.eqb (qualname f) "Nanonis.Bias_Set"
  then (Ok (mkResult "Bias out of range" "" []), S w)
  else (Ok (mkResult "" "" []), S w).

Definition demo_driver : Driver :=
  {| World := nat; np_accepts := demo_accepts;
     np_error := fun _ _ => ValueError; str_value := demo_str;
     run_body := demo_body; list_capacity := 1000000%N;
     recursion_limit := 900 |}.

Definition demo_iface : iface :=
  ScriptingInterface.connect true ScriptingInterface.init.

(** The commands of the script [bias.Get / bias.Set 2 / wait 1] and what the
    first two return on [demo_driver]. *)
Definition demo_get : ParsedCommand :=
  mkEntry "bias.Get" (mkBound "Nanonis.Bias_Get" (Some NanonisInst)) [].
Definition demo_set : ParsedCommand :=
  mkEntry "bias.Set" (mkBound "Nanonis.Bias_Set" (Some NanonisInst)) [VNp float32 "2"].
Definition demo_wait : ParsedCommand :=
  mkEntry "wait" (mkBound "ScriptingInterface.wait" (Some SelfInst)) [VNp uint32 "1"].
Definition demo_get_result : ExecutionResult := mkResult "" "" [VNp float32 "0.5"].
Definition demo_set_result : ExecutionResult := mkResult "Bias out of range" "" [].

(** A driver whose instrument answers the reads with values and refuses
    the writes with an error text; sums and casts are kept symbolic. *)
Definition stage_body (f : bound_func) (args : list value) (w : nat)
    : outcome ExecutionResult * nat :=
  if String.eqb (qualname f) "Nanonis.FolMe_XYPosGet"
  then (Ok (mkResult "" "" [VNp float64 "1e-9"; VNp float64 "2e-9"]), S w)
  else if String.eqb (qualname f) "Nanonis.ZCtrl_SetpntGet"
  then (Ok (mkResult "" "" [VNp float32 "5e-11"]), S w)
  else if String.eqb (qualname f) "Nanonis.Bias_Get"
  then (Ok (mkResult "" "" [VNp float32 "0.5"]), S w)
  else (Ok (mkResult "Out of range" "refused" []), S w).

Definition stage_driver : Driver :=
  {| World := nat; np_accepts := demo_accepts;
     np_error := fun _ _ => ValueError; str_value := demo_str;
     run_body := stage_body; list_capacity := 1000000%N;
     recursion_limit := 900 |}.

Definition stage_cast (ty : sem_type) (v : value) : value := VNp ty (demo_str v).

Definition stage_add (v d : value) : value :=
  VNp float64 (demo_str v +:+ "+" +:+ demo_str d).

(** A script with a loop inside a loop, a blank line and an indented
    line. *)
Definition demo_nested : string :=
  "loop 2" +:+ PyStr.nl +:+ "wait 1" +:+ PyStr.nl +:+ " loop 3"
  +:+ PyStr.nl +:+ PyStr.nl +:+ "bias.Get" +:+ PyStr.nl +:+ "end"
  +:+ PyStr.nl +:+ "end" +:+ PyStr.nl +:+ "fb.Get".

(** A script with four syntax errors. *)
Definition demo_faulty : string :=
  "loopy" +:+ PyStr.nl +:+ "end" +:+ PyStr.nl +:+ "wait 1 2" +:+ PyStr.nl +:+ "loop 0".

(** A loop line whose count is the superscript digit two, and a script
    made of this loop around one command. *)
Definition demo_superscript : string :=
  "loop " +:+ String "194" (String "178" "").

Definition demo_superscript_script : string :=
  demo_superscript +:+ PyStr.nl +:+ "wait 1" +:+ PyStr.nl +:+ "end".

(** A loop whose count does not fit a machine word. *)
Definition demo_huge : string :=
  "loop 99999999999999999999" +:+ PyStr.nl +:+ "wait 1" +:+ PyStr.nl +:+ "end".


Example demo_parse :
  ScriptingInterface.parse_commands (H := demo_driver) demo_iface
    ("loop 2" +:+ PyStr.nl +:+ "wait 1" +:+ PyStr.nl +:+ "end")
  = Ok (Some [mkEntry "wait" (mkBound "ScriptingInterface.wait" (Some SelfInst)) [VNp uint32 "1"];
              mkEntry "wait" (mkBound "ScriptingInterface.wait" (Some SelfInst)) [VNp uint32 "1"]],
        []).
Proof. vm_compute. reflexivity. Qed.

Example demo_errors :
  ScriptingInterface.check_syntax demo_faulty
  = [ "Line 1: invalid loop syntax → loopy";
      "Line 2: 'end' without matching 'loop' → end";
      "Line 3: wrong number of arguments for 'wait'. Expected 1, got 2 → wait 1 2";
      "Unclosed 'loop' detected" ].
Proof. vm_compute. reflexivity. Qed.

Example demo_huge_overflow :
  ScriptingInterface.check_syntax demo_huge = [] /\
  ScriptingInterface.parse_commands (H := demo_driver) demo_iface demo_huge
  = Raise OverflowError.
Proof. split; vm_compute; reflexivity. Qed.

Example demo_superscript_refused :
  ScriptingInterface.check_syntax demo_superscript_script = [] /\
  ScriptingInterface.parse_commands (H := demo_driver) demo_iface
    demo_superscript_script
  = Raise ValueError.
Proof. split; vm_compute; reflexivity. Qed.

Example demo_nodes :
  Spec.script_nodes ["loop 2"; "wait 1"; "loop 3"; "bias.Get"; "end"; "end"; "fb.Get"]
  = [Spec.LoopNode 2 [Spec.CommandNode "wait" ["1"];
                      Spec.LoopNode 3 [Spec.CommandNode "bias.Get" []]];
     Spec.CommandNode "fb.Get" []].
Proof. vm_compute. reflexivity. Qed.

(** * Properties *)

(** ** Strings *)

Lemma append_cons (c : ascii) (s t : string) :
  String c s +:+ t = String c (s +:+ t).
Proof. reflexivity. Qed.

Lemma append_nil_r (s : string) : s +:+ "" = s.
Proof. induction s as [|c s IH]; [reflexivity|]. rewrite append_cons, IH. reflexivity. Qed.

Lemma append_assoc (s t u : string) : (s +:+ t) +:+ u = s +:+ (t +:+ u).
Proof.
  induction s as [|c s IH]; [reflexivity|].
  rewrite !append_cons, IH. reflexivity.
Qed.

Lemma snoc_append (cur : string) (c : ascii) (s : string) :
  PyStr.snoc cur c +:+ s = cur +:+ String c s.
Proof. unfold PyStr.snoc. rewrite append_assoc. reflexivity. Qed.

Lemma is_empty_true (s : string) : PyStr.is_empty s = true -> s = "".
Proof. destruct s; [reflexivity | discriminate]. Qed.

Lemma is_empty_append (s t : string) :
  PyStr.is_empty (s +:+ t) = PyStr.is_empty s && PyStr.is_empty t.
Proof. destruct s; reflexivity. Qed.

Lemma is_empty_snoc (cur : string) (c : ascii) :
  PyStr.is_empty (PyStr.snoc cur c) = false.
Proof. unfold PyStr.snoc. rewrite is_empty_append. destruct cur; reflexivity. Qed.

Lemma isspace_not_linebreak (c : ascii) :
  PyStr.isspace c = false -> PyStr.is_linebreak c = false.
Proof. destruct c as [[] [] [] [] [] [] [] []]; simpl; congruence. Qed.

Lemma is_digit_not_space (c : ascii) :
  PyStr.is_digit c = true -> PyStr.isspace c = false.
Proof. destruct c as [[] [] [] [] [] [] [] []]; vm_compute; congruence. Qed.

Lemma is_digit_val (c : ascii) :
  PyStr.is_digit c = true -> exists d, PyStr.digit_val c = Some d /\ (0 <= d)%Z.
Proof.
  unfold PyStr.is_digit, PyStr.digit_val.
  destruct (Ascii.is_nat c) as [n|]; [|discriminate].
  intros _. exists (Z.of_nat n). split; [reflexivity | lia].
Qed.

(** A token passes through [split_go] into the current word. *)
Lemma split_go_token (t : string) : forall cur s,
  PyStr.no_space t = true ->
  PyStr.split_go cur (t +:+ s) = PyStr.split_go (cur +:+ t) s.
Proof.
  induction t as [|c t IH]; intros cur s Ht.
  - rewrite append_nil_r. reflexivity.
  - simpl in Ht. apply andb_true_iff in Ht as [Hc Ht].
    apply negb_true_iff in Hc.
    rewrite append_cons. simpl. rewrite Hc.
    rewrite IH by exact Ht. rewrite snoc_append. reflexivity.
Qed.

Lemma split_go_nonempty (s : string) : forall cur,
  PyStr.is_empty cur = false -> PyStr.split_go cur s <> [].
Proof.
  induction s as [|c s IH]; intros cur Hcur; simpl.
  - rewrite Hcur. discriminate.
  - destruct (PyStr.isspace c).
    + rewrite Hcur. discriminate.
    + apply IH, is_empty_snoc.
Qed.

Lemma lstrip_head (s : string) (c : ascii) (r : string) :
  PyStr.lstrip s = String c r -> PyStr.isspace c = false.
Proof.
  induction s as [|d s IH]; simpl; [discriminate|].
  destruct (PyStr.isspace d) eqn:Hd; [exact IH|].
  intros [= <- _]. exact Hd.
Qed.

Lemma rstrip_head (s : string) (c : ascii) (r : string) :
  PyStr.rstrip s = String c r -> exists r', s = String c r'.
Proof.
  destruct s as [|d s]; simpl; [discriminate|].
  destruct (PyStr.is_empty (PyStr.rstrip s) && PyStr.isspace d); [discriminate|].
  intros [= <- _]. eauto.
Qed.

(** A line kept by [script_lines] has a first token. *)
Lemma split_strip_nonempty (line : string) :
  PyStr.is_empty (PyStr.strip line) = false ->
  PyStr.split (PyStr.strip line) <> [].
Proof.
  unfold PyStr.strip. intros Hne.
  destruct (PyStr.rstrip (PyStr.lstrip line)) as [|c r] eqn:Hr; [discriminate|].
  destruct (rstrip_head _ _ _ Hr) as [r' Hl].
  pose proof (lstrip_head _ _ _ Hl) as Hc.
  unfold PyStr.split. simpl. rewrite Hc.
  apply split_go_nonempty, is_empty_snoc.
Qed.

Lemma rstrip_no_space (s : string) : PyStr.no_space s = true -> PyStr.rstrip s = s.
Proof.
  induction s as [|c s IH]; simpl; [reflexivity|].
  intros [Hc Hs]%andb_true_iff. apply negb_true_iff in Hc.
  rewrite Hc, andb_false_r, IH by exact Hs. reflexivity.
Qed.

Lemma lstrip_no_space (s : string) : PyStr.no_space s = true -> PyStr.lstrip s = s.
Proof.
  destruct s as [|c s]; simpl; [reflexivity|].
  intros [Hc _]%andb_true_iff. apply negb_true_iff in Hc. rewrite Hc. reflexivity.
Qed.

Lemma strip_no_space (s : string) : PyStr.no_space s = true -> PyStr.strip s = s.
Proof.
  intros Hs. unfold PyStr.strip. rewrite lstrip_no_space by exact Hs.
  apply rstrip_no_space, Hs.
Qed.

Lemma rstrip_append_token (a t : string) :
  PyStr.is_token t = true -> PyStr.rstrip (a +:+ t) = a +:+ t.
Proof.
  intros [Hne Ht]%andb_true_iff. apply negb_true_iff in Hne.
  induction a as [|c a IH].
  - apply rstrip_no_space, Ht.
  - rewrite append_cons. simpl. rewrite IH.
    rewrite is_empty_append, Hne, andb_false_r. reflexivity.
Qed.

Lemma is_superscript_not_space (c : ascii) :
  PyStr.is_superscript c = true -> PyStr.isspace c = false.
Proof. destruct c as [[] [] [] [] [] [] [] []]; vm_compute; congruence. Qed.

Lemma all_digits_go_no_space (s : string) : forall lead,
  PyStr.all_digits_go lead s = true -> PyStr.no_space s = true.
Proof.
  induction s as [|c s IH]; intros lead; [reflexivity|].
  cbn [PyStr.all_digits_go PyStr.no_space]. destruct lead.
  - intros [Hc Hs]%andb_true_iff.
    rewrite (is_superscript_not_space _ Hc). exact (IH _ Hs).
  - destruct (PyStr.is_digit c) eqn:Hd.
    + intros Hs. rewrite (is_digit_not_space _ Hd). exact (IH _ Hs).
    + intros [Hc Hs]%andb_true_iff. apply Ascii.eqb_eq in Hc. subst c.
      exact (IH _ Hs).
Qed.

Lemma all_decimal_no_space (s : string) :
  PyStr.all_decimal s = true -> PyStr.no_space s = true.
Proof.
  induction s as [|c s IH]; simpl; [reflexivity|].
  intros [Hc Hs]%andb_true_iff.
  rewrite (is_digit_not_space _ Hc), IH by exact Hs. reflexivity.
Qed.

Lemma digit_val_nonneg (c : ascii) (d : Z) :
  PyStr.digit_val c = Some d -> (0 <= d)%Z.
Proof.
  unfold PyStr.digit_val. destruct (Ascii.is_nat c) as [n|]; simpl; [|discriminate].
  intros [= <-]. lia.
Qed.

(** The digits [int] reads give a number that is not negative. *)
Lemma int_body_nonneg (s : string) : forall acc b n,
  PyStr.int_body acc b s = Some n -> (0 <= acc)%Z -> (0 <= n)%Z.
Proof.
  induction s as [|c s IH]; intros acc b n; simpl.
  - destruct b; [intros [= <-]; auto | discriminate].
  - destruct (PyStr.digit_val c) as [d|] eqn:Hd.
    + intros Hn Hacc. apply (IH _ _ _ Hn).
      pose proof (digit_val_nonneg _ _ Hd). lia.
    + destruct (Ascii.eqb c "_" && b); [apply IH | discriminate].
Qed.

Lemma int_body_digits (s : string) : forall acc b,
  PyStr.all_decimal s = true ->
  PyStr.is_empty s = false \/ b = true ->
  exists n, PyStr.int_body acc b s = Some n.
Proof.
  induction s as [|c s IH]; intros acc b Hs Hb; simpl.
  - destruct Hb as [Hb | ->]; [discriminate|]. eauto.
  - simpl in Hs. apply andb_true_iff in Hs as [Hc Hs].
    destruct (is_digit_val _ Hc) as (d & -> & Hd).
    apply IH; [exact Hs | right; reflexivity].
Qed.

Lemma digit_count_decimal (s : string) :
  PyStr.all_decimal s = true -> PyStr.digit_count s = String.length s.
Proof.
  induction s as [|c s IH]; simpl; [reflexivity|].
  intros [Hc Hs]%andb_true_iff. rewrite Hc, IH by exact Hs. reflexivity.
Qed.

(** [int] on a text without white space that starts with no sign. *)
Lemma int_no_sign (c : ascii) (s : string) :
  c <> "-"%char -> c <> "+"%char ->
  PyStr.no_space (String c s) = true ->
  PyStr.int (String c s)
  = match PyStr.int_body 0%Z false (String c s) with
    | Some n =>
        if PyStr.int_max_str_digits <? PyStr.digit_count (String c s)
        then Raise ValueError else Ok n
    | None => Raise ValueError
    end.
Proof.
  intros Hminus Hplus Hs. unfold PyStr.int. rewrite strip_no_space by exact Hs.
  destruct c as [[] [] [] [] [] [] [] []]; try congruence; cbv beta iota zeta;
    (destruct (PyStr.int_body 0%Z false _) as [n|]; [|reflexivity]);
    (destruct (PyStr.int_max_str_digits <? _); [reflexivity|]);
    f_equal; lia.
Qed.


Lemma int_never_out_of_fuel (s : string) : PyStr.int s <> OutOfFuel.
Proof.
  unfold PyStr.int.
  destruct (PyStr.strip s) as [|c b]; [vm_compute; discriminate|].
  destruct c as [[] [] [] [] [] [] [] []]; cbv beta iota zeta;
    match goal with
    | |- context [PyStr.int_body ?a ?f ?x] => destruct (PyStr.int_body a f x)
    end;
    try match goal with
    | |- context [PyStr.int_max_str_digits <? ?x] =>
        destruct (PyStr.int_max_str_digits <? x)
    end; discriminate.
Qed.


Lemma isdigit_head (c : ascii) (s : string) :
  PyStr.isdigit (String c s) = true ->
  c <> "-"%char /\ c <> "+"%char /\ PyStr.no_space (String c s) = true.
Proof.
  unfold PyStr.isdigit, PyStr.all_digits. intros [_ Hs]%andb_true_iff.
  split; [|split; [|exact (all_digits_go_no_space _ _ Hs)]];
    intros ->; vm_compute in Hs; discriminate Hs.
Qed.

Lemma int_isdigit_nonneg (s : string) (n : Z) :
  PyStr.isdigit s = true -> PyStr.int s = Ok n -> (0 <= n)%Z.
Proof.
  intros Hd. destruct s as [|c s]; [discriminate|].
  destruct (isdigit_head _ _ Hd) as (Hminus & Hplus & Hs).
  rewrite (int_no_sign c s Hminus Hplus Hs).
  destruct (PyStr.int_body 0%Z false (String c s)) as [m|] eqn:Hm; [|discriminate].
  destruct (PyStr.int_max_str_digits <? _); [discriminate|].
  intros [= <-]. apply (int_body_nonneg _ _ _ _ Hm). lia.
Qed.

(** [int] reads a string of at most [int_max_str_digits] ASCII digits. *)
Lemma int_decimal (s : string) :
  PyStr.all_decimal s = true -> PyStr.is_empty s = false ->
  String.length s <= PyStr.int_max_str_digits ->
  exists n, PyStr.int s = Ok n.
Proof.
  intros Hs Hne Hlen. destruct s as [|c s]; [discriminate|].
  assert (Hsign : c <> "-"%char /\ c <> "+"%char).
  { simpl in Hs. apply andb_true_iff in Hs as [Hc _].
    split; intros ->; vm_compute in Hc; discriminate Hc. }
  rewrite (int_no_sign c s (proj1 Hsign) (proj2 Hsign) (all_decimal_no_space _ Hs)).
  destruct (int_body_digits (String c s) 0%Z false Hs (or_introl Hne)) as [n ->].
  rewrite (digit_count_decimal _ Hs).
  replace (PyStr.int_max_str_digits <? String.length (String c s)) with false
    by (symmetry; apply Nat.ltb_ge; exact Hlen).
  eauto.
Qed.

Lemma all_decimal_digits (s : string) :
  PyStr.all_decimal s = true -> PyStr.all_digits s = true.
Proof.
  unfold PyStr.all_digits. induction s as [|c s IH]; [reflexivity|].
  cbn [PyStr.all_decimal PyStr.all_digits_go].
  intros [Hc Hs]%andb_true_iff. rewrite Hc. exact (IH Hs).
Qed.

(** ** The validator *)

Import ScriptingInterface.

#[local] Arguments FUNCTION_REGISTRY : simpl never.
#[local] Arguments check_command : simpl never.
#[local] Arguments check_line : simpl never.

Lemma check_command_depth (n : nat) (line : string) (errs stack : list string) :
  if Valid.command_ok line
  then check_command n line (errs, stack) = (errs, stack)
  else exists m, check_command n line (errs, stack) = (errs ++ [m], stack).
Proof.
  unfold Valid.command_ok, check_command.
  destruct (PyStr.split line) as [|cmd_name user_values]; [reflexivity|].
  destruct (FUNCTION_REGISTRY !! cmd_name) as [cmd_info|]; [|eauto].
  destruct (length user_values =? expected_user_args cmd_info); simpl; eauto.
Qed.

(** The verdict by depth is the verdict of [check_line]. *)
Lemma check_line_depth (n : nat) (line : string) (errs stack : list string) :
  match Valid.line_depth line (length stack) with
  | Some d => exists stack',
      check_line n line (errs, stack) = (errs, stack') /\ length stack' = d
  | None => exists m, check_line n line (errs, stack) = (errs ++ [m], stack)
  end.
Proof.
  unfold Valid.line_depth, check_line.
  destruct (String.prefix "loop" line).
  - unfold Valid.loop_ok.
    destruct (PyStr.split line) as [|t0 [|t1 [|t2 ts]]]; eauto.
    destruct (PyStr.isdigit t1); eauto.
    eexists. split; [reflexivity|]. rewrite length_app. simpl. lia.
  - destruct (String.eqb line "end").
    + destruct stack as [|m stack]; cbn [length]; [eauto|].
      eexists. split; [reflexivity|].
      destruct (@exists_last _ (m :: stack)) as (l' & a & Hl); [discriminate|].
      rewrite Hl, removelast_last.
      apply (f_equal length) in Hl. rewrite length_app in Hl. simpl in Hl. lia.
    + pose proof (check_command_depth n line errs stack) as Hc.
      destruct (Valid.command_ok line); eauto.
Qed.

Lemma check_line_grows (n : nat) (line : string) (errs stack : list string) :
  exists more stack', check_line n line (errs, stack) = (errs ++ more, stack').
Proof.
  pose proof (check_line_depth n line errs stack) as Hd.
  destruct (Valid.line_depth line (length stack)).
  - destruct Hd as (stack' & -> & _). exists [], stack'. rewrite app_nil_r. reflexivity.
  - destruct Hd as (m & ->). eauto.
Qed.

(** Errors are only ever appended: what was recorded stays. *)
Lemma check_lines_grows (lines : list string) : forall n errs stack,
  exists more stack', check_lines n lines (errs, stack) = (errs ++ more, stack').
Proof.
  induction lines as [|line rest IH]; intros n errs stack; simpl.
  - exists [], stack. rewrite app_nil_r. reflexivity.
  - destruct (check_line_grows n line errs stack) as (m1 & s1 & ->).
    destruct (IH (S n) (errs ++ m1) s1) as (m2 & s2 & ->).
    exists (m1 ++ m2), s2. rewrite app_assoc. reflexivity.
Qed.

Lemma check_lines_app (l1 : list string) : forall l2 n st,
  check_lines n (l1 ++ l2) st
  = check_lines (n + length l1) l2 (check_lines n l1 st).
Proof.
  induction l1 as [|line l1 IH]; intros l2 n st; simpl.
  - rewrite Nat.add_0_r. reflexivity.
  - rewrite IH. f_equal. lia.
Qed.

(** A scan that adds no error follows [Valid.scan]. *)
Lemma check_lines_clean (lines : list string) : forall n errs stack stack',
  check_lines n lines (errs, stack) = (errs, stack') ->
  Valid.scan lines (length stack) = Some (length stack').
Proof.
  induction lines as [|line rest IH]; intros n errs stack stack'; simpl.
  - intros [= ->]. reflexivity.
  - pose proof (check_line_depth n line errs stack) as Hd.
    destruct (Valid.line_depth line (length stack)) as [d|].
    + destruct Hd as (s1 & -> & <-). apply IH.
    + destruct Hd as (m & ->). intros Hc.
      destruct (check_lines_grows rest (S n) (errs ++ [m]) stack) as (more & s2 & Hg).
      rewrite Hg in Hc. injection Hc as Hc _.
      apply (f_equal length) in Hc. rewrite !length_app in Hc. simpl in Hc. lia.
Qed.

Lemma check_syntax_lines_clean (lines : list string) :
  check_syntax_lines lines = [] -> Valid.scan lines 0 = Some 0.
Proof.
  unfold check_syntax_lines.
  destruct (check_lines 1 lines ([], [])) as [errors stack] eqn:Hc.
  destruct stack as [|m stack].
  - intros ->. apply (check_lines_clean _ _ _ _ _ Hc).
  - intros Hnil. destruct errors; discriminate.
Qed.

Lemma scan_app (l1 : list string) : forall l2 d,
  Valid.scan (l1 ++ l2) d
  = match Valid.scan l1 d with Some d' => Valid.scan l2 d' | None => None end.
Proof.
  induction l1 as [|line l1 IH]; intros l2 d; simpl; [reflexivity|].
  destruct (Valid.line_depth line d); [apply IH | reflexivity].
Qed.


Lemma in_check_syntax_lines (lines : list string) (m : string) :
  m ∈ (check_lines 1 lines ([], [])).1 -> m ∈ check_syntax_lines lines.
Proof.
  unfold check_syntax_lines.
  destruct (check_lines 1 lines ([], [])) as [errors stack]; simpl.
  destruct stack; [auto|]. intros Hm. apply elem_of_app. auto.
Qed.

Lemma check_lines_keeps (lines : list string) (n : nat)
    (st : list string * list string) (m : string) :
  m ∈ st.1 -> m ∈ (check_lines n lines st).1.
Proof.
  destruct st as [errs stack]. simpl.
  destruct (check_lines_grows lines n errs stack) as (more & s' & ->). simpl.
  intros Hm. apply elem_of_app. auto.
Qed.

(** The scan reaches line [i] with the stack the lines before it leave, and
    goes on after it. *)
Lemma check_lines_at (lines : list string) (i : nat) (line : string) :
  lines !! i = Some line ->
  check_lines 1 lines ([], [])
  = check_lines (S (S i)) (drop (S i) lines)
      (check_line (S i) line
         ((check_lines 1 (take i lines) ([], [])).1, open_loops (take i lines))).
Proof.
  intros Hi.
  rewrite <- (take_drop_middle lines i line Hi) at 1.
  rewrite check_lines_app. simpl.
  rewrite length_take_le by (apply Nat.lt_le_incl, (lookup_lt_Some _ _ _ Hi)).
  unfold open_loops. rewrite <- surjective_pairing. reflexivity.
Qed.

(** An error line [i] adds is in the list [check_syntax] returns. *)
Lemma reported (lines : list string) (i : nat) (line m : string) :
  lines !! i = Some line ->
  (forall errs, exists stack',
     check_line (S i) line (errs, open_loops (take i lines)) = (errs ++ [m], stack')) ->
  m ∈ check_syntax_lines lines.
Proof.
  intros Hi Hm. apply in_check_syntax_lines.
  rewrite (check_lines_at lines i line Hi).
  apply check_lines_keeps.
  destruct (Hm (check_lines 1 (take i lines) ([], [])).1) as (stack' & ->). simpl.
  apply elem_of_app. right. apply list_elem_of_singleton. reflexivity.
Qed.

Lemma unclosed_reported (lines : list string) :
  open_loops lines <> [] -> msg_unclosed ∈ check_syntax_lines lines.
Proof.
  unfold open_loops, check_syntax_lines.
  destruct (check_lines 1 lines ([], [])) as [errors stack]; simpl.
  destruct stack; [congruence|]. intros _.
  apply elem_of_app. right. apply list_elem_of_singleton. reflexivity.
Qed.

(** The messages of a command line are not the one of a loop line. *)
Lemma msg_unknown_not_loop (n : nat) (line : string) :
  msg_unknown n line <> msg_invalid_loop n line.
Proof.
  unfold msg_unknown, msg_invalid_loop. intros Heq.
  apply (inj (String.app "Line ")) in Heq.
  apply (inj (String.app (PyStr.str_nat n))) in Heq.
  discriminate Heq.
Qed.

Lemma msg_wrong_args_not_loop (n : nat) (c : string) (e g : nat) (line : string) :
  msg_wrong_args n c e g line <> msg_invalid_loop n line.
Proof.
  unfold msg_wrong_args, msg_invalid_loop. intros Heq.
  apply (inj (String.app "Line ")) in Heq.
  apply (inj (String.app (PyStr.str_nat n))) in Heq.
  discriminate Heq.
Qed.







(** C4, as amended. The validator takes a line for a loop directive
    exactly when the line starts with the four characters [loop]: such a
    line either opens a loop or adds 'invalid loop syntax'; a line that does
    not start with [loop] and is not [end] is checked as a command (registry
    lookup of its first token, count of its user tokens), leaves the stack
    of open loops as it was and adds no 'invalid loop syntax' error. *)
Theorem loop_directive_by_prefix (n : nat) (line : string)
    (errs stack : list string) :
  (String.prefix "loop" line = true ->
     check_line n line (errs, stack) = (errs, stack ++ ["loop"]) \/
     check_line n line (errs, stack) = (errs ++ [msg_invalid_loop n line], stack))
  /\
  (String.prefix "loop" line = false -> line <> "end" ->
     check_line n line (errs, stack) = check_command n line (errs, stack) /\
     (check_line n line (errs, stack)).2 = stack /\
     (msg_invalid_loop n line ∈ (check_line n line (errs, stack)).1 ->
      msg_invalid_loop n line ∈ errs)).
Proof.
  split.
  - intros Hp. unfold check_line. rewrite Hp.
    destruct (PyStr.split line) as [|t0 [|t1 [|t2 ts]]]; auto.
    destruct (PyStr.isdigit t1); auto.
  - intros Hp Hend. apply String.eqb_neq in Hend.
    unfold check_line. rewrite Hp, Hend. split; [reflexivity|].
    unfold check_command.
    destruct (PyStr.split line) as [|cmd_name user_values]; [auto|].
    destruct (FUNCTION_REGISTRY !! cmd_name) as [cmd_info|]; simpl.
    + destruct (negb (length user_values =? expected_user_args cmd_info)); simpl;
        [|auto].
      split; [reflexivity|]. intros [Hin | Hin]%elem_of_app; [exact Hin|].
      apply list_elem_of_singleton in Hin. symmetry in Hin.
      destruct (msg_wrong_args_not_loop _ _ _ _ _ Hin).
    + split; [reflexivity|]. intros [Hin | Hin]%elem_of_app; [exact Hin|].
      apply list_elem_of_singleton in Hin. symmetry in Hin.
      destruct (msg_unknown_not_loop _ _ Hin).
Qed.

Lemma loop_directive_by_prefix_witness :
  check_line 3 "wait 1 2" ([], ["loop"])
  = check_command 3 "wait 1 2" ([], ["loop"]) /\
  (check_line 3 "wait 1 2" ([], ["loop"])).2 = ["loop"] /\
  (msg_invalid_loop 3 "wait 1 2" ∈ (check_line 3 "wait 1 2" ([], ["loop"])).1 ->
   msg_invalid_loop 3 "wait 1 2" ∈ []).
Proof.
  apply (proj2 (loop_directive_by_prefix 3 "wait 1 2" [] ["loop"])).
  - reflexivity.
  - discriminate.
Defined.

(** C4 as stated fails: the first token of [loopy 2] is not [loop], and
    the line is not checked as a command but opens a loop. *)
Lemma first_token_not_loop_opens_loop :
  ~ (forall n line errs stack,
       line <> "end" -> head (PyStr.split line) <> Some "loop" ->
       check_line n line (errs, stack) = check_command n line (errs, stack) /\
       (check_line n line (errs, stack)).2 = stack).
Proof.
  intros Hall.
  destruct (Hall 1 "loopy 2" [] []) as [_ Hstack].
  - discriminate.
  - vm_compute. discriminate.
  - vm_compute in Hstack. discriminate Hstack.
Qed.

(** ** The run of a script with syntax errors *)

Section Blocked.
Context `{Driver}.

Lemma parse_commands_errors (nni : iface) (script : string) :
  check_syntax script <> [] ->
  parse_commands nni script = Ok (None, check_syntax script).
Proof.
  unfold parse_commands. destruct (check_syntax script); [congruence | reflexivity].
Qed.

Lemma run_errors (nni : iface) (script : string) (cancelScript : nat -> bool)
    (w : World) :
  check_syntax script <> [] ->
  runScriptThread.run nni script cancelScript w
  = ([runScriptThread.Emit
        (runScriptThread.errorMsg
           (runScriptThread.syntax_error_message (check_syntax script)));
      runScriptThread.Emit (runScriptThread.scriptStatus "Syntax errors")],
     w, Ok tt).
Proof.
  intros Hne. unfold runScriptThread.run.
  rewrite (parse_commands_errors nni script Hne).
  destruct (check_syntax script); [congruence | reflexivity].
Qed.

(** C5. Validation scans every line and its list holds the error of every
    faulty line, whatever came before: a malformed loop line, an [end] with
    no loop open, an unknown command and a wrong argument count are each
    reported with the number of their line, and a loop left open at the end
    is reported. When the list is not empty, [parse_commands] returns no
    command sequence and the run emits the error message and the status
    'Syntax errors' and calls no command function. *)
Theorem validation_is_exhaustive (nni : iface) (script : string)
    (cancelScript : nat -> bool) (w : World) :
  let lines := script_lines script in
  let errors := check_syntax script in
  (forall i line, lines !! i = Some line ->
     (String.prefix "loop" line = true ->
      (forall t0 t1, PyStr.split line = [t0; t1] -> PyStr.isdigit t1 = false) ->
      msg_invalid_loop (S i) line ∈ errors) /\
     (line = "end" -> open_loops (take i lines) = [] ->
      msg_end_without_loop (S i) line ∈ errors) /\
     (String.prefix "loop" line = false -> line <> "end" ->
      forall cmd_name user_values,
        PyStr.split line = cmd_name :: user_values ->
        (FUNCTION_REGISTRY !! cmd_name = None ->
         msg_unknown (S i) line ∈ errors) /\
        (forall cmd_info,
           FUNCTION_REGISTRY !! cmd_name = Some cmd_info ->
           length user_values <> expected_user_args cmd_info ->
           msg_wrong_args (S i) cmd_name (expected_user_args cmd_info)
             (length user_values) line ∈ errors)))
  /\ (open_loops lines <> [] -> msg_unclosed ∈ errors)
  /\ (errors <> [] ->
      parse_commands nni script = Ok (None, errors) /\
      runScriptThread.run nni script cancelScript w
      = ([runScriptThread.Emit
            (runScriptThread.errorMsg (runScriptThread.syntax_error_message errors));
          runScriptThread.Emit (runScriptThread.scriptStatus "Syntax errors")],
         w, Ok tt) /\
      (forall entry,
         runScriptThread.Called entry ∉ (runScriptThread.run nni script cancelScript w).1.1) /\
      (ScriptingInterface.execute nni script w).2 = w).
Proof.
  intros lines errors. split; [|split].
  - intros i line Hi. split; [|split].
    + intros Hp Hbad. apply (reported lines i line _ Hi).
      intros errs. eexists. unfold check_line. rewrite Hp.
      destruct (PyStr.split line) as [|t0 [|t1 [|t2 ts]]]; try reflexivity.
      rewrite (Hbad t0 t1 eq_refl). reflexivity.
    + intros -> Hopen. apply (reported lines i "end" _ Hi).
      intros errs. eexists. rewrite Hopen. reflexivity.
    + intros Hp Hend cmd_name user_values Hsplit.
      apply String.eqb_neq in Hend. split.
      * intros Hnone. apply (reported lines i line _ Hi).
        intros errs. eexists. unfold check_line, check_command.
        rewrite Hp, Hend, Hsplit, Hnone. reflexivity.
      * intros cmd_info Hsome Hcount. apply (reported lines i line _ Hi).
        intros errs. eexists. unfold check_line, check_command.
        rewrite Hp, Hend, Hsplit, Hsome.
        apply Nat.eqb_neq in Hcount. rewrite Hcount. reflexivity.
  - apply unclosed_reported.
  - intros Hne. split; [exact (parse_commands_errors nni script Hne)|].
    split; [exact (run_errors nni script cancelScript w Hne)|]. split.
    + intros entry. rewrite (run_errors nni script cancelScript w Hne). simpl.
      intros Hin. apply elem_of_cons in Hin as [Hin | Hin]; [discriminate|].
      apply list_elem_of_singleton in Hin. discriminate.
    + unfold ScriptingInterface.execute.
      rewrite (parse_commands_errors nni script Hne). reflexivity.
Qed.

End Blocked.

(** ** Resolving the arguments of a command line *)

Lemma registry_lookup_entry (name : string) (info : CommandSpec) :
  FUNCTION_REGISTRY !! name = Some info -> (name, info) ∈ registry_entries.
Proof. apply elem_of_list_to_map_2. Qed.

(** Every function of the registry binds: its class, when it has one, is a
    key of INSTANCE_MAP. *)
Lemma registry_binds (name : string) (info : CommandSpec) :
  FUNCTION_REGISTRY !! name = Some info ->
  exists f, bind_func (func info) = Ok f.
Proof.
  intros Hl. apply registry_lookup_entry in Hl.
  assert (Hall : Forall (fun kv : string * CommandSpec =>
                           exists f, bind_func (func kv.2) = Ok f) registry_entries).
  { unfold registry_entries.
    repeat (apply Forall_cons; split; [eexists; vm_compute; reflexivity|]).
    apply Forall_nil_2. }
  rewrite Forall_forall in Hall. exact (Hall _ Hl).
Qed.

Section Resolve.
Context `{Driver}.

Lemma user_rank_cons (spec : ArgSpec) (specs : list ArgSpec) (i : nat) :
  Spec.user_rank (spec :: specs) (S i)
  = (if arg_user spec then 1 else 0) + Spec.user_rank specs i.
Proof. unfold Spec.user_rank. simpl. destruct (arg_user spec); reflexivity. Qed.

(** What a constructor returns is the object it makes of the token. *)
Lemma convert_ok (ty : sem_type) (tok : string) (v : value) :
  convert ty tok = Ok v ->
  v = match ty with str => VLit (LStr tok) | _ => VNp ty tok end /\
  (ty = str \/ np_accepts ty tok = true).
Proof.
  unfold convert. destruct ty;
    try (destruct (np_accepts _ tok) eqn:Ha; [|discriminate]);
    intros [= <-]; auto.
Qed.

Lemma convert_accepts (ty : sem_type) (tok : string) :
  ty = str \/ np_accepts ty tok = true -> exists v, convert ty tok = Ok v.
Proof.
  unfold convert. intros [-> | Ha]; [eauto|].
  destruct ty; rewrite ?Ha; eauto.
Qed.

(** The arguments are resolved as soon as each userSupplied slot accepts
    the token it consumes. *)
Lemma resolve_args_accepts (specs : list ArgSpec) : forall user_values idx acc,
  idx + length (List.filter arg_user specs) <= length user_values ->
  (forall i spec tok,
     specs !! i = Some spec -> arg_user spec = true ->
     user_values !! (idx + Spec.user_rank specs i) = Some tok ->
     arg_type spec = str \/ np_accepts (arg_type spec) tok = true) ->
  exists res, resolve_args specs user_values idx acc = Ok res.
Proof.
  induction specs as [|spec specs IH]; intros user_values idx acc Hlen Hacc.
  - simpl. eauto.
  - simpl in Hlen. simpl. destruct (arg_user spec) eqn:Hu.
    + simpl in Hlen.
      destruct (lookup_lt_is_Some_2 user_values idx) as [tok Htok]; [lia|].
      rewrite Htok.
      destruct (convert_accepts (arg_type spec) tok) as [v Hv].
      { apply (Hacc 0 spec tok eq_refl Hu).
        unfold Spec.user_rank. simpl. rewrite Nat.add_0_r. exact Htok. }
      rewrite Hv. simpl. apply IH; [lia|].
      intros i spec' tok' Hi Hu' Ht. apply (Hacc (S i) spec' tok' Hi Hu').
      rewrite user_rank_cons, Hu.
      replace (idx + (1 + Spec.user_rank specs i))
        with (S idx + Spec.user_rank specs i) by lia.
      exact Ht.
    + apply IH; [exact Hlen|].
      intros i spec' tok' Hi Hu' Ht. apply (Hacc (S i) spec' tok' Hi Hu').
      rewrite user_rank_cons, Hu. exact Ht.
Qed.

(** A validated command line yields an entry as soon as its slots accept
    their tokens. *)
Lemma command_entry_accepts (line cmd_name : string)
    (user_values : list string) (cmd_info : CommandSpec) :
  PyStr.split line = cmd_name :: user_values ->
  FUNCTION_REGISTRY !! cmd_name = Some cmd_info ->
  length user_values = expected_user_args cmd_info ->
  Valid.slots_accept cmd_info user_values ->
  exists entry, command_entry line = Ok entry.
Proof.
  intros Hsplit Hreg Hcount Hacc.
  destruct (resolve_args_accepts (args cmd_info) user_values 0 [])
    as (vs & Hr); [unfold expected_user_args in Hcount; lia | exact Hacc |].
  destruct (registry_binds _ _ Hreg) as [f Hf].
  exists (mkEntry cmd_name f vs).
  unfold command_entry. rewrite Hsplit, Hreg, Hr, Hf. reflexivity.
Qed.

(** An entry that is returned has its arguments resolved slot by slot. *)
Lemma resolve_args_ok (specs : list ArgSpec) : forall user_values idx acc res,
  resolve_args specs user_values idx acc = Ok res ->
  exists vs,
    res = acc ++ vs /\ length vs = length specs /\
    forall i spec, specs !! i = Some spec ->
      if arg_user spec then
        exists tok,
          user_values !! (idx + Spec.user_rank specs i) = Some tok /\
          vs !! i = Some (match arg_type spec with
                          | str => VLit (LStr tok)
                          | _ => VNp (arg_type spec) tok
                          end) /\
          (arg_type spec = str \/ np_accepts (arg_type spec) tok = true)
      else vs !! i = Some (VLit (arg_default spec)).
Proof.
  induction specs as [|spec specs IH]; intros user_values idx acc res; simpl.
  - intros [= <-]. exists []. rewrite app_nil_r. repeat split.
    intros i spec Hi. discriminate.
  - destruct (arg_user spec) eqn:Hu.
    + destruct (user_values !! idx) as [tok|] eqn:Htok; [|discriminate].
      destruct (convert (arg_type spec) tok) as [v| |] eqn:Hv; simpl;
        try discriminate.
      destruct (convert_ok _ _ _ Hv) as [-> Hacc].
      intros Hres. destruct (IH _ _ _ _ Hres) as (vs & -> & Hl & Hi).
      eexists (_ :: vs). rewrite <- app_assoc. simpl.
      split; [reflexivity|]. split; [lia|].
      intros [|i] spec' Hs; simpl in Hs.
      * injection Hs as <-. rewrite Hu. exists tok.
        unfold Spec.user_rank. simpl. rewrite Nat.add_0_r.
        split; [exact Htok|]. split; [reflexivity | exact Hacc].
      * specialize (Hi i spec' Hs). rewrite user_rank_cons, Hu.
        destruct (arg_user spec'); [|exact Hi].
        destruct Hi as (tok' & Ht & Hv' & Ha').
        exists tok'. replace (idx + (1 + Spec.user_rank specs i))
          with (S idx + Spec.user_rank specs i) by lia. auto.
    + intros Hres. destruct (IH _ _ _ _ Hres) as (vs & -> & Hl & Hi).
      exists (VLit (arg_default spec) :: vs). rewrite <- app_assoc. simpl.
      split; [reflexivity|]. split; [lia|].
      intros [|i] spec' Hs; simpl in Hs.
      * injection Hs as <-. rewrite Hu. reflexivity.
      * specialize (Hi i spec' Hs). rewrite user_rank_cons, Hu. exact Hi.
Qed.

(** C9. On a validated command line (a registered name, as many user
    tokens as the entry has userSupplied slots) the arguments of the entry
    are resolved slot by slot in declared order: a userSupplied slot holds
    the object that the constructor of its own type makes of the user token
    whose position is the number of userSupplied slots before it (the token
    itself for [str], the numpy scalar of that type and token otherwise, the
    constructor having accepted the token); every other slot holds its
    declared default, never a user token. The entry is returned as soon as
    each userSupplied slot accepts the token it consumes. *)
Theorem arguments_resolved_in_order (line cmd_name : string)
    (user_values : list string) (cmd_info : CommandSpec) :
  PyStr.split line = cmd_name :: user_values ->
  FUNCTION_REGISTRY !! cmd_name = Some cmd_info ->
  length user_values = expected_user_args cmd_info ->
  (forall entry,
     command_entry line = Ok entry ->
     cmd entry = cmd_name /\
     length (pc_args entry) = length (args cmd_info) /\
     forall i spec, args cmd_info !! i = Some spec ->
       if arg_user spec then
         exists tok,
           user_values !! Spec.user_rank (args cmd_info) i = Some tok /\
           pc_args entry !! i = Some (match arg_type spec with
                                      | str => VLit (LStr tok)
                                      | _ => VNp (arg_type spec) tok
                                      end) /\
           (arg_type spec = str \/ np_accepts (arg_type spec) tok = true)
       else pc_args entry !! i = Some (VLit (arg_default spec)))
  /\
  ((forall i spec tok,
      args cmd_info !! i = Some spec -> arg_user spec = true ->
      user_values !! Spec.user_rank (args cmd_info) i = Some tok ->
      arg_type spec = str \/ np_accepts (arg_type spec) tok = true) ->
   exists entry, command_entry line = Ok entry).
Proof.
  intros Hsplit Hreg Hcount. split.
  - intros entry. unfold command_entry. rewrite Hsplit, Hreg.
    destruct (resolve_args (args cmd_info) user_values 0 []) as [res| |] eqn:Hres;
      simpl; try discriminate.
    destruct (bind_func (func cmd_info)) as [f| |]; simpl; try discriminate.
    intros [= <-]. simpl.
    destruct (resolve_args_ok _ _ _ _ _ Hres) as (vs & -> & Hl & Hi).
    repeat split; [exact Hl | exact Hi].
  - intros Hacc.
    exact (command_entry_accepts line cmd_name user_values cmd_info
             Hsplit Hreg Hcount Hacc).
Qed.

End Resolve.

(** ** Loop expansion *)

Lemma script_lines_nonblank (script line : string) :
  line ∈ script_lines script -> PyStr.split line <> [].
Proof.
  unfold script_lines. intros Hin.
  apply list_elem_of_In, in_map_iff in Hin as (l & <- & Hl).
  apply filter_In in Hl as [_ Hl]. apply negb_true_iff in Hl.
  apply split_strip_nonempty, Hl.
Qed.

(** *** The nodes of a script *)

Lemma inside_mono (node : Spec.ScriptNode) (a b : list Spec.ScriptNode) :
  Spec.inside node a -> (forall x, x ∈ a -> x ∈ b) -> Spec.inside node b.
Proof.
  intros [nodes Hin | count body nodes Hin Hbody] Hsub.
  - apply Spec.inside_here, Hsub, Hin.
  - apply (Spec.inside_body node count body); [apply Hsub, Hin | exact Hbody].
Qed.

(** A node read so far, in the block being read or in an enclosing loop,
    is a node of the tree whatever lines follow. *)
Lemma close_all_keeps (node : Spec.ScriptNode) :
  forall opened cur,
    Spec.inside node cur \/
    (exists c outer, (c, outer) ∈ opened /\ Spec.inside node outer) ->
    Spec.inside node (Spec.close_all cur opened).
Proof.
  induction opened as [|[c outer] opened IH]; intros cur Hk; simpl.
  - destruct Hk as [Hk | (c & outer & Hin & _)]; [exact Hk|].
    apply elem_of_nil in Hin. destruct Hin.
  - apply IH. destruct Hk as [Hk | (c' & outer' & Hin & Hk)].
    + left. apply (Spec.inside_body node c cur); [|exact Hk].
      apply elem_of_app. right. apply list_elem_of_singleton. reflexivity.
    + apply elem_of_cons in Hin as [Heq | Hin].
      * injection Heq as -> ->. left. apply (inside_mono _ _ _ Hk).
        intros x Hx. apply elem_of_app. left. exact Hx.
      * right. eauto.
Qed.

Lemma build_nodes_keeps (node : Spec.ScriptNode) :
  forall lines cur opened,
    Spec.inside node cur \/
    (exists c outer, (c, outer) ∈ opened /\ Spec.inside node outer) ->
    Spec.inside node (Spec.build_nodes lines cur opened).
Proof.
  induction lines as [|line rest IH]; intros cur opened Hk; simpl.
  - apply close_all_keeps, Hk.
  - destruct (String.prefix "loop" line).
    + apply IH. right. destruct Hk as [Hk | (c & outer & Hin & Hk)].
      * exists (Spec.loop_count line), cur. split; [apply list_elem_of_here | exact Hk].
      * exists c, outer. split; [apply list_elem_of_further, Hin | exact Hk].
    + destruct (String.eqb line "end").
      * destruct opened as [|[c outer] opened'].
        -- destruct Hk as [Hk | (c & outer & Hin & _)]; [exact Hk|].
           apply elem_of_nil in Hin. destruct Hin.
        -- apply IH. destruct Hk as [Hk | (c' & outer' & Hin & Hk)].
           ++ left. apply (Spec.inside_body node c cur); [|exact Hk].
              apply elem_of_app. right. apply list_elem_of_singleton. reflexivity.
           ++ apply elem_of_cons in Hin as [Heq | Hin].
              ** injection Heq as -> ->. left. apply (inside_mono _ _ _ Hk).
                 intros x Hx. apply elem_of_app. left. exact Hx.
              ** right. eauto.
      * apply IH. destruct Hk as [Hk | Hk]; [left | right; exact Hk].
        apply (inside_mono _ _ _ Hk).
        intros x Hx. apply elem_of_app. left. exact Hx.
Qed.

(** A loop of a tree that fits has a count that fits a machine word and an
    expansion within the capacity. *)
Lemma fits_inside (capacity : Z) (node : Spec.ScriptNode)
    (nodes : list Spec.ScriptNode) :
  Spec.inside node nodes ->
  forallb (Spec.fits capacity) nodes = true -> Spec.fits capacity node = true.
Proof.
  induction 1 as [nodes Hin | count body nodes Hin Hbody IH]; intros Hall;
    rewrite forallb_forall in Hall.
  - apply Hall, list_elem_of_In, Hin.
  - apply IH. apply list_elem_of_In in Hin. specialize (Hall _ Hin).
    cbn [Spec.fits] in Hall. apply andb_true_iff in Hall as [_ Hall]. exact Hall.
Qed.

Section Expansion.
Context `{Driver}.

(** *** [block * count] *)

Lemma list_mul_ok {A : Type} (block : list A) (count : Z) (l : list A) :
  list_mul block count = Ok l -> l = concat (replicate (Z.to_nat count) block).
Proof.
  unfold list_mul.
  destruct ((count <? - 2 ^ 63)%Z || (2 ^ 63 <=? count)%Z); [discriminate|].
  destruct (max_list_len <? Z.of_nat (length block) * count)%Z;
    [discriminate|].
  intros [= <-]. reflexivity.
Qed.

Lemma list_mul_never_out_of_fuel {A : Type} (block : list A) (count : Z) :
  list_mul block count <> OutOfFuel.
Proof.
  unfold list_mul.
  destruct ((count <? - 2 ^ 63)%Z || (2 ^ 63 <=? count)%Z); [discriminate|].
  destruct (max_list_len <? Z.of_nat (length block) * count)%Z;
    discriminate.
Qed.


Lemma list_mul_fits {A : Type} (block : list A) (count : Z) :
  (- 2 ^ 63 <= count < 2 ^ 63)%Z ->
  (Z.of_nat (length block) * count <= max_list_len)%Z ->
  list_mul block count = Ok (concat (replicate (Z.to_nat count) block)).
Proof.
  intros Hw Hm. unfold list_mul.
  replace ((count <? - 2 ^ 63)%Z || (2 ^ 63 <=? count)%Z) with false
    by (symmetry; apply orb_false_iff; split; lia).
  replace (max_list_len <? Z.of_nat (length block) * count)%Z with false
    by (symmetry; lia).
  reflexivity.
Qed.

Lemma length_repeated {A : Type} (block : list A) (n : nat) :
  length (concat (replicate n block)) = n * length block.
Proof.
  induction n as [|n IH]; simpl; [reflexivity|].
  rewrite length_app, IH. reflexivity.
Qed.

(** *** The loop of [_parse_block] *)

Lemma parse_block_loop_S (fuel : nat) (lines : list string) (index : nat)
    (result : list ParsedCommand) (depth : nat) :
  _parse_block_loop (S fuel) lines index result depth
  = match lines !! index with
    | None => Ok (result, index)
    | Some line =>
        if String.prefix "loop" line then
          match PyStr.split line with
          | [_; count_str] =>
              count ← PyStr.int count_str;
              '(block, index') ←
                (if recursion_limit <=? depth then Raise RecursionError
                 else _parse_block_loop fuel lines (index + 1) [] (S depth));
              repeated ← list_mul block count;
              _parse_block_loop fuel lines index' (result ++ repeated) depth
          | _ => Raise ValueError
          end
        else if String.eqb line "end" then Ok (result, index + 1)
        else
          entry ← command_entry line;
          _parse_block_loop fuel lines (index + 1) (result ++ [entry]) depth
    end.
Proof. reflexivity. Qed.

Lemma returns_never_out_of_fuel_args (specs : list ArgSpec) :
  forall user_values idx acc, resolve_args specs user_values idx acc <> OutOfFuel.
Proof.
  induction specs as [|spec specs IH]; intros user_values idx acc; simpl;
    [discriminate|].
  destruct (arg_user spec); [|apply IH].
  destruct (user_values !! idx) as [tok|]; [|discriminate].
  unfold convert.
  destruct (arg_type spec); simpl; try apply IH;
    (destruct (np_accepts _ tok); simpl; [apply IH | discriminate]).
Qed.

Lemma command_entry_never_out_of_fuel (line : string) :
  command_entry line <> OutOfFuel.
Proof.
  unfold command_entry.
  destruct (PyStr.split line) as [|cmd_name user_values]; [discriminate|].
  destruct (FUNCTION_REGISTRY !! cmd_name) as [cmd_info|]; [|discriminate].
  pose proof (returns_never_out_of_fuel_args (args cmd_info) user_values 0 []) as Hr.
  destruct (resolve_args (args cmd_info) user_values 0 []); simpl;
    [|discriminate|congruence].
  unfold bind_func. destruct (PyStr.contains "." (func cmd_info)); [|discriminate].
  destruct (PyStr.split_on "." (func cmd_info)) as [|cls_name ?]; [discriminate|].
  destruct (INSTANCE_MAP !! cls_name); discriminate.
Qed.

Lemma nesting_cons (line : string) (rest : list string) (d : nat) :
  Valid.nesting (line :: rest) d
  = Nat.max d
      (Valid.nesting rest
         (if String.prefix "loop" line then S d
          else if String.eqb line "end" then pred d
          else d)).
Proof. reflexivity. Qed.

Lemma nesting_ge (lines : list string) (d : nat) : d <= Valid.nesting lines d.
Proof. destruct lines; simpl; lia. Qed.

(** On lines the validator accepts from depth [d] down to depth zero, the
    loop of [_parse_block] started at [index] in a call nested [d] deep
    returns, or raises for one of four reasons: the entry of a validated
    command line raises, [int] raises on the count of a validated loop line,
    [block * count] raises for a loop of the script, or the loops nest
    deeper than the calls can. When it returns: at depth zero it has read
    all the lines, inside a loop it stops after the [end] that closes it;
    the commands it adds are as many as the expanded length of the nodes
    [build_nodes] makes of the lines it read. *)
Lemma parse_block_valid (fuel : nat) : forall lines index result d,
  length lines - index < fuel ->
  (forall line, line ∈ lines -> PyStr.split line <> []) ->
  Valid.scan (drop index lines) d = Some 0 ->
  (exists e,
     _parse_block_loop fuel lines index result d = Raise e /\
     (Valid.failing_entry lines e \/ Valid.failing_count lines e \/
      (exists count body (block : list ParsedCommand),
        (forall cur opened,
           Spec.inside (Spec.LoopNode count body)
             (Spec.build_nodes (drop index lines) cur opened)) /\
        (0 <= count)%Z /\
        length block = Spec.expanded_length_seq body /\
        list_mul block count = Raise e) \/
      (e = RecursionError /\
       recursion_limit < Valid.nesting (drop index lines) d)))
  \/
  (exists block index' T,
    _parse_block_loop fuel lines index result d = Ok (result ++ block, index') /\
    length block = Spec.expanded_length_seq T /\
    match d with
    | O => length lines <= index' /\
           forall cur, Spec.build_nodes (drop index lines) cur [] = cur ++ T
    | S d' =>
        index < index' /\ Valid.scan (drop index' lines) d' = Some 0 /\
        Valid.nesting (drop index' lines) d'
        <= Valid.nesting (drop index lines) (S d') /\
        forall cur c outer opened,
          Spec.build_nodes (drop index lines) cur ((c, outer) :: opened)
          = Spec.build_nodes (drop index' lines)
              (outer ++ [Spec.LoopNode c (cur ++ T)]) opened
    end).
Proof.
  induction fuel as [|fuel IH]; intros lines index result d Hfuel Hnb Hscan;
    [lia|].
  rewrite parse_block_loop_S.
  destruct (lines !! index) as [line|] eqn:Hi.
  2:{ apply lookup_ge_None in Hi. rewrite drop_ge in Hscan by exact Hi.
      injection Hscan as ->. right. exists [], index, []. rewrite app_nil_r.
      split; [reflexivity|]. split; [reflexivity|]. split; [exact Hi|].
      intros cur. rewrite drop_ge by exact Hi. simpl. rewrite app_nil_r. reflexivity. }
  pose proof (lookup_lt_Some _ _ _ Hi) as Hlt.
  pose proof (list_elem_of_lookup_2 _ _ _ Hi) as Hin.
  rewrite (drop_S _ _ _ Hi) in Hscan |- *. simpl in Hscan.
  destruct (Valid.line_depth line d) as [d1|] eqn:Hd; [|discriminate].
  unfold Valid.line_depth in Hd. simpl Spec.build_nodes.
  replace (index + 1) with (S index) by lia.
  pose proof (nesting_ge (drop (S index) lines)) as Hge.
  destruct (String.prefix "loop" line) eqn:Hp.
  - (* a loop line *)
    destruct (Valid.loop_ok line) eqn:Hok; [|discriminate]. injection Hd as <-.
    unfold Valid.loop_ok in Hok.
    destruct (PyStr.split line) as [|t0 [|t1 [|t2 ts]]] eqn:Hsplit; try discriminate.
    pose proof (int_never_out_of_fuel t1) as Hnf.
    destruct (PyStr.int t1) as [count|e|] eqn:Hint; [| |congruence].
    2:{ left. exists e. split; [reflexivity|]. right. left.
        exists line, t0, t1. auto. }
    assert (Hlc : Spec.loop_count line = count).
    { unfold Spec.loop_count. rewrite Hsplit, Hint. reflexivity. }
    rewrite Hlc. cbn [mbind outcome_bind].
    destruct (recursion_limit <=? d) eqn:Hrec.
    { left. exists RecursionError. split; [reflexivity|]. right. right. right.
      split; [reflexivity|]. rewrite nesting_cons, Hp.
      apply Nat.leb_le in Hrec. specialize (Hge (S d)). lia. }
    destruct (IH lines (S index) [] (S d))
      as [(e & Hr1 & Hf1)
         | (block1 & index1 & T1 & Hr1 & Hl1 & Hlt1 & Hs1 & Hn1 & Hb1)];
      [lia | exact Hnb | exact Hscan | |].
    { left. exists e. rewrite Hr1. split; [reflexivity|].
      destruct Hf1 as [Hf1 | [Hf1 | [(c & body & block & Hins & Hrest) | (-> & Hdeep)]]];
        auto.
      - right. right. left. exists c, body, block. split; [|exact Hrest].
        intros cur opened. apply Hins.
      - right. right. right. split; [reflexivity|]. rewrite nesting_cons, Hp. lia. }
    rewrite Hr1. cbn [mbind outcome_bind app].
    pose proof (list_mul_never_out_of_fuel block1 count) as Hmf.
    destruct (list_mul block1 count) as [repeated|e|] eqn:Hmul; [| |congruence].
    2:{ left. exists e. split; [reflexivity|]. right. right. left.
        exists count, T1, block1. split; [|split; [|auto]].
        2:{ apply (int_isdigit_nonneg t1 count Hok Hint). }
        intros cur opened. rewrite Hb1. apply build_nodes_keeps. left.
        apply Spec.inside_here, elem_of_app. right.
        apply list_elem_of_singleton. reflexivity. }
    cbn [mbind outcome_bind].
    apply list_mul_ok in Hmul. subst repeated.
    destruct (IH lines index1 (result ++ concat (replicate (Z.to_nat count) block1)) d)
      as [(e & Hr2 & Hf2) | (block2 & index2 & T2 & Hr2 & Hl2 & Hrest)];
      [lia | exact Hnb | exact Hs1 | |].
    { left. exists e. rewrite Hr2. split; [reflexivity|].
      destruct Hf2 as [Hf2 | [Hf2 | [(c & body & block & Hins & Hrest) | (-> & Hdeep)]]];
        auto.
      - right. right. left. exists c, body, block. split; [|exact Hrest].
        intros cur opened. rewrite Hb1. apply Hins.
      - right. right. right. split; [reflexivity|]. rewrite nesting_cons, Hp. lia. }
    right.
    exists (concat (replicate (Z.to_nat count) block1) ++ block2), index2,
      (Spec.LoopNode count T1 :: T2).
    rewrite Hr2, <- app_assoc. split; [reflexivity|]. split.
    { rewrite length_app, length_repeated, Hl1, Hl2. reflexivity. }
    destruct d as [|d'].
    + destruct Hrest as [Hend Hb2]. split; [exact Hend|].
      intros cur. rewrite Hb1, Hb2. simpl. rewrite <- app_assoc. reflexivity.
    + destruct Hrest as (Hlt2 & Hs2 & Hn2 & Hb2). split; [lia|]. split; [exact Hs2|].
      split; [rewrite nesting_cons, Hp; lia|].
      intros cur c outer opened. rewrite Hb1, Hb2. simpl.
      rewrite <- app_assoc. reflexivity.
  - destruct (String.eqb line "end") eqn:He.
    + (* the end of a loop *)
      destruct d as [|d']; [discriminate|]. injection Hd as <-.
      right. exists [], (S index), []. rewrite app_nil_r.
      split; [reflexivity|]. split; [reflexivity|].
      split; [lia|]. split; [exact Hscan|].
      split; [rewrite nesting_cons, Hp, He; simpl; lia|].
      intros cur c outer opened. rewrite app_nil_r. reflexivity.
    + (* a command line *)
      destruct (Valid.command_ok line) eqn:Hok; [|discriminate]. injection Hd as <-.
      unfold Valid.command_ok in Hok.
      destruct (PyStr.split line) as [|cmd_name user_values] eqn:Hsplit;
        [destruct (Hnb line Hin Hsplit)|].
      destruct (FUNCTION_REGISTRY !! cmd_name) as [cmd_info|] eqn:Hreg; [|discriminate].
      apply Nat.eqb_eq in Hok.
      pose proof (command_entry_never_out_of_fuel line) as Hnf.
      destruct (command_entry line) as [entry|e|] eqn:He'; [| |congruence].
      2:{ left. exists e. split; [reflexivity|]. left.
          exists line, cmd_name, user_values, cmd_info. auto. }
      cbn [mbind outcome_bind].
      destruct (IH lines (S index) (result ++ [entry]) d)
        as [(e & Hr & Hf) | (block & index' & T & Hr & Hl & Hrest)];
        [lia | exact Hnb | exact Hscan | |].
      { left. exists e. rewrite Hr. split; [reflexivity|].
        destruct Hf as [Hf | [Hf | [(c & body & block & Hins & Hrest) | (-> & Hdeep)]]];
          auto.
        - right. right. left. exists c, body, block. split; [|exact Hrest].
          intros cur opened. apply Hins.
        - right. right. right. split; [reflexivity|].
          rewrite nesting_cons, Hp, He. lia. }
      right. exists (entry :: block), index', (Spec.command_node line :: T).
      rewrite Hr, <- app_assoc. split; [reflexivity|]. split.
      { unfold Spec.command_node. rewrite Hsplit. simpl.
        rewrite Hl. reflexivity. }
      destruct d as [|d'].
      * destruct Hrest as [Hend Hb]. split; [exact Hend|].
        intros cur. rewrite Hb, <- app_assoc. reflexivity.
      * destruct Hrest as (Hlt' & Hs & Hn & Hb). split; [lia|]. split; [exact Hs|].
        split; [rewrite nesting_cons, Hp, He; lia|].
        intros cur c outer opened. rewrite Hb, <- app_assoc. reflexivity.
Qed.

(** The loop of [_parse_block] on the lines of a script that validates. *)
Lemma parse_block_script (script : string) :
  check_syntax script = [] ->
  (exists e,
     _parse_block_loop (_parse_block_fuel (script_lines script))
       (script_lines script) 0 [] 0 = Raise e /\
     (Valid.failing_entry (script_lines script) e \/
      Valid.failing_count (script_lines script) e \/
      Valid.failing_repeat (Spec.script_nodes (script_lines script)) e \/
      (e = RecursionError /\
       recursion_limit < Valid.nesting (script_lines script) 0)))
  \/
  (exists block index',
     _parse_block_loop (_parse_block_fuel (script_lines script))
       (script_lines script) 0 [] 0 = Ok (block, index') /\
     length block
     = Spec.expanded_length_seq (Spec.script_nodes (script_lines script))).
Proof.
  intros Hclean.
  destruct (parse_block_valid (_parse_block_fuel (script_lines script))
              (script_lines script) 0 [] 0)
    as [(e & Hr & Hf) | (block & index' & T & Hr & Hl & _ & Hb)].
  - unfold _parse_block_fuel. lia.
  - intros line. apply script_lines_nonblank.
  - rewrite drop_0. apply check_syntax_lines_clean, Hclean.
  - left. exists e. split; [exact Hr|].
    destruct Hf as [Hf | [Hf | [(c & body & block & Hins & Hrest) | Hf]]]; auto.
    right. right. left. exists c, body, block. split; [|exact Hrest].
    specialize (Hins [] []). rewrite drop_0 in Hins. exact Hins.
  - right. exists block, index'. split; [exact Hr|].
    unfold Spec.script_nodes. specialize (Hb []). rewrite drop_0 in Hb.
    rewrite Hb. exact Hl.
Qed.

(** When every slot accepts its token, no validated command line fails. *)
Lemma no_failing_entry (lines : list string) (e : exn) :
  (forall line cmd_name user_values cmd_info,
     line ∈ lines -> PyStr.split line = cmd_name :: user_values ->
     FUNCTION_REGISTRY !! cmd_name = Some cmd_info ->
     Valid.slots_accept cmd_info user_values) ->
  ~ Valid.failing_entry lines e.
Proof.
  intros Hacc (line & cmd_name & user_values & cmd_info & Hin & Hs & Hreg & Hn & Hf).
  destruct (command_entry_accepts line cmd_name user_values cmd_info Hs Hreg Hn
              (Hacc line cmd_name user_values cmd_info Hin Hs Hreg))
    as (entry & He).
  congruence.
Qed.

(** When every count is written with at most [int_max_str_digits] ASCII
    digits, [int] raises on no loop line. *)
Lemma no_failing_count (lines : list string) (e : exn) :
  (forall line t0 t1,
     line ∈ lines -> String.prefix "loop" line = true ->
     PyStr.split line = [t0; t1] ->
     PyStr.all_decimal t1 = true /\
     String.length t1 <= PyStr.int_max_str_digits) ->
  ~ Valid.failing_count lines e.
Proof.
  intros Hdec (line & t0 & t1 & Hin & Hp & Hs & Hd & Hf).
  destruct (Hdec line t0 t1 Hin Hp Hs) as [Ha Hl].
  destruct (int_decimal t1 Ha) as [n Hn]; [|exact Hl|congruence].
  unfold PyStr.isdigit in Hd. apply andb_true_iff in Hd as [Hne _].
  apply negb_true_iff, Hne.
Qed.

(** When the tree of the script fits, [block * count] raises for no
    loop. *)
Lemma no_failing_repeat (nodes : list Spec.ScriptNode) (e : exn) :
  forallb (Spec.fits max_list_len) nodes = true ->
  ~ Valid.failing_repeat nodes e.
Proof.
  intros Hfits (count & body & block & Hins & _ & Hlen & Hf).
  pose proof (fits_inside _ _ _ Hins Hfits) as Hnode.
  cbn [Spec.fits] in Hnode.
  apply andb_true_iff in Hnode as [Hnode _].
  apply andb_true_iff in Hnode as [Hw Hm].
  apply andb_true_iff in Hw as [Hlo Hhi].
  unfold Spec.expanded_length_seq in Hlen. rewrite <- Hlen in Hm.
  rewrite (list_mul_fits block count) in Hf by lia. discriminate Hf.
Qed.

(** The loop never moves back in the lines. *)
Lemma parse_block_loop_index (fuel : nat) :
  forall lines index result depth block index',
    _parse_block_loop fuel lines index result depth = Ok (block, index') ->
    index <= index'.
Proof.
  induction fuel as [|fuel IH]; intros lines index result depth block index';
    [discriminate|].
  rewrite parse_block_loop_S.
  destruct (lines !! index) as [line|]; [|intros [= _ <-]; lia].
  destruct (String.prefix "loop" line).
  - destruct (PyStr.split line) as [|t0 [|t1 [|t2 ts]]]; try discriminate.
    destruct (PyStr.int t1) as [count| |]; cbn [mbind outcome_bind];
      try discriminate.
    destruct (recursion_limit <=? depth); cbn [mbind outcome_bind];
      try discriminate.
    destruct (_parse_block_loop fuel lines (index + 1) [] (S depth))
      as [[b1 i1]| |] eqn:H1; cbn [mbind outcome_bind]; try discriminate.
    destruct (list_mul b1 count) as [repeated| |]; cbn [mbind outcome_bind];
      try discriminate.
    intros H2. apply IH in H1. apply IH in H2. lia.
  - destruct (String.eqb line "end"); [intros [= _ <-]; lia|].
    destruct (command_entry line) as [entry| |]; simpl; try discriminate.
    intros H1. apply IH in H1. lia.
Qed.

(** With more fuel than lines left to read, the loop of [_parse_block]
    returns or raises: the fuel [parse_commands] passes is enough on every
    script. *)
Lemma _parse_block_loop_fuel (fuel : nat) : forall lines index result depth,
  length lines - index < fuel ->
  _parse_block_loop fuel lines index result depth <> OutOfFuel.
Proof.
  induction fuel as [|fuel IH]; intros lines index result depth Hfuel; [lia|].
  rewrite parse_block_loop_S.
  destruct (lines !! index) as [line|] eqn:Hi; [|discriminate].
  pose proof (lookup_lt_Some _ _ _ Hi) as Hlt.
  destruct (String.prefix "loop" line).
  - destruct (PyStr.split line) as [|t0 [|t1 [|t2 ts]]]; try discriminate.
    pose proof (int_never_out_of_fuel t1) as Hint.
    destruct (PyStr.int t1) as [count| |]; cbn [mbind outcome_bind];
      [|discriminate|congruence].
    destruct (recursion_limit <=? depth); cbn [mbind outcome_bind];
      [discriminate|].
    pose proof (IH lines (index + 1) [] (S depth)) as H1.
    destruct (_parse_block_loop fuel lines (index + 1) [] (S depth))
      as [[b1 i1]| |] eqn:Hb;
      cbn [mbind outcome_bind]; [|discriminate|apply H1; lia].
    pose proof (list_mul_never_out_of_fuel b1 count) as Hmf.
    destruct (list_mul b1 count) as [repeated| |]; cbn [mbind outcome_bind];
      [|discriminate|congruence].
    apply parse_block_loop_index in Hb. apply IH. lia.
  - destruct (String.eqb line "end"); [discriminate|].
    pose proof (command_entry_never_out_of_fuel line) as Hce.
    destruct (command_entry line) as [entry| |]; simpl; [|discriminate|congruence].
    apply IH. lia.
Qed.

(** [parse_commands] never runs out of fuel. *)
Lemma parse_commands_total (self : iface) (script : string) :
  parse_commands self script <> OutOfFuel.
Proof.
  unfold parse_commands, _parse_block.
  destruct (check_syntax script); [|discriminate].
  destruct (has_nanonis self); [|discriminate].
  pose proof (_parse_block_loop_fuel (_parse_block_fuel (script_lines script))
                (script_lines script) 0 [] 0) as Hfuel.
  destruct (_parse_block_loop (_parse_block_fuel (script_lines script))
              (script_lines script) 0 [] 0) as [[commands index]| |];
    [discriminate | discriminate |].
  intros _. apply Hfuel; [unfold _parse_block_fuel; lia | reflexivity].
Qed.

(** C8. For every script that validates, the flat command sequence
    [parse_commands] returns has a length equal to the sum, over the
    top-level nodes of the script, of one for a command and of count times
    the expanded length of the body for a loop, at any nesting depth. On a
    connected interface the sequence is returned as soon as each
    userSupplied slot of each command line accepts the token it consumes,
    each loop count is written with at most [int_max_str_digits] ASCII
    digits and fits a machine word, the expansion of each loop is within
    what the interpreter can allocate, and the loops nest no deeper than
    the calls of [_parse_block] can. The script [loop 2 / wait 1 / end]
    expands to two [wait] commands. *)
Theorem expansion_length (self : iface) :
  (forall script commands errors,
     check_syntax script = [] ->
     parse_commands self script = Ok (Some commands, errors) ->
     length commands
     = Spec.expanded_length_seq (Spec.script_nodes (script_lines script)))
  /\
  (forall script,
     has_nanonis self = true ->
     check_syntax script = [] ->
     (forall line cmd_name user_values cmd_info i spec tok,
        line ∈ script_lines script ->
        PyStr.split line = cmd_name :: user_values ->
        FUNCTION_REGISTRY !! cmd_name = Some cmd_info ->
        args cmd_info !! i = Some spec -> arg_user spec = true ->
        user_values !! Spec.user_rank (args cmd_info) i = Some tok ->
        arg_type spec = str \/ np_accepts (arg_type spec) tok = true) ->
     (forall line t0 t1,
        line ∈ script_lines script -> String.prefix "loop" line = true ->
        PyStr.split line = [t0; t1] ->
        PyStr.all_decimal t1 = true /\
        String.length t1 <= PyStr.int_max_str_digits) ->
     forallb (Spec.fits max_list_len)
       (Spec.script_nodes (script_lines script)) = true ->
     Valid.nesting (script_lines script) 0 <= recursion_limit ->
     exists commands, parse_commands self script = Ok (Some commands, []))
  /\
  (has_nanonis self = true ->
   np_accepts uint32 "1" = true ->
   (2 <= max_list_len)%Z ->
   1 <= recursion_limit ->
   parse_commands self ("loop 2" +:+ PyStr.nl +:+ "wait 1" +:+ PyStr.nl +:+ "end")
   = Ok (Some [mkEntry "wait" (mkBound "ScriptingInterface.wait" (Some SelfInst))
                 [VNp uint32 "1"];
               mkEntry "wait" (mkBound "ScriptingInterface.wait" (Some SelfInst))
                 [VNp uint32 "1"]], [])).
Proof.
  split; [|split].
  - intros script commands errors Hclean.
    unfold parse_commands, _parse_block. rewrite Hclean.
    destruct (has_nanonis self); [|discriminate].
    destruct (parse_block_script script Hclean)
      as [(e & -> & _) | (block & index' & -> & Hl)]; [discriminate|].
    simpl. intros [= <- _]. exact Hl.
  - intros script Hself Hclean Hacc Hdec Hfits Hdeep.
    unfold parse_commands, _parse_block. rewrite Hclean, Hself.
    destruct (parse_block_script script Hclean)
      as [(e & _ & [Hf | [Hf | [Hf | [_ Hf]]]]) | (block & index' & -> & _)].
    + exfalso. apply (no_failing_entry (script_lines script) e); [|exact Hf].
      intros line cmd_name user_values cmd_info Hin Hs Hreg i spec tok.
      apply (Hacc line cmd_name user_values cmd_info i spec tok Hin Hs Hreg).
    + destruct (no_failing_count _ e Hdec Hf).
    + destruct (no_failing_repeat _ e Hfits Hf).
    + lia.
    + simpl. eauto.
  - intros Hself Hacc Hcap Hrec. unfold parse_commands, _parse_block. rewrite Hself.
    replace (check_syntax ("loop 2" +:+ PyStr.nl +:+ "wait 1" +:+ PyStr.nl +:+ "end"))
      with (@nil string) by (vm_compute; reflexivity).
    replace (script_lines ("loop 2" +:+ PyStr.nl +:+ "wait 1" +:+ PyStr.nl +:+ "end"))
      with ["loop 2"; "wait 1"; "end"] by (vm_compute; reflexivity).
    unfold _parse_block_fuel. cbn [length].
    assert (Hentry : command_entry "wait 1"
              = Ok (mkEntry "wait" (mkBound "ScriptingInterface.wait" (Some SelfInst))
                      [VNp uint32 "1"])).
    { unfold command_entry.
      replace (PyStr.split "wait 1") with ["wait"; "1"] by (vm_compute; reflexivity).
      replace (FUNCTION_REGISTRY !! "wait")
        with (Some (mkCmd "ScriptingInterface.wait"
                      [mkArg "Time (s)" uint32 (LInt 5) true]))
        by (vm_compute; reflexivity).
      cbn [args resolve_args arg_user arg_type lookup list_lookup].
      unfold convert. rewrite Hacc.
      cbn [mbind outcome_bind resolve_args app func].
      replace (bind_func "ScriptingInterface.wait")
        with (Ok (mkBound "ScriptingInterface.wait" (Some SelfInst)))
        by (vm_compute; reflexivity).
      reflexivity. }
    rewrite parse_block_loop_S. cbn [lookup list_lookup String.prefix].
    replace (PyStr.split "loop 2") with ["loop"; "2"] by (vm_compute; reflexivity).
    replace (PyStr.int "2") with (Ok 2%Z : outcome Z) by (vm_compute; reflexivity).
    replace (recursion_limit <=? 0) with false
      by (symmetry; apply Nat.leb_gt; lia).
    cbn [mbind outcome_bind Nat.add].
    rewrite parse_block_loop_S. cbn [lookup list_lookup].
    replace (String.prefix "loop" "wait 1") with false by reflexivity.
    replace (String.eqb "wait 1" "end") with false by reflexivity.
    rewrite Hentry. cbn [mbind outcome_bind Nat.add app].
    rewrite parse_block_loop_S. cbn [lookup list_lookup].
    replace (String.prefix "loop" "end") with false by reflexivity.
    replace (String.eqb "end" "end") with true by reflexivity.
    cbn [mbind outcome_bind Nat.add].
    rewrite list_mul_fits by (cbn [length]; lia).
    cbn [mbind outcome_bind app Z.to_nat Pos.to_nat Pos.iter_op Nat.add replicate concat].
    rewrite parse_block_loop_S. reflexivity.
Qed.

End Expansion.

(** ** The execution engine *)

Lemma length_zero_eqb (s : string) :
  (String.length s =? 0) = String.eqb s "".
Proof. destruct s; reflexivity. Qed.

Section Engine.
Context `{Driver}.

Import runScriptThread.

(** What one executed command adds to the run: its call, then its log
    entries. *)
Lemma execute_loop_step (cancelScript : nat -> bool) (i : nat)
    (entry : ParsedCommand) (rest : list ParsedCommand) (w w' : World)
    (r : ExecutionResult) :
  cancelScript i = false ->
  call entry w = (Ok r, w') ->
  execute_loop cancelScript i (entry :: rest) w
  = (Called entry :: log_entries entry r
       ++ (execute_loop cancelScript (S i) rest w').1.1,
     (execute_loop cancelScript (S i) rest w').1.2,
     (execute_loop cancelScript (S i) rest w').2).
Proof.
  intros Hc Hr. simpl. rewrite Hc, Hr.
  destruct (execute_loop cancelScript (S i) rest w') as [[evs w''] o]. reflexivity.
Qed.

(** C7. For every executed command whose function returns a triple, the
    status is "OK" when the error text is empty and the error text
    otherwise; the run records the call, emits one Request entry (name,
    space-joined arguments, status), then one Response entry exactly when
    the variable list is not empty, and goes on with the rest of the
    commands whatever the error text is. *)
Theorem failing_command_does_not_abort (cancelScript : nat -> bool) (i : nat)
    (entry : ParsedCommand) (rest : list ParsedCommand) (w w' : World)
    (r : ExecutionResult) :
  cancelScript i = false ->
  call entry w = (Ok r, w') ->
  let status := if String.eqb (errorString r) "" then "OK" else errorString r in
  let request :=
    Emit (logSignal "Request"
            (cmd entry +:+ " " +:+ PyStr.join " " (map str_value (pc_args entry)))
            status) in
  let response :=
    match variables r with
    | [] => []
    | _ :: _ =>
        [Emit (logSignal "Response"
                 ("[" +:+ PyStr.join ", " (map str_value (variables r)) +:+ "]") "")]
    end in
  let next := execute_loop cancelScript (S i) rest w' in
  execute_loop cancelScript i (entry :: rest) w
  = (Called entry :: request :: response ++ next.1.1, next.1.2, next.2).
Proof.
  intros Hc Hr. cbv zeta.
  rewrite (execute_loop_step _ _ _ _ _ _ _ Hc Hr).
  unfold log_entries, status_of, request_message, response_message.
  rewrite length_zero_eqb.
  destruct (String.eqb (errorString r) ""), (variables r); reflexivity.
Qed.



End Engine.

(** ** [ScriptingInterface.execute] *)

Section Execute.
Context `{Driver}.

Lemma execute_loop_returns (init : list ParsedCommand) (w w1 : World)
    (results : list ExecutionResult) :
  returns init w results w1 ->
  forall rest bound,
    ScriptingInterface.execute_loop (init ++ rest) bound w
    = ScriptingInterface.execute_loop rest
        (match last results with Some r => Some r | None => bound end) w1.
Proof.
  induction 1 as [w|entry init w w1 w' r results Hcall Hret IH]; intros rest bound.
  - reflexivity.
  - simpl. rewrite Hcall, IH. f_equal.
    destruct results as [|r' results]; [reflexivity|].
    change (last (r :: r' :: results)) with (last (r' :: results)).
    destruct (last (r' :: results)) eqn:Hl; [reflexivity|].
    apply last_None in Hl. discriminate.
Qed.

(** C10. [execute] raises instead of returning a triple when no command
    is called: on a script with syntax errors [parse_commands] returns
    [None] for the commands and iterating it raises [TypeError]; on a
    script that validates and expands to no command, the three names are
    still unbound at the [return], which raises [UnboundLocalError], a
    [NameError]. When the commands all return, [execute] returns the triple
    of the last one only. *)
Theorem execute_returns_last_or_raises (self : iface) (script : string)
    (w : World) :
  (check_syntax script <> [] ->
     parse_commands self script = Ok (None, check_syntax script) /\
     ScriptingInterface.execute self script w = (Raise TypeError, w))
  /\
  (parse_commands self script = Ok (Some [], []) ->
     ScriptingInterface.execute self script w = (Raise UnboundLocalError, w) /\
     is_NameError UnboundLocalError = true)
  /\
  (forall init last_entry results w1 r w',
     parse_commands self script = Ok (Some (init ++ [last_entry]), []) ->
     returns init w results w1 ->
     call last_entry w1 = (Ok r, w') ->
     ScriptingInterface.execute self script w = (Ok r, w')).
Proof.
  split; [|split].
  - intros Hne. split; [exact (parse_commands_errors self script Hne)|].
    unfold ScriptingInterface.execute.
    rewrite (parse_commands_errors self script Hne). reflexivity.
  - intros Hp. unfold ScriptingInterface.execute. rewrite Hp. auto.
  - intros init last_entry results w1 r w' Hp Hret Hcall.
    unfold ScriptingInterface.execute. rewrite Hp.
    rewrite (execute_loop_returns init w w1 results Hret). simpl.
    rewrite Hcall. reflexivity.
Qed.

End Execute.

(** ** The reply of a query *)

(** When the stripped reply has three fields, the first component of the
    result is a list holding the error text, not the text. *)
Lemma query_reply_three_fields (text p0 p1 p2 : string) :
  PyStr.split_on "|" (PyStr.strip text) = [p0; p1; p2] ->
  TCPClient.query (TCPClient.Received text)
  = (TCPClient.PList [if String.eqb p0 "None" then "" else p0],
     if String.eqb p1 "None" then "" else p1,
     if String.eqb p2 "None" then [] else PyStr.split_on "," p2).
Proof. intros Hs. simpl. unfold TCPClient.query_reply. rewrite Hs. reflexivity. Qed.

(** C1. On the reply [None|OK|1,2,3] the response is "OK" and the
    variables are "1", "2", "3", but the error [query] returns is the list
    holding the empty string, not the empty string; on the two-field reply
    [err|resp] the error is the string "Malformed response", the response
    the reply itself and the variables none. *)
Theorem query_wraps_error_in_list :
  TCPClient.query (TCPClient.Received "None|OK|1,2,3")
  = (TCPClient.PList [""], "OK", ["1"; "2"; "3"])
  /\ TCPClient.query (TCPClient.Received "None|OK|1,2,3")
     <> (TCPClient.PStr "", "OK", ["1"; "2"; "3"])
  /\ TCPClient.query (TCPClient.Received "err|resp")
     = (TCPClient.PStr "Malformed response", "err|resp", []).
Proof. split; [reflexivity|]. split; [discriminate | reflexivity]. Qed.

(** ** The entry [xy.Set] *)

Lemma no_break_append (a b : string) :
  PyStr.no_break (a +:+ b) = PyStr.no_break a && PyStr.no_break b.
Proof.
  induction a as [|c a IH]; [reflexivity|].
  rewrite append_cons. simpl. rewrite IH, andb_assoc. reflexivity.
Qed.

Lemma no_space_no_break (s : string) :
  PyStr.no_space s = true -> PyStr.no_break s = true.
Proof.
  induction s as [|c s IH]; simpl; [reflexivity|].
  intros [Hc Hs]%andb_true_iff. apply negb_true_iff in Hc.
  rewrite (isspace_not_linebreak _ Hc), IH by exact Hs. reflexivity.
Qed.

Lemma splitlines_go_no_break (s : string) : forall cur,
  PyStr.no_break s = true ->
  PyStr.splitlines_go cur s
  = if PyStr.is_empty (cur +:+ s) then [] else [cur +:+ s].
Proof.
  induction s as [|c s IH]; intros cur Hs; simpl.
  - rewrite append_nil_r. reflexivity.
  - simpl in Hs. apply andb_true_iff in Hs as [Hc Hs]. apply negb_true_iff in Hc.
    rewrite Hc, IH by exact Hs. rewrite snoc_append. reflexivity.
Qed.

(** A one-line script, already stripped, is its own only line. *)
Lemma script_lines_single (line : string) :
  PyStr.no_break line = true -> PyStr.strip line = line ->
  PyStr.is_empty line = false ->
  script_lines line = [line].
Proof.
  intros Hb Hs He. unfold script_lines, PyStr.splitlines.
  rewrite splitlines_go_no_break by exact Hb.
  change ("" +:+ line) with line. rewrite He. simpl. rewrite Hs, He. simpl.
  rewrite Hs. reflexivity.
Qed.

Lemma split_go_last_token (t : string) :
  PyStr.is_token t = true -> PyStr.split_go "" t = [t].
Proof.
  intros [Hne Ht]%andb_true_iff. apply negb_true_iff in Hne.
  pose proof (split_go_token t "" "" Ht) as Hs.
  rewrite append_nil_r in Hs. rewrite Hs. simpl.
  change ("" +:+ t) with t. rewrite Hne. reflexivity.
Qed.

Lemma xy_set_split (x y : string) :
  PyStr.is_token x = true -> PyStr.is_token y = true ->
  PyStr.split ("xy.Set " +:+ x +:+ " " +:+ y) = ["xy.Set"; x; y].
Proof.
  intros [Hx Hsx]%andb_true_iff Hy.
  apply negb_true_iff in Hx. unfold PyStr.split.
  change ("xy.Set " +:+ x +:+ " " +:+ y)
    with ("xy.Set" +:+ String " " (x +:+ String " " y)).
  rewrite split_go_token by reflexivity.
  change ("" +:+ "xy.Set") with "xy.Set".
  change (PyStr.split_go "xy.Set" (String " " (x +:+ String " " y)))
    with ("xy.Set" :: PyStr.split_go "" (x +:+ String " " y)).
  rewrite split_go_token by exact Hsx.
  change ("" +:+ x) with x.
  change (PyStr.split_go x (String " " y))
    with ((if PyStr.is_empty x then [] else [x]) ++ PyStr.split_go "" y).
  rewrite Hx, (split_go_last_token y Hy). reflexivity.
Qed.

Lemma xy_set_lines (x y : string) :
  PyStr.is_token x = true -> PyStr.is_token y = true ->
  script_lines ("xy.Set " +:+ x +:+ " " +:+ y) = ["xy.Set " +:+ x +:+ " " +:+ y].
Proof.
  intros Hx Hy. apply script_lines_single.
  - pose proof Hx as [_ Hsx]%andb_true_iff. pose proof Hy as [_ Hsy]%andb_true_iff.
    rewrite !no_break_append, (no_space_no_break _ Hsx), (no_space_no_break _ Hsy).
    reflexivity.
  - unfold PyStr.strip.
    change (PyStr.lstrip ("xy.Set " +:+ x +:+ " " +:+ y))
      with ("xy.Set " +:+ x +:+ " " +:+ y).
    rewrite <- (append_assoc x " " y), <- (append_assoc "xy.Set " (x +:+ " ") y).
    apply rstrip_append_token, Hy.
  - reflexivity.
Qed.

Section XySet.
Context `{Driver}.

Import runScriptThread.

(** C2. The entry [xy.Set] declares two userSupplied arguments and binds
    [ScriptingInterface.setZ], a function of one parameter. Every line
    [xy.Set x y] with two tokens validates; once both tokens are converted,
    the command it expands to holds the two values, and calling it raises
    [TypeError], so that a run of the script stops there without the status
    'Finished'. *)
Theorem xy_set_raises_type_error (x y : string) :
  PyStr.is_token x = true -> PyStr.is_token y = true ->
  let script := "xy.Set " +:+ x +:+ " " +:+ y in
  FUNCTION_REGISTRY !! "xy.Set"
  = Some (mkCmd "ScriptingInterface.setZ"
            [mkArg "x (m)" float64 (LFloat "0.0") true;
             mkArg "y (m)" float64 (LFloat "0.0") true])
  /\ arity "ScriptingInterface.setZ" = Some 1
  /\ check_syntax script = []
  /\ forall self vx vy,
       has_nanonis self = true ->
       convert float64 x = Ok vx -> convert float64 y = Ok vy ->
       let entry :=
         mkEntry "xy.Set" (mkBound "ScriptingInterface.setZ" (Some SelfInst)) [vx; vy] in
       parse_commands self script = Ok (Some [entry], []) /\
       (forall w, call entry w = (Raise TypeError, w)) /\
       (forall cancelScript w,
          cancelScript 0 = false ->
          run self script cancelScript w
          = ([Emit (scriptStatus "Running"); Called entry], w, Raise TypeError)) /\
       (forall w, ScriptingInterface.execute self script w = (Raise TypeError, w)).
Proof.
  intros Hx Hy. cbv zeta.
  assert (Hreg : FUNCTION_REGISTRY !! "xy.Set"
            = Some (mkCmd "ScriptingInterface.setZ"
                      [mkArg "x (m)" float64 (LFloat "0.0") true;
                       mkArg "y (m)" float64 (LFloat "0.0") true]))
    by (vm_compute; reflexivity).
  assert (Hprefix : String.prefix "loop" ("xy.Set " +:+ x +:+ " " +:+ y) = false)
    by reflexivity.
  assert (Hend : String.eqb ("xy.Set " +:+ x +:+ " " +:+ y) "end" = false)
    by reflexivity.
  assert (Hclean : check_syntax ("xy.Set " +:+ x +:+ " " +:+ y) = []).
  { unfold check_syntax. rewrite (xy_set_lines x y Hx Hy).
    unfold check_syntax_lines. cbn [check_lines]. unfold check_line.
    rewrite Hprefix, Hend. unfold check_command.
    rewrite (xy_set_split x y Hx Hy), Hreg. reflexivity. }
  split; [exact Hreg|]. split; [reflexivity|]. split; [exact Hclean|].
  intros self vx vy Hself Hvx Hvy.
  assert (Hcall : forall w,
            call (mkEntry "xy.Set" (mkBound "ScriptingInterface.setZ" (Some SelfInst))
                    [vx; vy]) w = (Raise TypeError, w)) by reflexivity.
  assert (Hparse : parse_commands self ("xy.Set " +:+ x +:+ " " +:+ y)
            = Ok (Some [mkEntry "xy.Set"
                          (mkBound "ScriptingInterface.setZ" (Some SelfInst)) [vx; vy]],
                  [])).
  { unfold parse_commands, _parse_block. rewrite Hclean, Hself.
    rewrite (xy_set_lines x y Hx Hy). unfold _parse_block_fuel. cbn [length].
    rewrite parse_block_loop_S. cbn [lookup list_lookup].
    rewrite Hprefix, Hend. unfold command_entry.
    rewrite (xy_set_split x y Hx Hy), Hreg.
    cbn [args resolve_args arg_user arg_type lookup list_lookup].
    rewrite Hvx. cbn [mbind outcome_bind resolve_args arg_user arg_type lookup list_lookup].
    rewrite Hvy. cbn [mbind outcome_bind resolve_args app func].
    replace (bind_func "ScriptingInterface.setZ")
      with (Ok (mkBound "ScriptingInterface.setZ" (Some SelfInst)))
      by (vm_compute; reflexivity).
    cbn [mbind outcome_bind]. rewrite parse_block_loop_S. reflexivity. }
  split; [exact Hparse|]. split; [exact Hcall|]. split.
  - intros cancelScript w Hc. unfold run. rewrite Hparse.
    unfold execute. cbn [execute_loop]. rewrite Hc, Hcall. reflexivity.
  - intros w. unfold ScriptingInterface.execute. rewrite Hparse.
    cbn [ScriptingInterface.execute_loop]. rewrite Hcall. reflexivity.
Qed.

End XySet.

(** ** The stop button *)


(** ** The properties on concrete scripts *)

Lemma loop_nested_lines :
  script_lines demo_nested
  = ["loop 2"; "wait 1"; "loop 3"; "bias.Get"; "end"; "end"; "fb.Get"].
Proof. vm_compute. reflexivity. Qed.

Lemma expansion_length_witness :
  has_nanonis demo_iface = true /\
  check_syntax demo_nested = [] /\
  exists commands,
    parse_commands (H := demo_driver) demo_iface demo_nested
    = Ok (Some commands, []) /\
    length commands = 9.
Proof.
  assert (Hclean : check_syntax demo_nested = []) by (vm_compute; reflexivity).
  split; [reflexivity|]. split; [exact Hclean|].
  destruct (expansion_length (H := demo_driver) demo_iface) as (Hlen & Hret & _).
  destruct (Hret demo_nested eq_refl Hclean) as (commands & Hp).
  - intros line cmd_name user_values cmd_info i spec tok Hline Hs Hreg Hi Hu Htok.
    rewrite loop_nested_lines in Hline.
    repeat (apply elem_of_cons in Hline as [-> | Hline];
            [vm_compute in Hs; injection Hs as <- <-;
             vm_compute in Hreg; try discriminate Hreg; injection Hreg as <-;
             repeat (destruct i as [|i];
                     [injection Hi as <-; try discriminate Hu;
                      vm_compute in Htok; injection Htok as <-;
                      right; vm_compute; reflexivity|]);
             discriminate Hi|]).
    apply elem_of_nil in Hline. destruct Hline.
  - intros line t0 t1 Hline Hprefix Hs. rewrite loop_nested_lines in Hline.
    repeat (apply elem_of_cons in Hline as [-> | Hline];
            [first [ vm_compute in Hprefix; discriminate Hprefix
                   | vm_compute in Hs; injection Hs as <- <-;
                     split; [reflexivity | apply Nat.leb_le; vm_compute; reflexivity] ]|]).
    apply elem_of_nil in Hline. destruct Hline.
  - vm_compute. reflexivity.
  - apply Nat.leb_le. vm_compute. reflexivity.
  - exists commands. split; [exact Hp|].
    rewrite (Hlen demo_nested commands [] Hclean Hp). vm_compute. reflexivity.
Defined.

Lemma arguments_resolved_in_order_witness :
  PyStr.split "drift.Set 1 0.1 0.2 0.3" = ["drift.Set"; "1"; "0.1"; "0.2"; "0.3"] /\
  exists cmd_info,
    FUNCTION_REGISTRY !! "drift.Set" = Some cmd_info /\
    length ["1"; "0.1"; "0.2"; "0.3"] = expected_user_args cmd_info /\
    exists entry,
      command_entry (H := demo_driver) "drift.Set 1 0.1 0.2 0.3" = Ok entry /\
      cmd entry = "drift.Set" /\
      length (pc_args entry) = length (args cmd_info) /\
      forall i spec, args cmd_info !! i = Some spec ->
        if arg_user spec then
          exists tok,
            ["1"; "0.1"; "0.2"; "0.3"] !! Spec.user_rank (args cmd_info) i = Some tok /\
            pc_args entry !! i = Some (match arg_type spec with
                                       | str => VLit (LStr tok)
                                       | _ => VNp (arg_type spec) tok
                                       end) /\
            (arg_type spec = str \/
             np_accepts (Driver := demo_driver) (arg_type spec) tok = true)
        else pc_args entry !! i = Some (VLit (arg_default spec)).
Proof.
  split; [vm_compute; reflexivity|].
  eexists. split; [vm_compute; reflexivity|]. split; [vm_compute; reflexivity|].
  destruct (arguments_resolved_in_order (H := demo_driver) "drift.Set 1 0.1 0.2 0.3"
              "drift.Set" ["1"; "0.1"; "0.2"; "0.3"]
              (mkCmd "Nanonis.Piezo_DriftCompSet"
                 [mkArg "Compensation status" uint32 (LInt 1) true;
                  mkArg "Vx (m/s)" float32 (LFloat "0.0") true;
                  mkArg "Vy (m/s)" float32 (LFloat "0.0") true;
                  mkArg "Vz (m/s)" float32 (LFloat "0.0") true;
                  mkArg "Saturation limit (%)" float32 (LFloat "10.0") false]))
    as [Hslots Hentry].
  - vm_compute. reflexivity.
  - vm_compute. reflexivity.
  - vm_compute. reflexivity.
  - destruct Hentry as [entry He].
    + intros i spec tok Hi Hu Htok.
      do 5 (destruct i as [|i];
            [injection Hi as <-; try discriminate Hu;
             vm_compute in Htok; injection Htok as <-;
             right; vm_compute; reflexivity|]).
      discriminate Hi.
    + exists entry. split; [exact He|]. exact (Hslots entry He).
Defined.

Lemma xy_set_raises_type_error_witness :
  PyStr.is_token "1.5" = true /\ PyStr.is_token "2" = true /\
  check_syntax "xy.Set 1.5 2" = [] /\
  parse_commands (H := demo_driver) demo_iface "xy.Set 1.5 2"
  = Ok (Some [mkEntry "xy.Set" (mkBound "ScriptingInterface.setZ" (Some SelfInst))
                [VNp float64 "1.5"; VNp float64 "2"]], []) /\
  call (H := demo_driver)
    (mkEntry "xy.Set" (mkBound "ScriptingInterface.setZ" (Some SelfInst))
       [VNp float64 "1.5"; VNp float64 "2"]) 0
  = (Raise TypeError, 0).
Proof.
  destruct (xy_set_raises_type_error (H := demo_driver) "1.5" "2" eq_refl eq_refl)
    as (_ & _ & Hclean & Hrest).
  destruct (Hrest demo_iface (VNp float64 "1.5") (VNp float64 "2") eq_refl eq_refl eq_refl)
    as (Hparse & Hcall & _).
  split; [reflexivity|]. split; [reflexivity|].
  split; [exact Hclean|]. split; [exact Hparse | exact (Hcall 0)].
Defined.

Lemma validation_is_exhaustive_witness :
  "Line 3: wrong number of arguments for 'wait'. Expected 1, got 2 → wait 1 2"
    ∈ check_syntax demo_faulty /\
  "Unclosed 'loop' detected" ∈ check_syntax demo_faulty /\
  parse_commands (H := demo_driver) demo_iface demo_faulty
  = Ok (None, check_syntax demo_faulty) /\
  forall entry,
    runScriptThread.Called entry
    ∉ (runScriptThread.run (H := demo_driver) demo_iface demo_faulty
         (fun _ => false) 0).1.1.
Proof.
  destruct (validation_is_exhaustive (H := demo_driver) demo_iface demo_faulty
              (fun _ => false) 0)
    as (Hlines & Hunclosed & Hblocked).
  destruct (Hlines 2 "wait 1 2") as (_ & _ & Hcmd); [vm_compute; reflexivity|].
  destruct (Hcmd eq_refl ltac:(discriminate) "wait" ["1"; "2"]) as [_ Hwrong];
    [vm_compute; reflexivity|].
  specialize (Hwrong (mkCmd "ScriptingInterface.wait"
                        [mkArg "Time (s)" uint32 (LInt 5) true])).
  split; [apply Hwrong; [vm_compute; reflexivity | vm_compute; discriminate]|].
  split; [apply Hunclosed; vm_compute; discriminate|].
  destruct Hblocked as (Hparse & _ & Hcalled & _); [vm_compute; discriminate|].
  split; [exact Hparse | exact Hcalled].
Defined.



Lemma failing_command_does_not_abort_witness :
  call (H := demo_driver) demo_set 0 = (Ok demo_set_result, 1) /\
  runScriptThread.execute_loop (H := demo_driver) (fun _ => false) 0
    [demo_set; demo_wait] 0
  = ([runScriptThread.Called demo_set;
      runScriptThread.Emit
        (runScriptThread.logSignal "Request" "bias.Set 2" "Bias out of range");
      runScriptThread.Called demo_wait;
      runScriptThread.Emit (runScriptThread.logSignal "Request" "wait 1" "OK")],
     1, Ok tt).
Proof.
  split; [reflexivity|].
  exact (failing_command_does_not_abort (H := demo_driver) (fun _ => false) 0
           demo_set [demo_wait] 0 1 demo_set_result eq_refl eq_refl).
Defined.

Lemma execute_returns_last_or_raises_witness :
  ScriptingInterface.execute (H := demo_driver) demo_iface "end" 0
  = (Raise TypeError, 0) /\
  ScriptingInterface.execute (H := demo_driver) demo_iface "" 0
  = (Raise UnboundLocalError, 0) /\
  ScriptingInterface.execute (H := demo_driver) demo_iface
    ("bias.Set 2" +:+ PyStr.nl +:+ "bias.Get") 0
  = (Ok demo_get_result, 2).
Proof.
  split; [|split].
  - apply (proj1 (execute_returns_last_or_raises (H := demo_driver) demo_iface "end" 0)).
    vm_compute. discriminate.
  - apply (proj1 (proj2 (execute_returns_last_or_raises (H := demo_driver)
                           demo_iface "" 0))).
    vm_compute. reflexivity.
  - apply (proj2 (proj2 (execute_returns_last_or_raises (H := demo_driver) demo_iface
                           ("bias.Set 2" +:+ PyStr.nl +:+ "bias.Get") 0))
             [demo_set] demo_get [demo_set_result] 1).
    + vm_compute. reflexivity.
    + apply (returns_cons (H := demo_driver) _ _ 0 1 1); [reflexivity | constructor].
    + reflexivity.
Defined.

(** * Further properties of the code *)

(** ** The lines the validator reads *)

Lemma lstrip_idem (s : string) : PyStr.lstrip (PyStr.lstrip s) = PyStr.lstrip s.
Proof.
  induction s as [|c s IH]; simpl; [reflexivity|].
  destruct (PyStr.isspace c) eqn:Hc; [exact IH|]. simpl. rewrite Hc. reflexivity.
Qed.

Lemma rstrip_idem (s : string) : PyStr.rstrip (PyStr.rstrip s) = PyStr.rstrip s.
Proof.
  induction s as [|c s IH]; simpl; [reflexivity|].
  destruct (PyStr.is_empty (PyStr.rstrip s) && PyStr.isspace c) eqn:Hc;
    [reflexivity|].
  simpl. rewrite IH, Hc. reflexivity.
Qed.

Lemma lstrip_fixed (s : string) :
  (forall c r, s = String c r -> PyStr.isspace c = false) -> PyStr.lstrip s = s.
Proof.
  destruct s as [|c s]; simpl; [reflexivity|].
  intros Hc. rewrite (Hc c s eq_refl). reflexivity.
Qed.

(** [strip] is idempotent. *)
Lemma strip_idem (s : string) : PyStr.strip (PyStr.strip s) = PyStr.strip s.
Proof.
  unfold PyStr.strip.
  rewrite (lstrip_fixed (PyStr.rstrip (PyStr.lstrip s))).
  - apply rstrip_idem.
  - intros c r Hr. destruct (rstrip_head _ _ _ Hr) as [r' Hl].
    apply (lstrip_head _ _ _ Hl).
Qed.

Lemma no_break_lstrip (s : string) :
  PyStr.no_break s = true -> PyStr.no_break (PyStr.lstrip s) = true.
Proof.
  induction s as [|c s IH]; simpl; [reflexivity|].
  intros [Hc Hs]%andb_true_iff.
  destruct (PyStr.isspace c); [apply IH, Hs|]. simpl. rewrite Hc, Hs. reflexivity.
Qed.

Lemma no_break_rstrip (s : string) :
  PyStr.no_break s = true -> PyStr.no_break (PyStr.rstrip s) = true.
Proof.
  induction s as [|c s IH]; simpl; [reflexivity|].
  intros [Hc Hs]%andb_true_iff.
  destruct (PyStr.is_empty (PyStr.rstrip s) && PyStr.isspace c); [reflexivity|].
  simpl. rewrite Hc, IH by exact Hs. reflexivity.
Qed.

Lemma no_break_snoc (cur : string) (c : ascii) :
  PyStr.no_break cur = true -> PyStr.is_linebreak c = false ->
  PyStr.no_break (PyStr.snoc cur c) = true.
Proof.
  intros Hcur Hc. unfold PyStr.snoc. rewrite no_break_append, Hcur. simpl.
  rewrite Hc. reflexivity.
Qed.

(** No piece [splitlines] returns holds a line boundary. *)
Lemma splitlines_go_no_break_pieces (n : nat) : forall s cur,
  String.length s <= n -> PyStr.no_break cur = true ->
  Forall (fun piece => PyStr.no_break piece = true) (PyStr.splitlines_go cur s).
Proof.
  induction n as [|n IH]; intros s cur Hlen Hcur.
  - destruct s; [|simpl in Hlen; lia]. simpl.
    destruct (PyStr.is_empty cur); auto.
  - destruct s as [|c s]; simpl.
    + destruct (PyStr.is_empty cur); auto.
    + simpl in Hlen. destruct (PyStr.is_linebreak c) eqn:Hc.
      * apply Forall_cons. split; [exact Hcur|].
        assert (Hrest : Forall (fun piece => PyStr.no_break piece = true)
                          (PyStr.splitlines_go "" s))
          by (apply IH; [lia | reflexivity]).
        destruct s as [|d s']; [destruct c as [[] [] [] [] [] [] [] []]; exact Hrest|].
        assert (Hskip : Forall (fun piece => PyStr.no_break piece = true)
                          (PyStr.splitlines_go "" s'))
          by (apply IH; [simpl in Hlen; lia | reflexivity]).
        destruct c as [[] [] [] [] [] [] [] []]; try exact Hrest;
          destruct d as [[] [] [] [] [] [] [] []]; first [exact Hrest | exact Hskip].
      * apply IH; [lia|]. apply no_break_snoc; assumption.
Qed.

(** The shape of a line kept by [script_lines]. *)
Lemma script_line_shape (script line : string) :
  line ∈ script_lines script ->
  PyStr.is_empty line = false /\ PyStr.strip line = line /\
  PyStr.no_break line = true /\
  exists cmd_name user_values, PyStr.split line = cmd_name :: user_values.
Proof.
  intros Hin. pose proof (script_lines_nonblank script line Hin) as Hsplit.
  unfold script_lines in Hin.
  apply list_elem_of_In, in_map_iff in Hin as (l & <- & Hl).
  apply filter_In in Hl as [Hl Hne]. apply negb_true_iff in Hne.
  split; [exact Hne|]. split; [apply strip_idem|]. split.
  - unfold PyStr.strip. apply no_break_rstrip, no_break_lstrip.
    pose proof (splitlines_go_no_break_pieces (String.length script) script ""
                  (Nat.le_refl _) eq_refl) as Hall.
    rewrite Forall_forall in Hall. apply Hall, list_elem_of_In, Hl.
  - destruct (PyStr.split (PyStr.strip l)) as [|cmd_name user_values];
      [congruence | eauto].
Qed.

(** X1. Every line the validator and the expander read is non-empty, has
    no white space at either end, holds no line boundary and has a first
    token: [parts[0]] never raises [IndexError]. *)
Theorem script_lines_are_stripped (script line : string) :
  line ∈ script_lines script ->
  PyStr.is_empty line = false /\ PyStr.strip line = line /\
  PyStr.no_break line = true /\
  exists cmd_name user_values, PyStr.split line = cmd_name :: user_values.
Proof. apply script_line_shape. Qed.

Lemma script_lines_are_stripped_witness :
  PyStr.is_empty "loop 3" = false /\ PyStr.strip "loop 3" = "loop 3" /\
  PyStr.no_break "loop 3" = true /\
  exists cmd_name user_values, PyStr.split "loop 3" = cmd_name :: user_values.
Proof.
  apply (script_lines_are_stripped demo_nested "loop 3").
  rewrite loop_nested_lines. do 2 apply list_elem_of_further. apply list_elem_of_here.
Defined.

Lemma splitlines_go_cons (cur : string) (c : ascii) (s : string) :
  PyStr.splitlines_go cur (String c s)
  = if PyStr.is_linebreak c then
      cur :: (if Ascii.eqb c "013" then
                match s with
                | String d s' =>
                    if Ascii.eqb d "010" then PyStr.splitlines_go "" s'
                    else PyStr.splitlines_go "" s
                | "" => PyStr.splitlines_go "" s
                end
              else PyStr.splitlines_go "" s)
    else PyStr.splitlines_go (PyStr.snoc cur c) s.
Proof.
  destruct c as [[] [] [] [] [] [] [] []]; try reflexivity.
  destruct s as [|d s']; [reflexivity|].
  destruct d as [[] [] [] [] [] [] [] []]; reflexivity.
Qed.

Lemma keep_blank_piece (cur : string) (rest : list string) :
  map PyStr.strip
    (List.filter (fun line => negb (PyStr.is_empty (PyStr.strip line)))
       ((if PyStr.is_empty cur then [] else [cur]) ++ rest))
  = map PyStr.strip
      (List.filter (fun line => negb (PyStr.is_empty (PyStr.strip line)))
         (cur :: rest)).
Proof. destruct cur; reflexivity. Qed.

(** The kept lines of a text cut at a line feed are those of its two
    halves. *)
Lemma splitlines_go_append (n : nat) : forall a cur b,
  String.length a <= n ->
  map PyStr.strip
    (List.filter (fun line => negb (PyStr.is_empty (PyStr.strip line)))
       (PyStr.splitlines_go cur (a +:+ PyStr.nl +:+ b)))
  = map PyStr.strip
      (List.filter (fun line => negb (PyStr.is_empty (PyStr.strip line)))
         (PyStr.splitlines_go cur a))
    ++ map PyStr.strip
         (List.filter (fun line => negb (PyStr.is_empty (PyStr.strip line)))
            (PyStr.splitlines_go "" b)).
Proof.
  induction n as [|n IH]; intros a cur b Hlen.
  - destruct a; [|simpl in Hlen; lia].
    change ("" +:+ PyStr.nl +:+ b) with (String "010" b).
    rewrite splitlines_go_cons. cbn [PyStr.is_linebreak Ascii.eqb Bool.eqb].
    cbn [PyStr.splitlines_go].
    rewrite <- (keep_blank_piece cur (PyStr.splitlines_go "" b)).
    rewrite List.filter_app, List.map_app. reflexivity.
  - destruct a as [|c a].
    + change ("" +:+ PyStr.nl +:+ b) with (String "010" b).
      rewrite splitlines_go_cons. cbn [PyStr.is_linebreak Ascii.eqb Bool.eqb].
      cbn [PyStr.splitlines_go].
      rewrite <- (keep_blank_piece cur (PyStr.splitlines_go "" b)).
      rewrite List.filter_app, List.map_app. reflexivity.
    + simpl in Hlen. rewrite append_cons, !splitlines_go_cons.
      destruct (PyStr.is_linebreak c) eqn:Hc; [|apply IH; lia].
      assert (Hcons : forall l1 l2 : list string,
        map PyStr.strip
          (List.filter (fun line => negb (PyStr.is_empty (PyStr.strip line))) l1)
        = map PyStr.strip
            (List.filter (fun line => negb (PyStr.is_empty (PyStr.strip line))) l2)
          ++ map PyStr.strip
               (List.filter (fun line => negb (PyStr.is_empty (PyStr.strip line)))
                  (PyStr.splitlines_go "" b)) ->
        map PyStr.strip
          (List.filter (fun line => negb (PyStr.is_empty (PyStr.strip line)))
             (cur :: l1))
        = map PyStr.strip
            (List.filter (fun line => negb (PyStr.is_empty (PyStr.strip line)))
               (cur :: l2))
          ++ map PyStr.strip
               (List.filter (fun line => negb (PyStr.is_empty (PyStr.strip line)))
                  (PyStr.splitlines_go "" b))).
      { intros l1 l2 Heq. simpl.
        destruct (negb (PyStr.is_empty (PyStr.strip cur))); simpl; rewrite Heq;
          reflexivity. }
      apply Hcons.
      destruct (Ascii.eqb c "013"); [|apply IH; lia].
      destruct a as [|d a'].
      * change ("" +:+ PyStr.nl +:+ b) with (String "010" b).
        cbn [Ascii.eqb Bool.eqb]. reflexivity.
      * rewrite append_cons. simpl in Hlen.
        destruct (Ascii.eqb d "010"); [apply IH; lia|].
        rewrite <- append_cons. apply IH. simpl. lia.
Qed.

(** The kept lines of two texts joined by a line feed. *)
Lemma script_lines_app (a b : string) :
  script_lines (a +:+ PyStr.nl +:+ b) = script_lines a ++ script_lines b.
Proof.
  unfold script_lines, PyStr.splitlines.
  apply (splitlines_go_append (String.length a) a "" b). lia.
Qed.

(** X2. The lines read from two texts joined by a line feed are the lines
    read from the first followed by the lines read from the second: blank
    lines, a line feed at the end of the first text or at the start of the
    second, add nothing. *)
Theorem script_lines_append (a b : string) :
  script_lines (a +:+ PyStr.nl +:+ b) = script_lines a ++ script_lines b.
Proof. apply script_lines_app. Qed.

Lemma script_lines_join (lines : list string) :
  Forall (fun line => PyStr.is_empty line = false /\ PyStr.strip line = line /\
                      PyStr.no_break line = true) lines ->
  script_lines (PyStr.join PyStr.nl lines) = lines.
Proof.
  induction 1 as [|line rest (Hne & Hs & Hb) Hrest IH]; [reflexivity|].
  destruct rest as [|line' rest].
  - simpl. apply script_lines_single; assumption.
  - change (PyStr.join PyStr.nl (line :: line' :: rest))
      with (line +:+ PyStr.nl +:+ PyStr.join PyStr.nl (line' :: rest)).
    rewrite script_lines_app, IH, script_lines_single by assumption.
    reflexivity.
Qed.

(** X3. Writing the kept lines back, one per line, and reading them again
    gives the same lines: the validator and the expander see a script and
    its cleaned-up text (no blank line, no indentation) alike. *)
Theorem script_lines_round_trip (script : string) :
  script_lines (PyStr.join PyStr.nl (script_lines script)) = script_lines script
  /\ check_syntax (PyStr.join PyStr.nl (script_lines script)) = check_syntax script.
Proof.
  assert (Hlines : script_lines (PyStr.join PyStr.nl (script_lines script))
                   = script_lines script).
  { apply script_lines_join, Forall_forall. intros line Hin.
    destruct (script_line_shape script line Hin) as (Hne & Hs & Hb & _).
    auto. }
  split; [exact Hlines|]. unfold check_syntax. rewrite Hlines. reflexivity.
Qed.

(** ** What the validator reports, and what a clean script looks like *)

Lemma loop_line_is_not_end (line : string) :
  String.prefix "loop" line = true -> String.eqb line "end" = false.
Proof.
  intros Hp. destruct (String.eqb_spec line "end") as [-> | _]; [discriminate | reflexivity].
Qed.

(** The depth moves by the loop lines read less the [end] lines read. *)
Lemma scan_counts (lines : list string) : forall d d',
  Valid.scan lines d = Some d' ->
  d + length (List.filter (String.prefix "loop") lines)
  = d' + length (List.filter (fun line => String.eqb line "end") lines).
Proof.
  induction lines as [|line rest IH]; intros d d'; simpl.
  - intros [= ->]. reflexivity.
  - destruct (Valid.line_depth line d) as [d1|] eqn:Hd; [|discriminate].
    intros Hs. apply IH in Hs. unfold Valid.line_depth in Hd.
    destruct (String.prefix "loop" line) eqn:Hp.
    + rewrite (loop_line_is_not_end line Hp).
      destruct (Valid.loop_ok line); [|discriminate]. injection Hd as <-.
      simpl. lia.
    + destruct (String.eqb line "end").
      * destruct d as [|d0]; [discriminate|]. injection Hd as <-. simpl. lia.
      * destruct (Valid.command_ok line); [|discriminate]. injection Hd as <-. lia.
Qed.

(** X4. In a script that validates, the loops are balanced: there are as
    many [end] lines as loop lines, and at every point of the script no more
    [end] lines than loop lines have been read. *)
Theorem validated_loops_balanced (script : string) (k : nat) :
  check_syntax script = [] ->
  length (List.filter (String.prefix "loop") (script_lines script))
  = length (List.filter (fun line => String.eqb line "end") (script_lines script))
  /\
  length (List.filter (fun line => String.eqb line "end") (take k (script_lines script)))
  <= length (List.filter (String.prefix "loop") (take k (script_lines script))).
Proof.
  intros Hclean. apply check_syntax_lines_clean in Hclean. split.
  - apply scan_counts in Hclean. lia.
  - rewrite <- (take_drop k (script_lines script)), scan_app in Hclean.
    destruct (Valid.scan (take k (script_lines script)) 0) as [d|] eqn:Hk;
      [|discriminate].
    apply scan_counts in Hk. lia.
Qed.

Lemma validated_loops_balanced_witness :
  check_syntax demo_nested = [] /\
  length (List.filter (String.prefix "loop") (script_lines demo_nested)) = 2 /\
  length (List.filter (fun line => String.eqb line "end")
            (take 4 (script_lines demo_nested)))
  <= length (List.filter (String.prefix "loop") (take 4 (script_lines demo_nested))).
Proof.
  assert (Hclean : check_syntax demo_nested = []) by (vm_compute; reflexivity).
  split; [exact Hclean|]. split; [vm_compute; reflexivity|].
  exact (proj2 (validated_loops_balanced demo_nested 4 Hclean)).
Defined.

(** What one line adds to the errors, and why. *)
Lemma check_line_new_error (n : nat) (line : string) (errs stack : list string) :
  exists more stack',
    check_line n line (errs, stack) = (errs ++ more, stack') /\
    forall e, e ∈ more ->
      (String.prefix "loop" line = true /\
       (forall t0 t1, PyStr.split line = [t0; t1] -> PyStr.isdigit t1 = false) /\
       e = msg_invalid_loop n line)
      \/ (line = "end" /\ stack = [] /\ e = msg_end_without_loop n line)
      \/ (String.prefix "loop" line = false /\ line <> "end" /\
          exists cmd_name user_values,
            PyStr.split line = cmd_name :: user_values /\
            ((FUNCTION_REGISTRY !! cmd_name = None /\ e = msg_unknown n line)
             \/ exists cmd_info,
                  FUNCTION_REGISTRY !! cmd_name = Some cmd_info /\
                  length user_values <> expected_user_args cmd_info /\
                  e = msg_wrong_args n cmd_name (expected_user_args cmd_info)
                        (length user_values) line)).
Proof.
  unfold check_line.
  assert (Hnone : forall s : list string, exists more stack',
            (errs, s) = (errs ++ more, stack') /\
            forall e, e ∈ more -> False).
  { intros s. exists [], s. rewrite app_nil_r. split; [reflexivity|].
    intros e He. apply elem_of_nil in He. exact He. }
  assert (Hweak : forall (s : list string) (P : string -> Prop),
            (exists more stack', (errs, s) = (errs ++ more, stack') /\
               forall e, e ∈ more -> False) ->
            exists more stack', (errs, s) = (errs ++ more, stack') /\
               forall e, e ∈ more -> P e).
  { intros s P (more & stack' & Heq & Hno). exists more, stack'.
    split; [exact Heq|]. intros e He. destruct (Hno e He). }
  destruct (String.prefix "loop" line) eqn:Hp.
  - assert (Hbad : (forall t0 t1, PyStr.split line = [t0; t1] -> PyStr.isdigit t1 = false) ->
              exists more stack',
                (errs ++ [msg_invalid_loop n line], stack) = (errs ++ more, stack') /\
                forall e, e ∈ more ->
                  (true = true /\
                   (forall t0 t1, PyStr.split line = [t0; t1] -> PyStr.isdigit t1 = false) /\
                   e = msg_invalid_loop n line)
                  \/ (line = "end" /\ stack = [] /\ e = msg_end_without_loop n line)
                  \/ (true = false /\ line <> "end" /\
                      exists cmd_name user_values,
                        PyStr.split line = cmd_name :: user_values /\
                        ((FUNCTION_REGISTRY !! cmd_name = None /\ e = msg_unknown n line)
                         \/ exists cmd_info,
                              FUNCTION_REGISTRY !! cmd_name = Some cmd_info /\
                              length user_values <> expected_user_args cmd_info /\
                              e = msg_wrong_args n cmd_name (expected_user_args cmd_info)
                                    (length user_values) line))).
    { intros Hb. exists [msg_invalid_loop n line], stack. split; [reflexivity|].
      intros e He. apply list_elem_of_singleton in He. left. auto. }
    destruct (PyStr.split line) as [|t0 [|t1 [|t2 ts]]] eqn:Hs;
      try (apply Hbad; intros; discriminate).
    destruct (PyStr.isdigit t1) eqn:Hd.
    + apply Hweak, Hnone.
    + apply Hbad. intros t0' t1' [= <- <-]. exact Hd.
  - destruct (String.eqb_spec line "end") as [-> | Hne].
    + destruct stack as [|m stack].
      * exists [msg_end_without_loop n "end"], []. split; [reflexivity|].
        intros e He. apply list_elem_of_singleton in He. right. left. auto.
      * apply Hweak, Hnone.
    + unfold check_command.
      destruct (PyStr.split line) as [|cmd_name user_values] eqn:Hs;
        [apply Hweak, Hnone|].
      destruct (FUNCTION_REGISTRY !! cmd_name) as [cmd_info|] eqn:Hreg.
      * destruct (length user_values =? expected_user_args cmd_info) eqn:Hn; simpl;
          [apply Hweak, Hnone|].
        apply Nat.eqb_neq in Hn. eexists _, stack. split; [reflexivity|].
        intros e He. apply list_elem_of_singleton in He. right. right.
        split; [reflexivity|]. split; [exact Hne|].
        exists cmd_name, user_values. split; [reflexivity|]. right.
        exists cmd_info. auto.
      * eexists _, stack. split; [reflexivity|].
        intros e He. apply list_elem_of_singleton in He. right. right.
        split; [reflexivity|]. split; [exact Hne|].
        exists cmd_name, user_values. split; [reflexivity|]. left. auto.
Qed.

(** Where each reported error comes from. *)
Lemma errors_are_justified (script e : string) :
  e ∈ check_syntax script ->
  (e = msg_unclosed /\ open_loops (script_lines script) <> [])
  \/ exists i line,
       script_lines script !! i = Some line /\
       ((String.prefix "loop" line = true /\
         (forall t0 t1, PyStr.split line = [t0; t1] -> PyStr.isdigit t1 = false) /\
         e = msg_invalid_loop (S i) line)
        \/ (line = "end" /\ open_loops (take i (script_lines script)) = [] /\
            e = msg_end_without_loop (S i) line)
        \/ (String.prefix "loop" line = false /\ line <> "end" /\
            exists cmd_name user_values,
              PyStr.split line = cmd_name :: user_values /\
              ((FUNCTION_REGISTRY !! cmd_name = None /\ e = msg_unknown (S i) line)
               \/ exists cmd_info,
                    FUNCTION_REGISTRY !! cmd_name = Some cmd_info /\
                    length user_values <> expected_user_args cmd_info /\
                    e = msg_wrong_args (S i) cmd_name (expected_user_args cmd_info)
                          (length user_values) line))).
Proof.
  unfold check_syntax. generalize (script_lines script) as lines. intros lines He.
  assert (Hlines : e ∈ (check_lines 1 lines ([], [])).1 \/
                   (e = msg_unclosed /\ open_loops lines <> [])).
  { unfold check_syntax_lines, open_loops in *.
    destruct (check_lines 1 lines ([], [])) as [errors stack]. simpl.
    destruct stack as [|m stack]; [auto|].
    apply elem_of_app in He as [He | He]; [auto|].
    apply list_elem_of_singleton in He. right. split; [exact He | discriminate]. }
  destruct Hlines as [Hin | Hun]; [|auto]. right. clear He.
  induction lines as [|line pre IH] using rev_ind.
  - simpl in Hin. apply elem_of_nil in Hin. destruct Hin.
  - rewrite check_lines_app in Hin. simpl in Hin.
    destruct (check_lines 1 pre ([], [])) as [errs stack] eqn:Hpre.
    destruct (check_line_new_error (S (length pre)) line errs stack)
      as (more & stack' & Hline & Hwhy).
    rewrite Hline in Hin. simpl in Hin.
    apply elem_of_app in Hin as [Hin | Hin].
    + destruct (IH Hin) as (i & l & Hi & Hcase).
      pose proof (lookup_lt_Some _ _ _ Hi) as Hlt.
      exists i, l. split; [rewrite lookup_app_l by exact Hlt; exact Hi|].
      rewrite take_app_le by lia. exact Hcase.
    + exists (length pre), line.
      split; [rewrite lookup_app_r, Nat.sub_diag by lia; reflexivity|].
      rewrite take_app_length. unfold open_loops. rewrite Hpre. simpl.
      exact (Hwhy e Hin).
Qed.

(** X5. Every error [check_syntax] returns is justified: it is the
    message of an unclosed loop, with a loop left open at the end, or the
    message, with the right line number, of a line that is a malformed loop
    line, an [end] with no loop open, an unknown command or a command with
    the wrong number of user tokens. *)
Theorem reported_errors_are_justified (script e : string) :
  e ∈ check_syntax script ->
  (e = msg_unclosed /\ open_loops (script_lines script) <> [])
  \/ exists i line,
       script_lines script !! i = Some line /\
       ((String.prefix "loop" line = true /\
         (forall t0 t1, PyStr.split line = [t0; t1] -> PyStr.isdigit t1 = false) /\
         e = msg_invalid_loop (S i) line)
        \/ (line = "end" /\ open_loops (take i (script_lines script)) = [] /\
            e = msg_end_without_loop (S i) line)
        \/ (String.prefix "loop" line = false /\ line <> "end" /\
            exists cmd_name user_values,
              PyStr.split line = cmd_name :: user_values /\
              ((FUNCTION_REGISTRY !! cmd_name = None /\ e = msg_unknown (S i) line)
               \/ exists cmd_info,
                    FUNCTION_REGISTRY !! cmd_name = Some cmd_info /\
                    length user_values <> expected_user_args cmd_info /\
                    e = msg_wrong_args (S i) cmd_name (expected_user_args cmd_info)
                          (length user_values) line))).
Proof. apply errors_are_justified. Qed.

Lemma reported_errors_are_justified_witness :
  "Line 2: 'end' without matching 'loop' → end" ∈ check_syntax demo_faulty /\
  ((("Line 2: 'end' without matching 'loop' → end" : string) = msg_unclosed /\
    open_loops (script_lines demo_faulty) <> [])
   \/ exists i line,
        script_lines demo_faulty !! i = Some line /\
        ((String.prefix "loop" line = true /\
          (forall t0 t1, PyStr.split line = [t0; t1] -> PyStr.isdigit t1 = false) /\
          "Line 2: 'end' without matching 'loop' → end" = msg_invalid_loop (S i) line)
         \/ (line = "end" /\ open_loops (take i (script_lines demo_faulty)) = [] /\
             "Line 2: 'end' without matching 'loop' → end"
             = msg_end_without_loop (S i) line)
         \/ (String.prefix "loop" line = false /\ line <> "end" /\
             exists cmd_name user_values,
               PyStr.split line = cmd_name :: user_values /\
               ((FUNCTION_REGISTRY !! cmd_name = None /\
                 "Line 2: 'end' without matching 'loop' → end" = msg_unknown (S i) line)
                \/ exists cmd_info,
                     FUNCTION_REGISTRY !! cmd_name = Some cmd_info /\
                     length user_values <> expected_user_args cmd_info /\
                     "Line 2: 'end' without matching 'loop' → end"
                     = msg_wrong_args (S i) cmd_name (expected_user_args cmd_info)
                         (length user_values) line)))).
Proof.
  assert (Hin : "Line 2: 'end' without matching 'loop' → end" ∈ check_syntax demo_faulty).
  { vm_compute. apply list_elem_of_further, list_elem_of_here. }
  split; [exact Hin|].
  exact (reported_errors_are_justified demo_faulty _ Hin).
Defined.

(** ** What the expansion holds *)

Section ExpansionContent.
Context `{Driver}.

Lemma Forall2_repeated {A B : Type} (R : A -> B -> Prop) (block : list A)
    (flat : list B) (n : nat) :
  Forall2 R block flat ->
  Forall2 R (concat (replicate n block)) (concat (replicate n flat)).
Proof.
  intros Hb. induction n as [|n IH]; simpl; [constructor|].
  apply Forall2_app; assumption.
Qed.

Lemma command_entry_cmd (line cmd_name : string) (user_values : list string)
    (entry : ParsedCommand) :
  PyStr.split line = cmd_name :: user_values ->
  command_entry line = Ok entry -> cmd entry = cmd_name.
Proof.
  intros Hs. unfold command_entry. rewrite Hs.
  destruct (FUNCTION_REGISTRY !! cmd_name) as [cmd_info|]; [|discriminate].
  destruct (resolve_args (args cmd_info) user_values 0 []) as [res| |]; simpl;
    try discriminate.
  destruct (bind_func (func cmd_info)) as [f| |]; simpl; try discriminate.
  intros [= <-]. reflexivity.
Qed.

(** What the loop of [_parse_block] returns on validated lines: the entries
    of the command lines of the nodes it read, the body of a loop count
    times over. *)
Lemma parse_block_expand (fuel : nat) :
  forall lines index result depth d res index',
  (forall line, line ∈ lines -> PyStr.split line <> []) ->
  Valid.scan (drop index lines) d = Some 0 ->
  _parse_block_loop fuel lines index result depth = Ok (res, index') ->
  exists block T,
    res = result ++ block /\
    Forall2 (Spec.resolves lines) block (Spec.flatten_seq T) /\
    match d with
    | O => forall cur, Spec.build_nodes (drop index lines) cur [] = cur ++ T
    | S d' =>
        Valid.scan (drop index' lines) d' = Some 0 /\
        forall cur c outer opened,
          Spec.build_nodes (drop index lines) cur ((c, outer) :: opened)
          = Spec.build_nodes (drop index' lines)
              (outer ++ [Spec.LoopNode c (cur ++ T)]) opened
    end.
Proof.
  induction fuel as [|fuel IH];
    intros lines index result depth d res index' Hnb Hscan; [discriminate|].
  rewrite parse_block_loop_S.
  destruct (lines !! index) as [line|] eqn:Hi.
  2:{ intros [= <- <-]. apply lookup_ge_None in Hi.
      rewrite drop_ge in Hscan by exact Hi. injection Hscan as ->.
      exists [], []. rewrite app_nil_r. split; [reflexivity|].
      split; [constructor|].
      intros cur. rewrite drop_ge by exact Hi. simpl. rewrite app_nil_r. reflexivity. }
  pose proof (list_elem_of_lookup_2 _ _ _ Hi) as Hin.
  rewrite (drop_S _ _ _ Hi) in Hscan |- *. simpl in Hscan.
  destruct (Valid.line_depth line d) as [d1|] eqn:Hd; [|discriminate].
  unfold Valid.line_depth in Hd. simpl Spec.build_nodes.
  replace (index + 1) with (S index) by lia.
  destruct (String.prefix "loop" line) eqn:Hp.
  - destruct (Valid.loop_ok line) eqn:Hok; [|discriminate]. injection Hd as <-.
    unfold Valid.loop_ok in Hok.
    destruct (PyStr.split line) as [|t0 [|t1 [|t2 ts]]] eqn:Hsplit; try discriminate.
    destruct (PyStr.int t1) as [count| |] eqn:Hint; cbn [mbind outcome_bind];
      try discriminate.
    assert (Hlc : Spec.loop_count line = count).
    { unfold Spec.loop_count. rewrite Hsplit, Hint. reflexivity. }
    rewrite Hlc.
    destruct (recursion_limit <=? depth); cbn [mbind outcome_bind];
      try discriminate.
    destruct (_parse_block_loop fuel lines (S index) [] (S depth))
      as [[block1 index1]| |] eqn:Hr1;
      cbn [mbind outcome_bind]; try discriminate.
    destruct (list_mul block1 count) as [repeated| |] eqn:Hmul;
      cbn [mbind outcome_bind]; try discriminate.
    apply list_mul_ok in Hmul. subst repeated.
    intros Hr2.
    destruct (IH lines (S index) [] (S depth) (S d) block1 index1 Hnb Hscan Hr1)
      as (b1 & T1 & Hb1 & Hf1 & Hs1 & Hbuild1).
    simpl in Hb1. subst b1.
    destruct (IH lines index1 (result ++ concat (replicate (Z.to_nat count) block1))
                depth d res index' Hnb Hs1 Hr2)
      as (block2 & T2 & -> & Hf2 & Hrest).
    exists (concat (replicate (Z.to_nat count) block1) ++ block2),
      (Spec.LoopNode count T1 :: T2).
    rewrite <- app_assoc. split; [reflexivity|]. split.
    { unfold Spec.flatten_seq. simpl. apply Forall2_app; [|exact Hf2].
      apply Forall2_repeated, Hf1. }
    destruct d as [|d'].
    + intros cur. rewrite Hbuild1, Hrest. simpl. rewrite <- app_assoc. reflexivity.
    + destruct Hrest as (Hs2 & Hbuild2). split; [exact Hs2|].
      intros cur c outer opened. rewrite Hbuild1, Hbuild2. simpl.
      rewrite <- app_assoc. reflexivity.
  - destruct (String.eqb line "end") eqn:He.
    + destruct d as [|d']; [discriminate|]. injection Hd as <-.
      intros [= <- <-]. exists [], []. rewrite app_nil_r.
      split; [reflexivity|]. split; [constructor|]. split; [exact Hscan|].
      intros cur c outer opened. rewrite app_nil_r. reflexivity.
    + destruct (Valid.command_ok line) eqn:Hok; [|discriminate]. injection Hd as <-.
      destruct (PyStr.split line) as [|cmd_name user_values] eqn:Hsplit;
        [destruct (Hnb line Hin Hsplit)|].
      destruct (command_entry line) as [entry| |] eqn:He'; simpl; try discriminate.
      intros Hr.
      destruct (IH lines (S index) (result ++ [entry]) depth d res index'
                  Hnb Hscan Hr)
        as (block & T & -> & Hf & Hrest).
      exists (entry :: block), (Spec.command_node line :: T).
      rewrite <- app_assoc. split; [reflexivity|]. split.
      { unfold Spec.flatten_seq, Spec.command_node. rewrite Hsplit. simpl.
        constructor; [|exact Hf]. exists line. auto. }
      destruct d as [|d'].
      * intros cur. rewrite Hrest, <- app_assoc. reflexivity.
      * destruct Hrest as (Hs & Hbuild). split; [exact Hs|].
        intros cur c outer opened. rewrite Hbuild, <- app_assoc. reflexivity.
Qed.

(** X6. The command sequence [parse_commands] returns for a script that
    validates is the sequence of the command lines of its nodes, in order,
    the body of each loop count times over: each command is the entry one
    of these lines resolves to, and the names of the commands are the names
    on these lines. *)
Theorem expansion_is_flattening (self : iface) (script : string)
    (commands : list ParsedCommand) (errors : list string) :
  check_syntax script = [] ->
  parse_commands self script = Ok (Some commands, errors) ->
  Forall2 (Spec.resolves (script_lines script)) commands
    (Spec.flatten_seq (Spec.script_nodes (script_lines script)))
  /\ map cmd commands
     = map fst (Spec.flatten_seq (Spec.script_nodes (script_lines script))).
Proof.
  intros Hclean. unfold parse_commands, _parse_block. rewrite Hclean.
  destruct (has_nanonis self); [|discriminate].
  destruct (_parse_block_loop (_parse_block_fuel (script_lines script))
              (script_lines script) 0 [] 0) as [[block index']| |] eqn:Hr;
    simpl; try discriminate.
  intros [= <- _].
  destruct (parse_block_expand _ _ 0 [] 0 0 block index'
              (script_lines_nonblank script)
              ltac:(rewrite drop_0; apply check_syntax_lines_clean, Hclean) Hr)
    as (b & T & -> & Hf & Hbuild).
  specialize (Hbuild []). rewrite drop_0 in Hbuild.
  unfold Spec.script_nodes. rewrite Hbuild. simpl.
  split; [exact Hf|].
  clear Hr Hbuild. induction Hf as [|entry named b flat (line & _ & Hs & He) _ IH];
    [reflexivity|].
  simpl. rewrite IH, (command_entry_cmd line _ _ entry Hs He). reflexivity.
Qed.

End ExpansionContent.

Lemma expansion_is_flattening_witness :
  check_syntax demo_nested = [] /\
  exists commands,
    parse_commands (H := demo_driver) demo_iface demo_nested = Ok (Some commands, []) /\
    map cmd commands
    = ["wait"; "bias.Get"; "bias.Get"; "bias.Get";
       "wait"; "bias.Get"; "bias.Get"; "bias.Get"; "fb.Get"].
Proof.
  assert (Hclean : check_syntax demo_nested = []) by (vm_compute; reflexivity).
  split; [exact Hclean|].
  assert (Hparse : exists commands,
            parse_commands (H := demo_driver) demo_iface demo_nested
            = Ok (Some commands, [])) by (eexists; vm_compute; reflexivity).
  destruct Hparse as [commands Hp].
  exists commands. split; [exact Hp|].
  rewrite (proj2 (expansion_is_flattening (H := demo_driver) demo_iface demo_nested
                    commands [] Hclean Hp)).
  vm_compute. reflexivity.
Defined.

(** ** What can go wrong after validation *)

Section AfterValidation.
Context `{Driver}.




(** X8. [parse_commands] reads the interface only through [self.nanonis].
    Before any successful [connect], a script that validates raises
    [AttributeError]: the worker emits no signal and [execute] raises, while
    syntax errors are still reported. Once [connect] has succeeded,
    [disconnect] or a later failed [connect] do not change what
    [parse_commands] returns. *)
Theorem parsing_needs_nanonis_attribute (self : iface) (script : string)
    (cancelScript : nat -> bool) (w : World) :
  (has_nanonis self = false -> check_syntax script = [] ->
     parse_commands self script = Raise AttributeError /\
     runScriptThread.run self script cancelScript w = ([], w, Raise AttributeError) /\
     ScriptingInterface.execute self script w = (Raise AttributeError, w))
  /\ (has_nanonis self = false -> check_syntax script <> [] ->
      parse_commands self script = Ok (None, check_syntax script))
  /\ parse_commands (disconnect (connect true self)) script
     = parse_commands (connect true self) script
  /\ parse_commands (connect false (connect true self)) script
     = parse_commands (connect true self) script.
Proof.
  split; [|split; [|split]].
  - intros Hself Hclean.
    assert (Hp : parse_commands self script = Raise AttributeError).
    { unfold parse_commands, _parse_block. rewrite Hclean, Hself. reflexivity. }
    split; [exact Hp|]. split.
    + unfold runScriptThread.run. rewrite Hp. reflexivity.
    + unfold ScriptingInterface.execute. rewrite Hp. reflexivity.
  - intros _ Hne. apply parse_commands_errors, Hne.
  - reflexivity.
  - reflexivity.
Qed.

End AfterValidation.


Lemma parsing_needs_nanonis_attribute_witness :
  has_nanonis ScriptingInterface.init = false /\
  check_syntax "wait 1" = [] /\
  runScriptThread.run (H := demo_driver) ScriptingInterface.init "wait 1"
    (fun _ => false) 0
  = ([], 0, Raise AttributeError).
Proof.
  split; [reflexivity|]. split; [vm_compute; reflexivity|].
  apply (proj1 (parsing_needs_nanonis_attribute (H := demo_driver)
                  ScriptingInterface.init "wait 1" (fun _ => false) 0));
    [reflexivity | vm_compute; reflexivity].
Defined.

(** ** The registry *)

Lemma registry_keys_distinct : NoDup (map fst registry_entries).
Proof. apply (bool_decide_unpack _). vm_compute. exact I. Qed.

Lemma registry_entry_lookup (name : string) (info : CommandSpec) :
  (name, info) ∈ registry_entries <-> FUNCTION_REGISTRY !! name = Some info.
Proof. apply elem_of_list_to_map, registry_keys_distinct. Qed.

(** X9. No command of the registry is shadowed by another entry of the same
    name: each entry written in the dict literal is the one its name looks
    up; and the editor offers for completion exactly [loop], [end] and the
    registered names, each once. *)
Theorem registry_entries_are_live :
  (forall name info,
     (name, info) ∈ registry_entries <-> FUNCTION_REGISTRY !! name = Some info)
  /\ (forall name,
        name ∈ TextEditAutoComplete.getCmdList <->
        name = "loop" \/ name = "end" \/ is_Some (FUNCTION_REGISTRY !! name))
  /\ NoDup TextEditAutoComplete.getCmdList.
Proof.
  split; [exact registry_entry_lookup|]. split.
  - intros name. unfold TextEditAutoComplete.getCmdList.
    rewrite elem_of_app, list_elem_of_fmap. split.
    + intros [Hkw | ([k info] & -> & Hin)].
      * apply elem_of_cons in Hkw as [-> | Hkw]; [auto|].
        apply list_elem_of_singleton in Hkw. auto.
      * right. right. exists info. apply registry_entry_lookup, Hin.
    + intros [-> | [-> | [info Hl]]].
      * left. apply list_elem_of_here.
      * left. apply list_elem_of_further, list_elem_of_here.
      * right. exists (name, info). split; [reflexivity|].
        apply registry_entry_lookup, Hl.
  - apply (bool_decide_unpack _). vm_compute. exact I.
Qed.

(** Every name of the registry is a token that the validator reads as a
    command, whatever follows it on the line. *)
Lemma registry_names_are_commands (name : string) (info : CommandSpec) :
  FUNCTION_REGISTRY !! name = Some info ->
  PyStr.is_token name = true /\
  forall rest, String.prefix "loop" (name +:+ rest) = false /\
               String.eqb (name +:+ rest) "end" = false.
Proof.
  intros Hl. apply registry_lookup_entry in Hl.
  assert (Hall : Forall (fun kv : string * CommandSpec =>
                           PyStr.is_token kv.1 = true /\
                           forall rest, String.prefix "loop" (kv.1 +:+ rest) = false /\
                                        String.eqb (kv.1 +:+ rest) "end" = false)
                   registry_entries).
  { unfold registry_entries.
    repeat (apply Forall_cons; split;
            [split; [reflexivity | intros rest; split; reflexivity]|]).
    apply Forall_nil_2. }
  rewrite Forall_forall in Hall. exact (Hall _ Hl).
Qed.

Lemma join_cons (sep x : string) (rest : list string) :
  PyStr.join sep (x :: rest)
  = x +:+ match rest with [] => "" | _ :: _ => sep +:+ PyStr.join sep rest end.
Proof. destruct rest; simpl; [rewrite append_nil_r|]; reflexivity. Qed.

Lemma rstrip_append_fixed (a b : string) :
  PyStr.rstrip b = b -> PyStr.is_empty b = false ->
  PyStr.rstrip (a +:+ b) = a +:+ b.
Proof.
  intros Hb Hne. induction a as [|c a IH]; [exact Hb|].
  rewrite append_cons. simpl. rewrite IH.
  rewrite is_empty_append, Hne, andb_false_r. reflexivity.
Qed.

Lemma is_token_head (t : string) :
  PyStr.is_token t = true ->
  exists c r, t = String c r /\ PyStr.isspace c = false.
Proof.
  destruct t as [|c r]; [discriminate|]. unfold PyStr.is_token.
  intros [_ [Hc _]%andb_true_iff]%andb_true_iff. apply negb_true_iff in Hc.
  exists c, r. split; [reflexivity | exact Hc].
Qed.

(** Tokens joined by single spaces: a stripped line without line boundary
    that splits back into the tokens. *)
Lemma join_tokens (tokens : list string) :
  Forall (fun t => PyStr.is_token t = true) tokens ->
  PyStr.split (PyStr.join " " tokens) = tokens /\
  PyStr.no_break (PyStr.join " " tokens) = true /\
  PyStr.rstrip (PyStr.join " " tokens) = PyStr.join " " tokens /\
  PyStr.lstrip (PyStr.join " " tokens) = PyStr.join " " tokens /\
  (tokens <> [] -> PyStr.is_empty (PyStr.join " " tokens) = false).
Proof.
  induction 1 as [|t rest Ht Hrest (IHs & IHb & IHr & IHl & IHe)].
  - repeat split; try reflexivity. congruence.
  - pose proof Ht as [Hne Hsp]%andb_true_iff. apply negb_true_iff in Hne.
    destruct (is_token_head t Ht) as (c & r & Ht' & Hc).
    destruct rest as [|t' rest'].
    + simpl. split; [apply split_go_last_token, Ht|].
      split; [apply no_space_no_break, Hsp|].
      split; [apply rstrip_no_space, Hsp|].
      split; [apply lstrip_no_space, Hsp | intros _; exact Hne].
    + change (PyStr.join " " (t :: t' :: rest'))
        with (t +:+ String " " (PyStr.join " " (t' :: rest'))).
      split; [|split; [|split; [|split]]].
      * unfold PyStr.split. rewrite split_go_token by exact Hsp.
        change ("" +:+ t) with t.
        change (PyStr.split_go t (String " " (PyStr.join " " (t' :: rest'))))
          with ((if PyStr.is_empty t then [] else [t])
                ++ PyStr.split (PyStr.join " " (t' :: rest'))).
        rewrite Hne, IHs. reflexivity.
      * rewrite no_break_append, (no_space_no_break _ Hsp). simpl. exact IHb.
      * change (t +:+ String " " (PyStr.join " " (t' :: rest')))
          with (t +:+ " " +:+ PyStr.join " " (t' :: rest')).
        rewrite <- append_assoc. apply rstrip_append_fixed; [exact IHr|].
        apply IHe. discriminate.
      * rewrite Ht', append_cons. simpl. rewrite Hc. reflexivity.
      * intros _. rewrite is_empty_append, Hne. reflexivity.
Qed.

(** X10. Every registered command can be written: its name followed by as
    many tokens as its entry has userSupplied slots, separated by single
    spaces, is a script that validates. *)
Theorem registered_command_line_validates (name : string) (info : CommandSpec)
    (tokens : list string) :
  FUNCTION_REGISTRY !! name = Some info ->
  Forall (fun t => PyStr.is_token t = true) tokens ->
  length tokens = expected_user_args info ->
  script_lines (PyStr.join " " (name :: tokens)) = [PyStr.join " " (name :: tokens)]
  /\ PyStr.split (PyStr.join " " (name :: tokens)) = name :: tokens
  /\ check_syntax (PyStr.join " " (name :: tokens)) = [].
Proof.
  intros Hreg Htok Hlen.
  destruct (registry_names_are_commands name info Hreg) as [Hname Hcmd].
  destruct (join_tokens (name :: tokens)) as (Hs & Hb & Hr & Hl & He);
    [constructor; assumption|].
  assert (Hlines : script_lines (PyStr.join " " (name :: tokens))
                   = [PyStr.join " " (name :: tokens)]).
  { apply script_lines_single; [exact Hb | | apply He; discriminate].
    unfold PyStr.strip. rewrite Hl. exact Hr. }
  split; [exact Hlines|]. split; [exact Hs|].
  unfold check_syntax. rewrite Hlines.
  unfold check_syntax_lines. cbn [check_lines]. unfold check_line.
  rewrite join_cons. destruct (Hcmd (match tokens with
                                     | [] => ""
                                     | _ :: _ => " " +:+ PyStr.join " " tokens
                                     end)) as [-> ->].
  unfold check_command. rewrite <- join_cons, Hs, Hreg.
  apply Nat.eqb_eq in Hlen. rewrite Hlen. reflexivity.
Qed.

Lemma registered_command_line_validates_witness :
  script_lines "drift.Set 1 0.5 -0.5 2" = ["drift.Set 1 0.5 -0.5 2"] /\
  PyStr.split "drift.Set 1 0.5 -0.5 2" = ["drift.Set"; "1"; "0.5"; "-0.5"; "2"] /\
  check_syntax "drift.Set 1 0.5 -0.5 2" = [].
Proof.
  apply (registered_command_line_validates "drift.Set"
           (mkCmd "Nanonis.Piezo_DriftCompSet"
              [mkArg "Compensation status" uint32 (LInt 1) true;
               mkArg "Vx (m/s)" float32 (LFloat "0.0") true;
               mkArg "Vy (m/s)" float32 (LFloat "0.0") true;
               mkArg "Vz (m/s)" float32 (LFloat "0.0") true;
               mkArg "Saturation limit (%)" float32 (LFloat "10.0") false])
           ["1"; "0.5"; "-0.5"; "2"]).
  - vm_compute. reflexivity.
  - repeat constructor.
  - reflexivity.
Defined.

(** ** Runs that are cancelled, resumed or broken off *)

Section Runs.
Context `{Driver}.

Import runScriptThread.

Lemma execute_loop_not_cancelled (cancelScript : nat -> bool)
    (commands : list ParsedCommand) : forall i w w' results,
  returns (Reached.not_cancelled cancelScript i commands) w results w' ->
  execute_loop cancelScript i commands w
  = (flat_map (fun er : ParsedCommand * ExecutionResult =>
                 Called er.1 :: log_entries er.1 er.2)
       (zip (Reached.not_cancelled cancelScript i commands) results), w', Ok tt).
Proof.
  induction commands as [|entry rest IH]; intros i w w' results Hret; simpl in *.
  - inversion Hret; subst. reflexivity.
  - destruct (cancelScript i) eqn:Hc; [apply IH, Hret|].
    inversion Hret as [|? ? ? w1 ? r results' Hcall Hrest]; subst.
    rewrite Hcall, (IH (S i) w1 w' results' Hrest). reflexivity.
Qed.

(** X11. The loop of the worker has no [break]: the commands called are
    exactly those before which the flag is read clear, in order. A command
    reached while the flag is set is skipped, and if the flag is cleared
    again (the run button pressed during the run) the commands after it are
    executed. When the commands called all return, the run emits 'Running',
    their calls and log entries, and 'Finished'. *)
Theorem run_executes_uncancelled_commands (cancelScript : nat -> bool)
    (commands : list ParsedCommand) (w w' : World) (results : list ExecutionResult) :
  returns (Reached.not_cancelled cancelScript 0 commands) w results w' ->
  execute cancelScript commands w
  = (Emit (scriptStatus "Running")
       :: flat_map (fun er : ParsedCommand * ExecutionResult =>
                      Called er.1 :: log_entries er.1 er.2)
            (zip (Reached.not_cancelled cancelScript 0 commands) results)
       ++ [Emit (scriptStatus "Finished")],
     w', Ok tt).
Proof.
  intros Hret. unfold execute.
  rewrite (execute_loop_not_cancelled cancelScript commands 0 w w' results Hret).
  reflexivity.
Qed.

Lemma execute_loop_raises (cancelScript : nat -> bool)
    (commands : list ParsedCommand) : forall i done bad later w w1 w2 results e,
  Reached.not_cancelled cancelScript i commands = done ++ bad :: later ->
  returns done w results w1 ->
  call bad w1 = (Raise e, w2) ->
  execute_loop cancelScript i commands w
  = (flat_map (fun er : ParsedCommand * ExecutionResult =>
                 Called er.1 :: log_entries er.1 er.2) (zip done results)
     ++ [Called bad], w2, Raise e).
Proof.
  induction commands as [|entry rest IH];
    intros i done bad later w w1 w2 results e Hsel Hret Hbad; simpl in *.
  - destruct done; discriminate.
  - destruct (cancelScript i) eqn:Hc; [eapply IH; eassumption|].
    destruct done as [|d done'].
    + simpl in Hsel. injection Hsel as -> _.
      inversion Hret; subst. rewrite Hbad. reflexivity.
    + simpl in Hsel. injection Hsel as -> Hsel.
      inversion Hret as [|? ? ? w0 ? r results' Hcall Hrest]; subst.
      rewrite Hcall, (IH (S i) done' bad later w0 w1 w2 results' e Hsel Hrest Hbad).
      cbn [zip zip_with flat_map fst snd]. rewrite <- app_assoc. reflexivity.
Qed.

(** X12. When a command function raises, the run of the worker ends there:
    the commands called before it have their log entries, the failing call
    has none, no later command is called and the status 'Finished' is not
    emitted. *)
Theorem run_breaks_off_at_exception (cancelScript : nat -> bool)
    (commands done later : list ParsedCommand) (bad : ParsedCommand)
    (w w1 w2 : World) (results : list ExecutionResult) (e : exn) :
  Reached.not_cancelled cancelScript 0 commands = done ++ bad :: later ->
  returns done w results w1 ->
  call bad w1 = (Raise e, w2) ->
  execute cancelScript commands w
  = (Emit (scriptStatus "Running")
       :: flat_map (fun er : ParsedCommand * ExecutionResult =>
                      Called er.1 :: log_entries er.1 er.2) (zip done results)
       ++ [Called bad],
     w2, Raise e)
  /\ Emit (scriptStatus "Finished") ∉ (execute cancelScript commands w).1.1.
Proof.
  intros Hsel Hret Hbad.
  assert (Hrun : execute cancelScript commands w
    = (Emit (scriptStatus "Running")
         :: flat_map (fun er : ParsedCommand * ExecutionResult =>
                        Called er.1 :: log_entries er.1 er.2) (zip done results)
         ++ [Called bad], w2, Raise e)).
  { unfold execute.
    rewrite (execute_loop_raises cancelScript commands 0 done bad later
               w w1 w2 results e Hsel Hret Hbad). reflexivity. }
  split; [exact Hrun|]. rewrite Hrun. simpl.
  intros Hin. apply elem_of_cons in Hin as [Hin | Hin]; [discriminate|].
  apply elem_of_app in Hin as [Hin | Hin].
  - apply list_elem_of_In, in_flat_map in Hin as ([c r] & _ & Hin).
    simpl in Hin. destruct Hin as [Hin | Hin]; [discriminate|].
    unfold log_entries in Hin. simpl in Hin.
    destruct Hin as [Hin | Hin]; [discriminate|].
    destruct (0 <? length (variables r)); simpl in Hin;
      [destruct Hin as [Hin | []]; discriminate | destruct Hin].
  - apply list_elem_of_singleton in Hin. discriminate.
Qed.

(** X13. [ScriptingInterface.execute] calls the commands in order and
    stops at the first one that raises: the exception is what [execute]
    raises, in the state that call leaves, and no later command is
    called. *)
Theorem execute_stops_at_exception (self : iface) (script : string)
    (done later : list ParsedCommand) (bad : ParsedCommand)
    (w w1 w2 : World) (results : list ExecutionResult) (e : exn) :
  parse_commands self script = Ok (Some (done ++ bad :: later), []) ->
  returns done w results w1 ->
  call bad w1 = (Raise e, w2) ->
  ScriptingInterface.execute self script w = (Raise e, w2).
Proof.
  intros Hp Hret Hbad. unfold ScriptingInterface.execute. rewrite Hp.
  rewrite (execute_loop_returns done w w1 results Hret). simpl.
  rewrite Hbad. reflexivity.
Qed.

End Runs.

Lemma run_executes_uncancelled_commands_witness :
  returns (H := demo_driver)
    (Reached.not_cancelled (AunisUI.cancel_reads Reached.stop_then_run) 0
       [demo_get; demo_set; demo_wait]) 0
    [demo_get_result; mkResult "" "" []] 1 /\
  runScriptThread.execute (H := demo_driver)
    (AunisUI.cancel_reads Reached.stop_then_run) [demo_get; demo_set; demo_wait] 0
  = ([runScriptThread.Emit (runScriptThread.scriptStatus "Running");
      runScriptThread.Called demo_get;
      runScriptThread.Emit (runScriptThread.logSignal "Request" "bias.Get " "OK");
      runScriptThread.Emit (runScriptThread.logSignal "Response" "[0.5]" "");
      runScriptThread.Called demo_wait;
      runScriptThread.Emit (runScriptThread.logSignal "Request" "wait 1" "OK");
      runScriptThread.Emit (runScriptThread.scriptStatus "Finished")],
     1, Ok tt).
Proof.
  assert (Hret : returns (H := demo_driver)
            (Reached.not_cancelled (AunisUI.cancel_reads Reached.stop_then_run) 0
               [demo_get; demo_set; demo_wait]) 0
            [demo_get_result; mkResult "" "" []] 1).
  { simpl. apply (returns_cons (H := demo_driver) _ _ 0 1 1); [reflexivity|].
    apply (returns_cons (H := demo_driver) _ _ 1 1 1); [reflexivity|]. constructor. }
  split; [exact Hret|].
  exact (run_executes_uncancelled_commands (H := demo_driver) _ _ _ _ _ Hret).
Defined.

Lemma run_breaks_off_at_exception_witness :
  runScriptThread.execute (H := demo_driver) (fun _ => false)
    [demo_get;
     mkEntry "xy.Set" (mkBound "ScriptingInterface.setZ" (Some SelfInst))
       [VNp float64 "1"; VNp float64 "2"];
     demo_wait] 0
  = ([runScriptThread.Emit (runScriptThread.scriptStatus "Running");
      runScriptThread.Called demo_get;
      runScriptThread.Emit (runScriptThread.logSignal "Request" "bias.Get " "OK");
      runScriptThread.Emit (runScriptThread.logSignal "Response" "[0.5]" "");
      runScriptThread.Called
        (mkEntry "xy.Set" (mkBound "ScriptingInterface.setZ" (Some SelfInst))
           [VNp float64 "1"; VNp float64 "2"])],
     1, Raise TypeError).
Proof.
  refine (proj1 (run_breaks_off_at_exception (H := demo_driver) (fun _ => false)
                   [demo_get;
                    mkEntry "xy.Set" (mkBound "ScriptingInterface.setZ" (Some SelfInst))
                      [VNp float64 "1"; VNp float64 "2"];
                    demo_wait]
                   [demo_get] [demo_wait]
                   (mkEntry "xy.Set" (mkBound "ScriptingInterface.setZ" (Some SelfInst))
                      [VNp float64 "1"; VNp float64 "2"])
                   0 1 1 [demo_get_result] TypeError _ _ _)).
  - reflexivity.
  - apply (returns_cons (H := demo_driver) _ _ 0 1 1); [reflexivity | constructor].
  - reflexivity.
Defined.

Lemma execute_stops_at_exception_witness :
  ScriptingInterface.execute (H := demo_driver) demo_iface
    ("bias.Get" +:+ PyStr.nl +:+ "xy.Set 1 2" +:+ PyStr.nl +:+ "wait 1") 0
  = (Raise TypeError, 1).
Proof.
  apply (execute_stops_at_exception (H := demo_driver) demo_iface _
           [demo_get] [demo_wait]
           (mkEntry "xy.Set" (mkBound "ScriptingInterface.setZ" (Some SelfInst))
              [VNp float64 "1"; VNp float64 "2"])
           0 1 1 [demo_get_result] TypeError).
  - vm_compute. reflexivity.
  - apply (returns_cons (H := demo_driver) _ _ 0 1 1); [reflexivity | constructor].
  - reflexivity.
Defined.

(** ** The replies and the requests of the remote client *)

Lemma split_on_go_length (sep : ascii) (s : string) : forall cur,
  length (PyStr.split_on_go sep cur s) = S (PyStr.count sep s).
Proof.
  induction s as [|c s IH]; intros cur; simpl; [reflexivity|].
  destruct (Ascii.eqb c sep); simpl; rewrite IH; reflexivity.
Qed.

Lemma count_append (c : ascii) (a b : string) :
  PyStr.count c (a +:+ b) = PyStr.count c a + PyStr.count c b.
Proof.
  induction a as [|d a IH]; [reflexivity|].
  rewrite append_cons. simpl. rewrite IH. lia.
Qed.

(** Joining the fields with the separator gives the text back. *)
Lemma split_on_go_join (sep : ascii) (s : string) : forall cur,
  PyStr.join (String sep "") (PyStr.split_on_go sep cur s) = cur +:+ s.
Proof.
  induction s as [|c s IH]; intros cur; simpl.
  - rewrite append_nil_r. reflexivity.
  - destruct (Ascii.eqb_spec c sep) as [-> | Hne].
    + rewrite join_cons, IH.
      pose proof (split_on_go_length sep s "") as Hl.
      destruct (PyStr.split_on_go sep "" s); [discriminate|]. reflexivity.
    + rewrite IH, snoc_append. reflexivity.
Qed.

(** No field holds the separator. *)
Lemma split_on_go_fields (sep : ascii) (s : string) : forall cur,
  PyStr.count sep cur = 0 ->
  Forall (fun field => PyStr.count sep field = 0) (PyStr.split_on_go sep cur s).
Proof.
  induction s as [|c s IH]; intros cur Hcur; simpl.
  - constructor; [exact Hcur | constructor].
  - destruct (Ascii.eqb c sep) eqn:Hc.
    + constructor; [exact Hcur | apply IH; reflexivity].
    + apply IH. unfold PyStr.snoc. rewrite count_append, Hcur. simpl.
      rewrite Hc. reflexivity.
Qed.

(** X14. A reply is reported as malformed exactly when its stripped text
    does not hold two bars: then the result is the error "Malformed
    response", the stripped text and no variable. With two bars the text is
    its three fields joined by bars, none of which holds a bar, and the
    result is made of these fields. *)
Theorem query_malformed_iff_not_two_bars (text : string) :
  (PyStr.count "|" (PyStr.strip text) <> 2 ->
   TCPClient.query (TCPClient.Received text)
   = (TCPClient.PStr "Malformed response", PyStr.strip text, []))
  /\
  (PyStr.count "|" (PyStr.strip text) = 2 ->
   exists p0 p1 p2,
     PyStr.strip text = p0 +:+ "|" +:+ p1 +:+ "|" +:+ p2 /\
     PyStr.count "|" p0 = 0 /\ PyStr.count "|" p1 = 0 /\ PyStr.count "|" p2 = 0 /\
     TCPClient.query (TCPClient.Received text)
     = (TCPClient.PList [if String.eqb p0 "None" then "" else p0],
        if String.eqb p1 "None" then "" else p1,
        if String.eqb p2 "None" then [] else PyStr.split_on "," p2)).
Proof.
  pose proof (split_on_go_length "|" (PyStr.strip text) "") as Hlen.
  pose proof (split_on_go_join "|" (PyStr.strip text) "") as Hjoin.
  pose proof (split_on_go_fields "|" (PyStr.strip text) "" eq_refl) as Hfields.
  simpl TCPClient.query. unfold TCPClient.query_reply, PyStr.split_on.
  destruct (PyStr.split_on_go "|" "" (PyStr.strip text))
    as [|p0 [|p1 [|p2 [|p3 rest]]]]; simpl in Hlen; split; intros Hc;
    try reflexivity; try lia.
  exists p0, p1, p2.
  apply Forall_cons in Hfields as [H0 Hfields].
  apply Forall_cons in Hfields as [H1 Hfields].
  apply Forall_cons in Hfields as [H2 _].
  split; [symmetry; exact Hjoin|]. auto.
Qed.

Lemma query_malformed_iff_not_two_bars_witness :
  PyStr.count "|" (PyStr.strip "a|b|c|d") <> 2 /\
  TCPClient.query (TCPClient.Received "a|b|c|d")
  = (TCPClient.PStr "Malformed response", "a|b|c|d", []).
Proof.
  assert (Hc : PyStr.count "|" (PyStr.strip "a|b|c|d") <> 2)
    by (vm_compute; discriminate).
  split; [exact Hc|].
  exact (proj1 (query_malformed_iff_not_two_bars "a|b|c|d") Hc).
Defined.

(** X15. When the third field of a well-formed reply is not [None], the
    variables are that field cut at its commas: one more variable than
    commas, none holding a comma, and joined by commas they give the field
    back. The list is then never empty: an empty third field yields one
    empty variable. *)
Theorem query_variables_round_trip (text p0 p1 p2 : string) :
  PyStr.split_on "|" (PyStr.strip text) = [p0; p1; p2] ->
  p2 <> "None" ->
  let variable := (TCPClient.query (TCPClient.Received text)).2 in
  length variable = S (PyStr.count "," p2) /\
  PyStr.join "," variable = p2 /\
  Forall (fun v => PyStr.count "," v = 0) variable.
Proof.
  intros Hs Hne. simpl. unfold TCPClient.query_reply. rewrite Hs.
  apply String.eqb_neq in Hne. rewrite Hne. simpl. unfold PyStr.split_on.
  split; [apply split_on_go_length|].
  split; [apply (split_on_go_join "," p2 "") | apply split_on_go_fields; reflexivity].
Qed.

Lemma query_variables_round_trip_witness :
  PyStr.split_on "|" (PyStr.strip "None|OK|") = ["None"; "OK"; ""] /\
  length (TCPClient.query (TCPClient.Received "None|OK|")).2 = 1 /\
  PyStr.join "," (TCPClient.query (TCPClient.Received "None|OK|")).2 = "".
Proof.
  split; [reflexivity|].
  destruct (query_variables_round_trip "None|OK|" "None" "OK" "" eq_refl
              ltac:(discriminate)) as (Hl & Hj & _).
  split; [exact Hl | exact Hj].
Defined.

Lemma split_go_join_line_feed (tokens : list string) :
  Forall (fun t => PyStr.is_token t = true) tokens ->
  PyStr.split_go "" (PyStr.join " " tokens +:+ PyStr.nl) = tokens.
Proof.
  induction 1 as [|t rest Ht Hrest IH]; [reflexivity|].
  pose proof Ht as [Hne Hsp]%andb_true_iff. apply negb_true_iff in Hne.
  destruct rest as [|t' rest'].
  - simpl PyStr.join. rewrite split_go_token by exact Hsp.
    change ("" +:+ t) with t. simpl. rewrite Hne. reflexivity.
  - change (PyStr.join " " (t :: t' :: rest') +:+ PyStr.nl)
      with ((t +:+ String " " (PyStr.join " " (t' :: rest'))) +:+ PyStr.nl).
    rewrite append_assoc, split_go_token by exact Hsp.
    change ("" +:+ t) with t. rewrite append_cons.
    change (PyStr.split_go t
              (String " " (PyStr.join " " (t' :: rest') +:+ PyStr.nl)))
      with ((if PyStr.is_empty t then [] else [t])
            ++ PyStr.split_go "" (PyStr.join " " (t' :: rest') +:+ PyStr.nl)).
    rewrite Hne, IH. reflexivity.
Qed.

Lemma splitlines_go_line (line : string) : forall cur,
  PyStr.no_break line = true ->
  PyStr.splitlines_go cur (line +:+ PyStr.nl) = [cur +:+ line].
Proof.
  induction line as [|c line IH]; intros cur Hb.
  - rewrite append_nil_r. reflexivity.
  - simpl in Hb. apply andb_true_iff in Hb as [Hc Hb]. apply negb_true_iff in Hc.
    rewrite append_cons. simpl. rewrite Hc, IH by exact Hb.
    rewrite snoc_append. reflexivity.
Qed.

(** X16. The request of [send] and [query] is one line, and splitting it at
    white space gives the command name followed by the printed arguments,
    whenever these are tokens; with no argument the line ends with a
    space. *)
Theorem request_line_round_trip {A : Type} (str : A -> string)
    (command_name : string) (args : list A) :
  PyStr.is_token command_name = true ->
  Forall (fun a => PyStr.is_token (str a) = true) args ->
  PyStr.splitlines (TCPClient.script_line str command_name args)
  = [command_name +:+ " " +:+ PyStr.join " " (map str args)]
  /\ PyStr.split (TCPClient.script_line str command_name args)
     = command_name :: map str args.
Proof.
  intros Hname Hargs.
  assert (Htok : Forall (fun t => PyStr.is_token t = true) (map str args)).
  { apply Forall_forall. intros t Ht.
    apply list_elem_of_fmap in Ht as (a & -> & Ha).
    rewrite Forall_forall in Hargs. apply Hargs, Ha. }
  pose proof Hname as [Hne Hsp]%andb_true_iff. apply negb_true_iff in Hne.
  destruct (join_tokens (map str args) Htok) as (_ & Hb & _).
  unfold TCPClient.script_line. split.
  - unfold PyStr.splitlines.
    rewrite <- (append_assoc " "), <- (append_assoc command_name).
    rewrite splitlines_go_line; [reflexivity|].
    rewrite !no_break_append, (no_space_no_break _ Hsp), Hb. reflexivity.
  - unfold PyStr.split. rewrite split_go_token by exact Hsp.
    change ("" +:+ command_name) with command_name.
    change (PyStr.split_go command_name
              (" " +:+ PyStr.join " " (map str args) +:+ PyStr.nl))
      with ((if PyStr.is_empty command_name then [] else [command_name])
            ++ PyStr.split_go "" (PyStr.join " " (map str args) +:+ PyStr.nl)).
    rewrite Hne, split_go_join_line_feed by exact Htok. reflexivity.
Qed.

Lemma request_line_round_trip_witness :
  PyStr.splitlines (TCPClient.script_line demo_str "setFrequency" [VNp float32 "1e9"])
  = ["setFrequency 1e9"] /\
  PyStr.split (TCPClient.script_line demo_str "setFrequency" [VNp float32 "1e9"])
  = ["setFrequency"; "1e9"].
Proof.
  apply (request_line_round_trip demo_str "setFrequency" [VNp float32 "1e9"]).
  - reflexivity.
  - repeat constructor.
Defined.

(** ** The log *)

Lemma log_all_spec (calls : list (string * string * string * string)) :
  forall widget file,
    AunisUI.log_all calls (widget, file)
    = (foldr String.append widget
         (rev (map (fun c => AunisUI.log_record c.1.1.1 c.1.1.2 c.1.2 c.2) calls)),
       file +:+ foldr String.append ""
                  (map (fun c => AunisUI.log_record c.1.1.1 c.1.1.2 c.1.2 c.2) calls)).
Proof.
  induction calls as [|c calls IH]; intros widget file.
  - simpl. rewrite append_nil_r. reflexivity.
  - unfold AunisUI.log_all in *. simpl foldl. unfold AunisUI.logCommand at 2.
    cbn [fst snd]. rewrite IH. cbn [map rev]. rewrite foldr_app. cbn [foldr].
    rewrite append_assoc. reflexivity.
Qed.

(** X17. After any sequence of log calls the file holds the records in the
    order of the calls, after what it held, and the widget holds the same
    records in the opposite order, newest first, before what it held. *)
Theorem log_widget_is_file_reversed
    (calls : list (string * string * string * string)) (widget file : string) :
  AunisUI.log_all calls (widget, file)
  = (foldr String.append widget
       (rev (map (fun c => AunisUI.log_record c.1.1.1 c.1.1.2 c.1.2 c.2) calls)),
     file +:+ foldr String.append ""
                (map (fun c => AunisUI.log_record c.1.1.1 c.1.1.2 c.1.2 c.2) calls)).
Proof. apply log_all_spec. Qed.

(** ** The completion inserted by the editor *)

Lemma length_append (a b : string) :
  String.length (a +:+ b) = String.length a + String.length b.
Proof. induction a as [|c a IH]; [reflexivity|]. rewrite append_cons. simpl. lia. Qed.

Lemma drop_append (a b : string) : PyStr.drop (String.length a) (a +:+ b) = b.
Proof.
  induction a as [|c a IH]; [destruct b; reflexivity|].
  rewrite append_cons. simpl. exact IH.
Qed.

Lemma prefix_append (p c : string) :
  String.prefix p c = true -> exists r, c = p +:+ r.
Proof.
  revert c. induction p as [|a p IH]; intros c.
  - intros _. exists c. reflexivity.
  - destruct c as [|b c]; simpl; [discriminate|].
    destruct (ascii_dec a b) as [-> | _]; [|discriminate].
    intros Hp. destruct (IH c Hp) as [r ->]. exists r. reflexivity.
Qed.

(** X18. When the word typed is a proper prefix of the completion chosen,
    the text inserted is what is missing: the word followed by it is the
    completion. When the word typed is already the whole completion, the
    slice [completion[-0:]] is the whole completion, which is inserted a
    second time. *)
Theorem inserted_text_completes_the_word (completion prefix : string) :
  (String.prefix prefix completion = true -> prefix <> completion ->
   prefix +:+ TextEditAutoComplete.inserted_text completion prefix = completion)
  /\ TextEditAutoComplete.inserted_text completion completion = completion.
Proof.
  unfold TextEditAutoComplete.inserted_text, PyStr.slice_from. split.
  - intros Hp Hne. destruct (prefix_append _ _ Hp) as [r ->].
    assert (Hr : String.length r <> 0).
    { destruct r; [rewrite append_nil_r in Hne; congruence | discriminate]. }
    rewrite length_append.
    destruct (- (Z.of_nat (String.length prefix + String.length r)
                 - Z.of_nat (String.length prefix)) <? 0)%Z eqn:Hneg;
      [|apply Z.ltb_ge in Hneg; lia].
    replace (Z.to_nat (Z.max 0
               (Z.of_nat (String.length prefix + String.length r)
                + - (Z.of_nat (String.length prefix + String.length r)
                     - Z.of_nat (String.length prefix)))))
      with (String.length prefix) by lia.
    rewrite drop_append. reflexivity.
  - rewrite Z.sub_diag. change (- 0)%Z with 0%Z. cbv iota beta.
    change (0 <? 0)%Z with false. cbv iota.
    replace (Z.to_nat (Z.min 0 (Z.of_nat (String.length completion)))) with 0 by lia.
    reflexivity.
Qed.

Lemma inserted_text_completes_the_word_witness :
  String.prefix "bias.S" "bias.Set" = true /\
  "bias.S" +:+ TextEditAutoComplete.inserted_text "bias.Set" "bias.S" = "bias.Set" /\
  TextEditAutoComplete.inserted_text "bias.Set" "bias.Set" = "bias.Set".
Proof.
  split; [reflexivity|]. split.
  - apply (proj1 (inserted_text_completes_the_word "bias.Set" "bias.S"));
      [reflexivity | discriminate].
  - exact (proj2 (inserted_text_completes_the_word "bias.Set" "bias.S")).
Defined.

(** ** The custom functions *)

Section CustomFunctions.
Context `{Driver}.
Variable np_cast : sem_type -> value -> value.
Variable py_add : value -> value -> value.

(** X19. [addX] and [addY] return the error text and the response of the
    position read, with the new coordinates: the triple of the write that
    moves the tip, its error text included, is dropped. The position is read
    twice (the second time for [print]) before the write. *)
Theorem add_position_drops_write_result (self : iface) (d : value)
    (w w1 w2 w3 : World) (r0 r1 written : ExecutionResult) (x y : value)
    (others : list value) :
  Custom.nanonis self "FolMe_XYPosGet" [VLit (LInt 1)] w = (Ok r0, w1) ->
  Custom.nanonis self "FolMe_XYPosGet" [VLit (LInt 1)] w1 = (Ok r1, w2) ->
  variables r0 = x :: y :: others ->
  (Custom.nanonis self "FolMe_XYPosSet"
     [np_cast float64 (py_add x d); np_cast float64 y; VLit (LInt 1)] w2
   = (Ok written, w3) ->
   Custom.addX np_cast py_add self d w
   = (Ok (mkResult (errorString r0) (response r0) [py_add x d; y]), w3))
  /\
  (Custom.nanonis self "FolMe_XYPosSet"
     [np_cast float64 x; np_cast float64 (py_add y d); VLit (LInt 1)] w2
   = (Ok written, w3) ->
   Custom.addY np_cast py_add self d w
   = (Ok (mkResult (errorString r0) (response r0) [x; py_add y d]), w3)).
Proof.
  intros Hr0 Hr1 Hv.
  assert (Hget : Custom.getXY self w
                 = (Ok (mkResult (errorString r0) (response r0) [x; y]), w2)).
  { unfold Custom.getXY, Custom.bind. rewrite Hr0, Hr1, Hv. reflexivity. }
  split; intros Hw.
  - unfold Custom.addX, Custom.bind. rewrite Hget. simpl.
    unfold Custom.setXY. rewrite Hw. reflexivity.
  - unfold Custom.addY, Custom.bind. rewrite Hget. simpl.
    unfold Custom.setXY. rewrite Hw. reflexivity.
Qed.

(** X20. [addCurrent] returns the error text of the read of the setpoint
    with the response and the variables of the write: an error text of the
    write is not returned. [addBias] returns the triple of the write. *)
Theorem add_current_returns_read_error (self : iface) (d : value)
    (w w1 w2 : World) (r written : ExecutionResult) (v : value)
    (others : list value) :
  variables r = v :: others ->
  (Custom.nanonis self "ZCtrl_SetpntGet" [] w = (Ok r, w1) ->
   Custom.nanonis self "ZCtrl_SetpntSet" [np_cast float32 (py_add v d)] w1
   = (Ok written, w2) ->
   Custom.addCurrent np_cast py_add self d w
   = (Ok (mkResult (errorString r) (response written) (variables written)), w2))
  /\
  (Custom.nanonis self "Bias_Get" [] w = (Ok r, w1) ->
   Custom.nanonis self "Bias_Set" [np_cast float32 (py_add v d)] w1
   = (Ok written, w2) ->
   Custom.addBias np_cast py_add self d w = (Ok written, w2)).
Proof.
  intros Hv. split; intros Hr Hw.
  - unfold Custom.addCurrent, Custom.bind. rewrite Hr, Hv. simpl. rewrite Hw.
    reflexivity.
  - unfold Custom.addBias, Custom.bind. rewrite Hr, Hv. simpl. exact Hw.
Qed.

End CustomFunctions.

Lemma add_position_drops_write_result_witness :
  Custom.addX (H := stage_driver) stage_cast stage_add demo_iface (VNp float64 "3e-10") 0
  = (Ok (mkResult "" "" [VNp float64 "1e-9+3e-10"; VNp float64 "2e-9"]), 3).
Proof.
  refine (proj1 (add_position_drops_write_result (H := stage_driver)
                   stage_cast stage_add demo_iface (VNp float64 "3e-10") 0 1 2 3
                   (mkResult "" "" [VNp float64 "1e-9"; VNp float64 "2e-9"])
                   (mkResult "" "" [VNp float64 "1e-9"; VNp float64 "2e-9"])
                   (mkResult "Out of range" "refused" [])
                   (VNp float64 "1e-9") (VNp float64 "2e-9") [] _ _ _) _);
    reflexivity.
Defined.

Lemma add_current_returns_read_error_witness :
  Custom.addCurrent (H := stage_driver) stage_cast stage_add demo_iface
    (VNp float32 "1e-11") 0
  = (Ok (mkResult "" "refused" []), 2) /\
  Custom.addBias (H := stage_driver) stage_cast stage_add demo_iface
    (VNp float32 "0.1") 0
  = (Ok (mkResult "Out of range" "refused" []), 2).
Proof.
  split.
  - refine (proj1 (add_current_returns_read_error (H := stage_driver)
                     stage_cast stage_add demo_iface (VNp float32 "1e-11") 0 1 2
                     (mkResult "" "" [VNp float32 "5e-11"])
                     (mkResult "Out of range" "refused" [])
                     (VNp float32 "5e-11") [] _) _ _); reflexivity.
  - refine (proj2 (add_current_returns_read_error (H := stage_driver)
                     stage_cast stage_add demo_iface (VNp float32 "0.1") 0 1 2
                     (mkResult "" "" [VNp float32 "0.5"])
                     (mkResult "Out of range" "refused" [])
                     (VNp float32 "0.5") [] _) _ _); reflexivity.
Defined.

(** ** The message of the syntax errors *)

Lemma no_break_uint (d : Decimal.uint) :
  PyStr.no_break (NilEmpty.string_of_uint d) = true.
Proof. induction d; simpl; auto. Qed.

Lemma no_break_str_nat (n : nat) : PyStr.no_break (PyStr.str_nat n) = true.
Proof.
  unfold PyStr.str_nat, NilZero.string_of_uint.
  destruct (Nat.to_uint n) eqn:Hd; try reflexivity;
    rewrite <- Hd; apply no_break_uint.
Qed.

Lemma no_space_snoc (cur : string) (c : ascii) :
  PyStr.no_space cur = true -> PyStr.isspace c = false ->
  PyStr.no_space (PyStr.snoc cur c) = true.
Proof.
  intros Hcur Hc. unfold PyStr.snoc.
  induction cur as [|d cur IH]; simpl in *; [rewrite Hc; reflexivity|].
  apply andb_true_iff in Hcur as [Hd Hcur]. rewrite Hd, IH by exact Hcur.
  reflexivity.
Qed.

(** The tokens of [split] hold no white space. *)
Lemma split_go_no_space (s : string) : forall cur,
  PyStr.no_space cur = true ->
  Forall (fun t => PyStr.no_space t = true) (PyStr.split_go cur s).
Proof.
  induction s as [|c s IH]; intros cur Hcur; simpl.
  - destruct (PyStr.is_empty cur); auto.
  - destruct (PyStr.isspace c) eqn:Hc.
    + destruct (PyStr.is_empty cur); simpl; [|constructor; [exact Hcur|]];
        apply IH; reflexivity.
    + apply IH, no_space_snoc; assumption.
Qed.

Lemma check_syntax_no_break (script e : string) :
  e ∈ check_syntax script -> PyStr.no_break e = true.
Proof.
  intros He.
  destruct (errors_are_justified script e He) as [[-> _] | (i & line & Hi & Hcase)];
    [reflexivity|].
  apply list_elem_of_lookup_2 in Hi.
  destruct (script_line_shape script line Hi) as (_ & _ & Hb & _).
  destruct Hcase as [(_ & _ & ->) | [(_ & _ & ->) | (_ & _ & cmd_name & user_values & Hs & Hcmd)]].
  - unfold msg_invalid_loop. rewrite !no_break_append, no_break_str_nat, Hb. reflexivity.
  - unfold msg_end_without_loop.
    rewrite !no_break_append, no_break_str_nat, Hb. reflexivity.
  - destruct Hcmd as [[_ ->] | (cmd_info & _ & _ & ->)].
    + unfold msg_unknown. rewrite !no_break_append, no_break_str_nat, Hb. reflexivity.
    + assert (Hname : PyStr.no_break cmd_name = true).
      { pose proof (split_go_no_space line "" eq_refl) as Hall.
        fold (PyStr.split line) in Hall. rewrite Hs in Hall.
        apply Forall_cons in Hall as [Hname _]. apply no_space_no_break, Hname. }
      unfold msg_wrong_args.
      rewrite !no_break_append, !no_break_str_nat, Hb, Hname. reflexivity.
Qed.

Lemma syntax_error_message_eq (errors : list string) : forall msg,
  foldl (fun msg e => msg +:+ e +:+ PyStr.nl) msg errors
  = msg +:+ foldr (fun e rest => e +:+ PyStr.nl +:+ rest) "" errors.
Proof.
  induction errors as [|e errors IH]; intros msg; simpl.
  - rewrite append_nil_r. reflexivity.
  - rewrite IH, !append_assoc. reflexivity.
Qed.

Lemma splitlines_go_record (line : string) : forall cur rest,
  PyStr.no_break line = true ->
  PyStr.splitlines_go cur (line +:+ PyStr.nl +:+ rest)
  = (cur +:+ line) :: PyStr.splitlines_go "" rest.
Proof.
  induction line as [|c line IH]; intros cur rest Hb.
  - rewrite append_nil_r. reflexivity.
  - simpl in Hb. apply andb_true_iff in Hb as [Hc Hb]. apply negb_true_iff in Hc.
    rewrite append_cons. simpl. rewrite Hc, IH by exact Hb.
    rewrite snoc_append. reflexivity.
Qed.

(** X21. The message the worker sends with the signal [errorMsg] reads,
    line by line, as the heading followed by the errors of [check_syntax],
    one per line and in the same order. *)
Theorem syntax_error_message_lines (script : string) :
  PyStr.splitlines (runScriptThread.syntax_error_message (check_syntax script))
  = "SYNTAX ERRORS:" :: check_syntax script.
Proof.
  unfold runScriptThread.syntax_error_message, PyStr.splitlines.
  rewrite syntax_error_message_eq, append_assoc.
  rewrite splitlines_go_record by reflexivity. f_equal.
  pose proof (check_syntax_no_break script) as Hall.
  induction (check_syntax script) as [|e errors IH]; [reflexivity|].
  simpl. rewrite splitlines_go_record by (apply Hall, list_elem_of_here).
  f_equal. apply IH. intros e' He'. apply Hall, list_elem_of_further, He'.
Qed.

(** ** The arity of the bound functions *)

(** X22. Among the commands bound to a function of this repository, [xy.Set]
    is the only one whose entry declares a number of arguments that is not
    the number of parameters of the function: for every other one the
    entry declares as many arguments as the function takes. *)
Theorem only_xy_set_has_wrong_arity (name : string) (info : CommandSpec) (n : nat) :
  FUNCTION_REGISTRY !! name = Some info ->
  arity (func info) = Some n ->
  (length (args info) = n <-> name <> "xy.Set").
Proof.
  intros Hl Har. apply registry_lookup_entry in Hl.
  assert (Hall : Forall (fun kv : string * CommandSpec =>
                           forall m, arity (func kv.2) = Some m ->
                                     (length (args kv.2) = m <-> kv.1 <> "xy.Set"))
                   registry_entries).
  { unfold registry_entries.
    repeat (apply Forall_cons; split;
            [intros m Hm; vm_compute in Hm;
             first [discriminate Hm
                   | injection Hm as <-; split;
                     [intros _; discriminate
                     | intros _; reflexivity]
                   | injection Hm as <-; split;
                     [intros Hlen; discriminate Hlen
                     | intros Hne; destruct (Hne eq_refl)]]|]).
    apply Forall_nil_2. }
  rewrite Forall_forall in Hall. exact (Hall _ Hl n Har).
Qed.

Lemma only_xy_set_has_wrong_arity_witness :
  FUNCTION_REGISTRY !! "z.Set"
  = Some (mkCmd "ScriptingInterface.setZ" [mkArg "z (m)" float32 (LFloat "0.0") true]) /\
  arity "ScriptingInterface.setZ" = Some 1 /\
  (length [mkArg "z (m)" float32 (LFloat "0.0") true] = 1 <-> "z.Set" <> "xy.Set").
Proof.
  split; [vm_compute; reflexivity|]. split; [reflexivity|].
  apply (only_xy_set_has_wrong_arity "z.Set"
           (mkCmd "ScriptingInterface.setZ" [mkArg "z (m)" float32 (LFloat "0.0") true]) 1).
  - vm_compute. reflexivity.
  - reflexivity.
Defined.
